(** * BigAl query compilation: a shallow embedding of [SqlHelper]

    The development embeds the statement builders of [SqlHelper]
    (the where-clause compiler, the select-list builder, the order
    statement, and the insert, update and delete builders) as Rocq
    functions and proves the properties the specification states about
    them, and further properties that the code shows.

    Conventions of the embedding.
    - JavaScript values are the inductive type [Value]; an object is the
      list of its own enumerable entries in [Object.entries] order, so
      that the order in which a where object is compiled is explicit.
    - A [throw] is the [Err] case of [Result]; the [params] array that the
      builders share and mutate is threaded explicitly: a builder takes
      the array as it is before the call and returns it as it is after.
    - Strings are [string]; [a +:+ b] is concatenation and
      [String.concat sep l] is [l.join(sep)]. *)

From Stdlib Require Import String Ascii List ZArith Lia Bool DecimalString DecimalNat.
From stdpp Require Import base option list strings gmap.
Import ListNotations.

(** ** JavaScript values *)

#[local] Unset Elimination Schemes.

Inductive Value : Type :=
| VUndefined
| VNull
| VBoolean (b : bool)
| VNumber (n : Z)
| VString (s : string)
| VDate (t : Z)
| VArray (items : list Value)
| VObject (entries : list (string * Value)).

#[local] Set Elimination Schemes.

(** [params.length] rendered by a template literal: decimal, no padding. *)
Definition decimal (n : nat) : string := NilEmpty.string_of_uint (Nat.to_uint n).

(** lodash type tests, as far as the builders use them. *)
Definition isUndefined (v : Value) : bool :=
  match v with VUndefined => true | _ => false end.

Definition isNull (v : Value) : bool :=
  match v with VNull => true | _ => false end.

Definition isNil (v : Value) : bool := isUndefined v || isNull v.

Definition isArray (v : Value) : bool :=
  match v with VArray _ => true | _ => false end.

Definition isString (v : Value) : bool :=
  match v with VString _ => true | _ => false end.

Definition isDate (v : Value) : bool :=
  match v with VDate _ => true | _ => false end.

(** [_.isObject]: arrays and dates are objects too. *)
Definition isObject (v : Value) : bool :=
  match v with VArray _ | VObject _ | VDate _ => true | _ => false end.

(** First entry stored under [key], as [obj[key]] reads it. *)
Fixpoint lookupEntry (key : string) (entries : list (string * Value)) : option Value :=
  match entries with
  | [] => None
  | (k, v) :: rest => if String.eqb k key then Some v else lookupEntry key rest
  end.

(** [value[key]] for an object value, as far as the value owns the key:
    the own entries of a plain object; for an array its [length] and its
    elements under their canonical index; a date has no own entry. What a
    value inherits ([toString], [constructor], the methods of an array or
    of a date) is not modelled: a key is read as the code reads it when
    the value owns it or no prototype has it. *)
Definition getProperty (v : Value) (key : string) : Value :=
  match v with
  | VObject entries => default VUndefined (lookupEntry key entries)
  | VArray items =>
      if String.eqb key "length" then VNumber (Z.of_nat (length items))
      else match find (fun i => String.eqb (decimal i) key) (seq 0 (length items)) with
           | Some i => nth i items VUndefined
           | None => VUndefined
           end
  | _ => VUndefined
  end.

(** Truthiness of an optional string ([undefined] and [''] are falsy). *)
Definition truthy (s : option string) : bool :=
  match s with
  | Some s => negb (String.eqb s EmptyString)
  | None => false
  end.

(** [a || b] on optional strings. *)
Definition orElse (a b : option string) : option string :=
  if truthy a then a else b.

(** [String.prototype.toLowerCase] on strings of ASCII characters, where
    only the letters [A] to [Z] change. A string is the sequence of its
    bytes; the cased letters outside ASCII, which the method lowers too,
    are not modelled, and are left as they are. *)
Definition lowerAscii (c : ascii) : ascii :=
  let n := nat_of_ascii c in
  if (65 <=? n)%nat && (n <=? 90)%nat then ascii_of_nat (n + 32) else c.

Fixpoint toLowerCase (s : string) : string :=
  match s with
  | EmptyString => EmptyString
  | String c rest => String (lowerAscii c) (toLowerCase rest)
  end.

(** ** Errors

    The builders throw [Error] objects that differ by their message only;
    one constructor stands for each message template of the source, and
    [TypeError] / [RangeError] for the two errors the runtime itself
    raises (calling a method of a value that lacks it, iterating a value
    that is not iterable, reading a property of [undefined]; unbounded
    recursion). *)

Inductive Error : Type :=
| PropertyNameNotDefined
    (* 'propertyName is not defined.' *)
| PropertyNotFound (propertyName globalId : string)
    (* `Property (${propertyName}) not found in model (${schema.globalId}).` *)
| RelatedModelNotFound (model : string)
    (* `Unable to find model schema (${model}) specified ...` *)
| RelatedPrimaryKeyNotFound (model : string)
    (* `Unable to find primary key column for ${relatedModelName} when inserting ...` *)
| UndefinedQueryValue (propertyName globalId : string)
    (* `Attempting to query with an undefined value. ${propertyName || ''} on
       ${schema.globalId}` *)
| UndefinedPrimaryKeyValue (propertyName modelName : string)
    (* `Undefined primary key value for hydrated object value for ${propertyName}
       on ${model.name}` *)
| ExpectedStringValues (constraint propertyName globalId : string)
    (* `Expected all array values to be strings for ${constraint} constraint. ...` *)
| ExpectedStringValue (constraint propertyName globalId : string)
    (* `Expected value to be a string for ${constraint} constraint. ...` *)
| OperatorNotSupported (operator propertyType propertyName globalId : string)
    (* `${operator} operator is not supported for ${propertyType || 'unknown'} type. ...` *)
| MissingRequiredField (modelName propertyName : string)
    (* `Create statement for ${model.name} is missing value for required field:
       ${column.propertyName}` *)
| TypeError (what : string)
| RangeError.

(** The error taxonomy of the specification (section 7). *)
Inductive ErrorKind : Type :=
| UnknownPropertyError
| UnknownRelatedModelError
| MissingRequiredFieldError
| UndefinedValueError
| InvalidConstraintError
| UnsupportedOperatorError
| RuntimeError.

(** Modelled from the spec: the source throws plain [Error] objects; the
    named error classes of section 7 are not declared under src/, so each
    message template is assigned the class whose description it fits. *)
Definition errorKind (e : Error) : ErrorKind :=
  match e with
  | PropertyNameNotDefined => UnknownPropertyError
  | PropertyNotFound _ _ => UnknownPropertyError
  | RelatedModelNotFound _ => UnknownRelatedModelError
  | RelatedPrimaryKeyNotFound _ => UnknownRelatedModelError
  | UndefinedQueryValue _ _ => UndefinedValueError
  | UndefinedPrimaryKeyValue _ _ => UndefinedValueError
  | ExpectedStringValues _ _ _ => InvalidConstraintError
  | ExpectedStringValue _ _ _ => InvalidConstraintError
  | OperatorNotSupported _ _ _ _ => UnsupportedOperatorError
  | MissingRequiredField _ _ => MissingRequiredFieldError
  | TypeError _ => RuntimeError
  | RangeError => RuntimeError
  end.

Inductive Result (A : Type) : Type :=
| Ok (a : A)
| Err (e : Error).

Arguments Ok {A} a.
Arguments Err {A} e.

(** A builder that reads and extends the shared [params] array. *)
Definition Builder (A : Type) : Type := list Value -> Result (A * list Value).

Definition ret {A} (a : A) : Builder A := fun params => Ok (a, params).

Definition throw {A} (e : Error) : Builder A := fun _ => Err e.

Definition bind {A B} (m : Builder A) (k : A -> Builder B) : Builder B :=
  fun params =>
    match m params with
    | Ok (a, params') => k a params'
    | Err e => Err e
    end.

(** [params.push(value)]; the result is the new [params.length]. *)
Definition push (v : Value) : Builder nat :=
  fun params => Ok (length (params ++ [v]), params ++ [v]).

Declare Scope builder_scope.
Delimit Scope builder_scope with builder.
Notation "'do' x <- m ; k" := (bind m (fun x => k))
  (at level 10, x name, m at level 100, k at level 200) : builder_scope.

Definition lift {A} (r : Result A) : Builder A :=
  fun params =>
    match r with
    | Ok a => Ok (a, params)
    | Err e => Err e
    end.

Local Open Scope builder_scope.

(** [items.map(f)] for an [f] that may throw. *)
Fixpoint mapResult {A B} (f : A -> Result B) (items : list A) : Result (list B) :=
  match items with
  | [] => Ok []
  | x :: rest =>
      match f x with
      | Err e => Err e
      | Ok y =>
          match mapResult f rest with
          | Err e => Err e
          | Ok ys => Ok (y :: ys)
          end
      end
  end.

(** ** Model metadata

    The source is in the middle of a migration: the where, update and
    delete builders call the metadata object [schema] and read
    [schema.globalId], [schema.tableName] and [schema.attributes]; the
    select-list and insert builders call it [model] and read [model.name],
    [model.tableName], [model.columns], [model.columnsByPropertyName] and
    [model.primaryKeyColumn]. Neither class is declared under src/. The
    record below is that one object, with the fields the builders read;
    nothing relates the two views unless a statement says so. Where a
    builder calls another under the other name (the delete and the update
    builders hand [{schema, select}] to the select-list builder, which
    reads [model]), the callee gets [undefined], as the call is
    written. *)

Record Attribute : Type := {
  attr_columnName : option string;
  attr_type : option string;
  attr_model : option string;
  attr_primaryKey : bool
}.

(** [defaultsTo]: absent, a value, or a zero-argument function (given by
    the value a call returns). *)
Inductive DefaultsTo : Type :=
| NoDefault
| DefaultValue (v : Value)
| DefaultProducer (produced : Value).

Record Column : Type := {
  col_name : string;
  col_propertyName : string;
  col_type : option string;
  col_required : bool;
  col_defaultsTo : DefaultsTo;
  col_createDate : bool;
  col_updateDate : bool;
  col_model : option string;
  col_collection : option string
}.

Record ModelMetadata : Type := {
  globalId : string;
  modelName : string;
  tableName : string;
  attributes : list (string * Attribute);
  columns : list Column;
  columnsByPropertyName : gmap string Column;
  primaryKeyColumn : option Column
}.

(** [schema.attributes[propertyName]] *)
Fixpoint lookupAttribute (propertyName : string) (attrs : list (string * Attribute))
  : option Attribute :=
  match attrs with
  | [] => None
  | (k, a) :: rest =>
      if String.eqb k propertyName then Some a else lookupAttribute propertyName rest
  end.

Definition getPrimaryKeyPropertyName (schema : ModelMetadata) : string :=
  match find (fun entry => attr_primaryKey (snd entry)) (attributes schema) with
  | Some (name, _) => name
  | None => "id"
  end.

Definition _getColumnName (schema : ModelMetadata) (propertyName : option string)
  : Result string :=
  if negb (truthy propertyName) then Err PropertyNameNotDefined
  else
    let name := default EmptyString propertyName in
    match lookupAttribute name (attributes schema) with
    | None => Err (PropertyNotFound name (globalId schema))
    | Some property => Ok (default name (orElse (attr_columnName property) (Some name)))
    end.

Definition _isComparer (value : string) : bool :=
  String.eqb value "!" || String.eqb value "not" || String.eqb value "or"
  || String.eqb value "and" || String.eqb value "contains"
  || String.eqb value "startsWith" || String.eqb value "endsWith"
  || String.eqb value "like" || String.eqb value "<" || String.eqb value "<="
  || String.eqb value ">" || String.eqb value ">=".

(** How a template literal prints an optional string. *)
Definition shown (s : option string) : string := default "undefined" s.

(** The array column types of the generic array branch. *)
Definition isArrayType (propertyType : string) : bool :=
  String.eqb propertyType "array" || String.eqb propertyType "string[]"
  || String.eqb propertyType "integer[]" || String.eqb propertyType "float[]"
  || String.eqb propertyType "boolean[]".

(** [attribute && attribute.type ? attribute.type.toLowerCase() : ''] *)
Definition loweredType (attribute : option Attribute) : string :=
  match attribute with
  | Some a =>
      if truthy (attr_type a) then toLowerCase (default EmptyString (attr_type a))
      else EmptyString
  | None => EmptyString
  end.

(** The double quote character. *)
Definition dquote : string := String (ascii_of_nat 34) EmptyString.

Definition quoted (columnName : string) : string := dquote +:+ columnName +:+ dquote.

(** ** The where-clause compiler *)

(** The signature of [_buildWhere]: property name, comparer, negation
    flag and value, over the shared [params]. *)
Definition WhereFn : Type :=
  option string -> option string -> bool -> Value -> Builder string.

(** The labels of the [switch (comparer || propertyName)] of [_buildWhere]. *)
Inductive WhereCase : Type :=
| CaseNot
| CaseOr
| CaseContains
| CaseStartsWith
| CaseEndsWith
| CaseLike
| CaseDefault.

Definition whereCase (key : option string) : WhereCase :=
  match key with
  | None => CaseDefault
  | Some k =>
      if String.eqb k "!" || String.eqb k "not" then CaseNot
      else if String.eqb k "or" then CaseOr
      else if String.eqb k "contains" then CaseContains
      else if String.eqb k "startsWith" then CaseStartsWith
      else if String.eqb k "endsWith" then CaseEndsWith
      else if String.eqb k "like" then CaseLike
      else CaseDefault
  end.

(** [for (const x of value)]: an array yields its elements, a string its
    characters; nothing else among the values is iterable. *)
Fixpoint characters (s : string) : list Value :=
  match s with
  | EmptyString => []
  | String c rest => VString (String c EmptyString) :: characters rest
  end.

Definition iterate (value : Value) : Result (list Value) :=
  match value with
  | VArray items => Ok items
  | VString s => Ok (characters s)
  | _ => Err (TypeError "value is not iterable")
  end.

Section WhereCompiler.

Variable modelSchemasByGlobalId : gmap string ModelMetadata.
Variable schema : ModelMetadata.

Definition _buildComparisonOperatorStatement
  (propertyName comparer : option string) (isNegated : bool) (value : Value)
  : Builder string :=
  do columnName <- lift (_getColumnName schema propertyName);
  if isNull value then
    ret (quoted columnName +:+ " " +:+ (if isNegated then "IS NOT" else "IS") +:+ " NULL")
  else
    do n <- push value;
    match lookupAttribute (default EmptyString propertyName) (attributes schema) with
    | None => throw (TypeError "Cannot read properties of undefined (reading 'type')")
    | Some property =>
        let propertyType := attr_type property in
        let supportsLessThanGreaterThan :=
          negb (bool_decide (propertyType = Some "array"))
          && negb (bool_decide (propertyType = Some "json")) in
        let unsupported (operator : string) : Builder string :=
          throw (OperatorNotSupported operator
                   (default "unknown" (orElse propertyType (Some "unknown")))
                   (default EmptyString (orElse propertyName (Some EmptyString)))
                   (globalId schema)) in
        let placeholder := "$" +:+ decimal n in
        if bool_decide (comparer = Some "<") then
          if negb supportsLessThanGreaterThan then unsupported "<"
          else ret (quoted columnName +:+ (if isNegated then ">=" else "<") +:+ placeholder)
        else if bool_decide (comparer = Some "<=") then
          if negb supportsLessThanGreaterThan then unsupported "<="
          else ret (quoted columnName +:+ (if isNegated then ">" else "<=") +:+ placeholder)
        else if bool_decide (comparer = Some ">") then
          if negb supportsLessThanGreaterThan then unsupported ">"
          else ret (quoted columnName +:+ (if isNegated then "<=" else ">") +:+ placeholder)
        else if bool_decide (comparer = Some ">=") then
          if negb supportsLessThanGreaterThan then unsupported ">="
          else ret (quoted columnName +:+ (if isNegated then "<" else ">=") +:+ placeholder)
        else if bool_decide (propertyType = Some "array") then
          ret (placeholder +:+ (if isNegated then "<>ALL(" else "=ANY(")
               +:+ quoted columnName +:+ ")")
        else
          ret (quoted columnName +:+ (if isNegated then "<>" else "=") +:+ placeholder)
    end.

(** The string case of [_buildLikeOperatorStatement] (its second half). *)
Definition likeString (propertyName : option string) (isNegated : bool) (value : Value)
  : Builder string :=
  match value with
  | VString s =>
      do columnName <- lift (_getColumnName schema propertyName);
      if negb (String.eqb s EmptyString) then
        do n <- push value;
        let propertyType :=
          loweredType (lookupAttribute (default EmptyString propertyName) (attributes schema)) in
        if String.eqb propertyType "array" || String.eqb propertyType "string[]" then
          ret ((if isNegated then "NOT " else EmptyString)
               +:+ "EXISTS(SELECT 1 FROM (SELECT unnest(" +:+ quoted columnName
               +:+ ") AS " +:+ quoted ("unnested_" +:+ columnName)
               +:+ ") __unnested WHERE " +:+ quoted ("unnested_" +:+ columnName)
               +:+ " ILIKE $" +:+ decimal n +:+ ")")
        else
          ret (quoted columnName +:+ (if isNegated then " NOT" else EmptyString)
               +:+ " ILIKE $" +:+ decimal n)
      else
        ret (quoted columnName +:+ " " +:+ (if isNegated then "!=" else "=") +:+ " ''")
  | _ =>
      throw (ExpectedStringValue "like" (shown propertyName) (globalId schema))
  end.

(** [val.toLowerCase()]: on [null] and [undefined] the method cannot be
    read, and no other value that is not a string has it. *)
Definition lowered (val : Value) : Result Value :=
  match val with
  | VString s => Ok (VString (toLowerCase s))
  | VNull => Err (TypeError "Cannot read properties of null (reading 'toLowerCase')")
  | VUndefined =>
      Err (TypeError "Cannot read properties of undefined (reading 'toLowerCase')")
  | _ => Err (TypeError "val.toLowerCase is not a function")
  end.

Definition _buildLikeOperatorStatement
  (propertyName : option string) (isNegated : bool) (value : Value) : Builder string :=
  match value with
  | VArray [] => ret (if isNegated then "1=1" else "1<>1")
  | VArray [single] => likeString propertyName isNegated single
  | VArray items =>
      do lowerValues <- lift (mapResult lowered items);
      do columnName <- lift (_getColumnName schema propertyName);
      do n <- push (VArray lowerValues);
      let propertyType :=
        loweredType (lookupAttribute (default EmptyString propertyName) (attributes schema)) in
      if String.eqb propertyType "array" || String.eqb propertyType "string[]" then
        ret ("EXISTS(SELECT 1 FROM (SELECT unnest(" +:+ quoted columnName
             +:+ ") AS " +:+ quoted ("unnested_" +:+ columnName)
             +:+ ") __unnested WHERE lower(" +:+ quoted ("unnested_" +:+ columnName)
             +:+ ")" +:+ (if isNegated then "<>ALL" else "=ANY")
             +:+ "($" +:+ decimal n +:+ "::TEXT[]))")
      else
        ret ("lower(" +:+ quoted columnName +:+ ")"
             +:+ (if isNegated then "<>ALL" else "=ANY")
             +:+ "($" +:+ decimal n +:+ "::TEXT[])")
  | _ => likeString propertyName isNegated value
  end.

(** The loop of [_buildOrOperatorStatement]: every constraint is compiled
    with no property name and no comparer, and wrapped in parentheses. *)
Fixpoint orClausesOf (rec : WhereFn) (isNegated : bool) (constraints : list Value)
  : Builder (list string) :=
  match constraints with
  | [] => ret []
  | constraint :: rest =>
      do orClause <- rec None None isNegated constraint;
      do orClauses <- orClausesOf rec isNegated rest;
      ret (("(" +:+ orClause +:+ ")") :: orClauses)
  end.

(** The end of [_buildOrOperatorStatement] and of the array branch: one
    clause is returned as it is, several are joined. *)
Definition joinClauses (isNegated : bool) (clauses : list string) : string :=
  match clauses with
  | [clause] => clause
  | _ =>
      if isNegated then String.concat " AND " clauses
      else "(" +:+ String.concat " OR " clauses +:+ ")"
  end.

Definition _buildOrOperatorStatement (rec : WhereFn) (isNegated : bool) (value : Value)
  : Builder string :=
  do constraints <- lift (iterate value);
  do orClauses <- orClausesOf rec isNegated constraints;
  ret (joinClauses isNegated orClauses).

(** [contains], [startsWith] and [endsWith]: the value, a string or an
    array of strings, is wrapped in wildcards and compiled as [like]. *)
Definition patternConstraint (rec : WhereFn) (constraint : string) (wrap : string -> string)
  (propertyName : option string) (isNegated : bool) (value : Value) : Builder string :=
  match value with
  | VArray items =>
      do values <- lift (mapResult
                           (fun val =>
                              match val with
                              | VString s => Ok (VString (wrap s))
                              | _ => Err (ExpectedStringValues constraint
                                            (shown propertyName) (globalId schema))
                              end) items);
      rec propertyName (Some "like") isNegated (VArray values)
  | VString s => rec propertyName (Some "like") isNegated (VString (wrap s))
  | _ => throw (ExpectedStringValue constraint (shown propertyName) (globalId schema))
  end.

(** The hydrated-relation test of the default branch: the primary key
    value to compile instead of [value], if [value] is an object given for
    a relation property and carries the related model's primary key. *)
Definition hydratedValue (propertyName : option string) (value : Value)
  : Result (option Value) :=
  if truthy propertyName then
    match lookupAttribute (default EmptyString propertyName) (attributes schema) with
    | Some modelAttribute =>
        if truthy (attr_model modelAttribute) && isObject value then
          let model := default EmptyString (attr_model modelAttribute) in
          match modelSchemasByGlobalId !! toLowerCase model with
          | None => Err (RelatedModelNotFound model)
          | Some relationSchema =>
              let relationPrimaryKey := getPrimaryKeyPropertyName relationSchema in
              if negb (isUndefined (getProperty value relationPrimaryKey))
              then Ok (Some (getProperty value relationPrimaryKey))
              else Ok None
          end
        else Ok None
    | None => Ok None
    end
  else Ok None.

(** The attribute whose type decides how an array value is compiled:
    that of the property name, else that of the comparer. *)
Definition arrayAttributeOf (propertyName comparer : option string) : option Attribute :=
  let fromPropertyName :=
    if truthy propertyName
    then lookupAttribute (default EmptyString propertyName) (attributes schema) else None in
  let fromComparer :=
    if truthy comparer
    then lookupAttribute (default EmptyString comparer) (attributes schema) else None in
  match fromPropertyName with
  | Some a => Some a
  | None => fromComparer
  end.

(** Compiles each value of a list under the property name, in order. *)
Fixpoint constraintsOf (rec : WhereFn) (propertyName : option string) (isNegated : bool)
  (values : list Value) : Builder (list string) :=
  match values with
  | [] => ret []
  | val :: rest =>
      do constraint <- rec propertyName None isNegated val;
      do constraints <- constraintsOf rec propertyName isNegated rest;
      ret (constraint :: constraints)
  end.

Definition castTypeOf (propertyType : string) : string :=
  if String.eqb propertyType "int" || String.eqb propertyType "integer"
     || String.eqb propertyType "integer[]" then "::INTEGER[]"
  else if String.eqb propertyType "float" || String.eqb propertyType "float[]"
  then "::NUMERIC[]"
  else if String.eqb propertyType "boolean" || String.eqb propertyType "boolean[]"
  then "::BOOLEAN[]"
  else "::TEXT[]".

(** The array branch of the default case. *)
Definition whereArray (rec : WhereFn) (propertyName comparer : option string)
  (isNegated : bool) (items : list Value) : Builder string :=
  match items with
  | [] =>
      let arrayAttributeType := loweredType (arrayAttributeOf propertyName comparer) in
      if isArrayType arrayAttributeType then
        do arrayColumnName <- lift (_getColumnName schema propertyName);
        ret (quoted arrayColumnName +:+ (if isNegated then "<>" else "=") +:+ "'{}'")
      else ret (if isNegated then "1=1" else "1<>1")
  | _ =>
      let valueWithoutNull := List.filter (fun item => negb (isNull item)) items in
      do nullConstraints <-
        constraintsOf rec propertyName isNegated (List.filter isNull items);
      do valueConstraints <-
        match valueWithoutNull with
        | [] => ret []
        | [single] =>
            do constraint <- rec propertyName None isNegated single;
            ret [constraint]
        | _ =>
            do columnName <- lift (_getColumnName schema propertyName);
            let propertyType := loweredType (arrayAttributeOf propertyName comparer) in
            if isArrayType propertyType then
              constraintsOf rec propertyName isNegated valueWithoutNull
            else
              do n <- push (VArray valueWithoutNull);
              ret [quoted columnName +:+ (if isNegated then "<>ALL" else "=ANY")
                   +:+ "($" +:+ decimal n +:+ castTypeOf propertyType +:+ ")"]
        end;
      ret (joinClauses isNegated (nullConstraints ++ valueConstraints))
  end.

(** The nested-object branch: the loop over [Object.entries(value)]. A key
    that is a comparer is the comparer of its entry; any other key replaces
    the property name, for its entry and for the entries after it. *)
Fixpoint andValuesOf (rec : WhereFn) (propertyName : option string) (isNegated : bool)
  (entries : list (string * Value)) : Builder (list string) :=
  match entries with
  | [] => ret []
  | (key, subWhere) :: rest =>
      let subQueryComparer := if _isComparer key then Some key else None in
      let propertyName' := if _isComparer key then propertyName else Some key in
      do andValue <- rec propertyName' subQueryComparer isNegated subWhere;
      do andValues <- andValuesOf rec propertyName' isNegated rest;
      ret (andValue :: andValues)
  end.

(** The [default] case of the switch. *)
Definition whereDefault (rec : WhereFn) (propertyName comparer : option string)
  (isNegated : bool) (value : Value) : Builder string :=
  if isUndefined value then
    throw (UndefinedQueryValue (default EmptyString (orElse propertyName (Some EmptyString)))
             (globalId schema))
  else
    do hydrated <- lift (hydratedValue propertyName value);
    match hydrated with
    | Some primaryKeyValue => rec propertyName comparer isNegated primaryKeyValue
    | None =>
        match value with
        | VArray items => whereArray rec propertyName comparer isNegated items
        | VObject entries =>
            do andValues <- andValuesOf rec propertyName isNegated entries;
            ret (String.concat " AND " andValues)
        | _ => _buildComparisonOperatorStatement propertyName comparer isNegated value
        end
    end.

(** The body of [_buildWhere], over the function [rec] that its recursive
    calls go to. A call under [not] whose property name is itself [!] or
    [not] repeats itself forever, which the runtime ends with a
    [RangeError]. *)
Definition _buildWhereBody (rec : WhereFn) : WhereFn :=
  fun propertyName comparer isNegated value =>
    match whereCase (orElse comparer propertyName) with
    | CaseNot =>
        match whereCase propertyName with
        | CaseNot => throw RangeError
        | _ => rec propertyName None true value
        end
    | CaseOr => _buildOrOperatorStatement rec isNegated value
    | CaseContains =>
        patternConstraint rec "contains" (fun val => "%" +:+ val +:+ "%")
          propertyName isNegated value
    | CaseStartsWith =>
        patternConstraint rec "startsWith" (fun val => val +:+ "%")
          propertyName isNegated value
    | CaseEndsWith =>
        patternConstraint rec "endsWith" (fun val => "%" +:+ val)
          propertyName isNegated value
    | CaseLike => _buildLikeOperatorStatement propertyName isNegated value
    | CaseDefault => whereDefault rec propertyName comparer isNegated value
    end.

(** [_buildWhere] unrolled [fuel] times. *)
Fixpoint _buildWhereWithin (fuel : nat) : WhereFn :=
  match fuel with
  | O => fun _ _ _ _ => throw RangeError
  | S fuel' => _buildWhereBody (_buildWhereWithin fuel')
  end.

End WhereCompiler.

(** *** Termination of the recursion

    Every recursive call of the body is at a smaller [measure]: the value
    gets smaller, or it stays and the switch moves from [not] to another
    case, or from [or] and the pattern constraints to the default and
    [like] cases. *)

Fixpoint size (v : Value) : nat :=
  match v with
  | VArray items =>
      2 + (fix sizes (l : list Value) : nat :=
             match l with
             | [] => 0
             | x :: rest => size x + sizes rest
             end) items
  | VObject entries =>
      1 + (fix sizes (l : list (string * Value)) : nat :=
             match l with
             | [] => 0
             | (_, x) :: rest => size x + sizes rest
             end) entries
  | _ => 1
  end.

Definition rank (key : option string) : nat :=
  match whereCase key with
  | CaseNot => 2
  | CaseOr | CaseContains | CaseStartsWith | CaseEndsWith => 1
  | CaseLike | CaseDefault => 0
  end.

Definition measure (propertyName comparer : option string) (value : Value) : nat :=
  3 * size value + rank (orElse comparer propertyName).

(** [SqlHelper._buildWhere]: the body, unrolled as often as the call at
    hand needs ([_buildWhere_unfold] below is the recursive equation of the
    source). *)
Definition _buildWhere (modelSchemasByGlobalId : gmap string ModelMetadata)
  (schema : ModelMetadata) : WhereFn :=
  fun propertyName comparer isNegated value =>
    _buildWhereWithin modelSchemasByGlobalId schema
      (S (measure propertyName comparer value)) propertyName comparer isNegated value.

(** [SqlHelper._buildWhereStatement]; [whereStatement] is [None] when it is
    left [undefined]. The default [params = []] is the caller's business. *)
Definition _buildWhereStatement (modelSchemasByGlobalId : gmap string ModelMetadata)
  (schema : ModelMetadata) (where_ : Value) (params : list Value)
  : Result (option string * list Value) :=
  if isObject where_ then
    match _buildWhere modelSchemasByGlobalId schema None (Some "and") false where_ params with
    | Err e => Err e
    | Ok (whereStatement, params') =>
        Ok (Some (if negb (String.eqb whereStatement EmptyString)
                  then "WHERE " +:+ whereStatement else whereStatement), params')
    end
  else Ok (None, params).

(** ** The select list *)

(** One entry of the projection list. *)
Definition selectEntry (column : Column) (propertyName : string) : string :=
  if negb (String.eqb (col_name column) propertyName)
  then quoted (col_name column) +:+ " AS " +:+ quoted propertyName
  else quoted propertyName.

(** The loop that builds the projection list; the comma goes before every
    entry but the first. *)
Fixpoint selectEntries (model : ModelMetadata) (index : nat) (select : list string)
  : Result string :=
  match select with
  | [] => Ok EmptyString
  | propertyName :: rest =>
      match columnsByPropertyName model !! propertyName with
      | None => Err (TypeError "Cannot read properties of undefined (reading 'name')")
      | Some column =>
          match selectEntries model (S index) rest with
          | Err e => Err e
          | Ok query =>
              Ok ((if (0 <? index)%nat then "," else EmptyString)
                  +:+ selectEntry column propertyName +:+ query)
          end
      end
  end.

(** The array that [_getColumnsToSelect] iterates: the caller's array,
    after the primary key property was pushed onto it if it lacked it, or
    a fresh array of the property names of the columns that are not
    collections. *)
Definition columnsSelected (model : ModelMetadata) (select : option (list string))
  : list string :=
  match select with
  | Some select =>
      match primaryKeyColumn model with
      | Some primaryKeyColumn =>
          if negb (bool_decide (col_propertyName primaryKeyColumn ∈ select))
          then select ++ [col_propertyName primaryKeyColumn]
          else select
      | None => select
      end
  | None =>
      map col_propertyName
        (List.filter (fun column => negb (truthy (col_collection column))) (columns model))
  end.

(** [SqlHelper._getColumnsToSelect]. The second component is the caller's
    [select] array as the call leaves it ([None] if none was passed): the
    push happens before the loop, so it is there also when the loop
    throws. *)
Definition _getColumnsToSelect (model : ModelMetadata) (select : option (list string))
  : Result string * option (list string) :=
  (selectEntries model 0 (columnsSelected model select),
   match select with
   | Some _ => Some (columnsSelected model select)
   | None => None
   end).

(** [SqlHelper._getColumnsToSelect] as a call reaches it: [model] is what
    the argument object has under the key [model], [None] if it has no
    such key. The function reads [model.primaryKeyColumn], or
    [model.columns] when no [select] is given, before anything else, which
    the runtime refuses of [undefined]; nothing is pushed then. *)
Definition _getColumnsToSelectGiven (model : option ModelMetadata)
  (select : option (list string)) : Result string * option (list string) :=
  match model with
  | Some model => _getColumnsToSelect model select
  | None =>
      (Err (TypeError
              match select with
              | Some _ => "Cannot read properties of undefined (reading 'primaryKeyColumn')"
              | None => "Cannot read properties of undefined (reading 'columns')"
              end),
       select)
  end.

(** ** DELETE *)

Record QueryAndParams : Type := {
  query : string;
  params : list Value
}.

(** [SqlHelper.getDeleteQueryAndParams] ([returnRecords] defaults to
    [true] at the call). For the RETURNING clause it calls
    [_getColumnsToSelect] with [{schema, select}]: the argument has no
    [model]. *)
Definition getDeleteQueryAndParams (modelSchemasByGlobalId : gmap string ModelMetadata)
  (schema : ModelMetadata) (where_ : Value) (returnRecords : bool)
  (returnSelect : option (list string)) : Result QueryAndParams :=
  let query := "DELETE FROM " +:+ quoted (tableName schema) in
  match _buildWhereStatement modelSchemasByGlobalId schema where_ [] with
  | Err e => Err e
  | Ok (whereStatement, params) =>
      let query :=
        if truthy whereStatement
        then query +:+ " " +:+ default EmptyString whereStatement else query in
      if returnRecords then
        match fst (_getColumnsToSelectGiven None returnSelect) with
        | Err e => Err e
        | Ok columns => Ok {| query := query +:+ " RETURNING " +:+ columns; params := params |}
        end
      else Ok {| query := query; params := params |}
  end.

(** ** INSERT *)

(** A row to insert: a plain object, as its entries. *)
Definition Entity : Type := list (string * Value).

(** [entity[key] = value] *)
Fixpoint setProperty (key : string) (value : Value) (entity : Entity) : Entity :=
  match entity with
  | [] => [(key, value)]
  | (k, v) :: rest =>
      if String.eqb k key then (k, value) :: rest
      else (k, v) :: setProperty key value rest
  end.

Definition propertyOf (entity : Entity) (key : string) : Value :=
  default VUndefined (lookupEntry key entity).

(** [values]: one row, or an array of rows. *)
Inductive InsertValues : Type :=
| OneEntity (entity : Entity)
| ManyEntities (entities : list Entity).

Definition entitiesToInsertOf (values : InsertValues) : list Entity :=
  match values with
  | OneEntity entity => [entity]
  | ManyEntities entities => entities
  end.

Section Insert.

(** [new Date()] and [JSON.stringify], which the builder calls. *)
Variable now : Z.
Variable JSON_stringify : Value -> string.

Variable repositoriesByModelNameLowered : gmap string ModelMetadata.
Variable model : ModelMetadata.

Definition defaultValueOf (column : Column) : Value :=
  let stamp :=
    if col_createDate column then VDate now
    else if col_updateDate column then VDate now
    else VUndefined in
  match col_defaultsTo column with
  | DefaultProducer produced => produced
  | DefaultValue v => if negb (isUndefined v) then v else stamp
  | NoDefault => stamp
  end.

(** One row of the inner loop of the first pass: the default is assigned
    where the row has no value. *)
Definition withDefault (column : Column) (entity : Entity) : Entity :=
  if negb (isUndefined (defaultValueOf column))
     && isUndefined (propertyOf entity (col_propertyName column))
  then setProperty (col_propertyName column) (defaultValueOf column) entity
  else entity.

(** The inner loop of the first pass, for one column: the rows with the
    default assigned, and whether some row has a value for the column. *)
Fixpoint checkColumn (column : Column) (entities : list Entity)
  : Result (list Entity * bool) :=
  match entities with
  | [] => Ok ([], false)
  | entity :: rest =>
      let entity' := withDefault column entity in
      if isUndefined (propertyOf entity' (col_propertyName column)) then
        if col_required column then
          Err (MissingRequiredField (modelName model) (col_propertyName column))
        else
          match checkColumn column rest with
          | Err e => Err e
          | Ok (rest', includePropertyName) => Ok (entity' :: rest', includePropertyName)
          end
      else
        match checkColumn column rest with
        | Err e => Err e
        | Ok (rest', _) => Ok (entity' :: rest', true)
        end
  end.

(** The first pass: defaults are set and required columns verified; the
    result is the rows and [columnsToInsert]. *)
Fixpoint checkColumns (columns : list Column) (entities : list Entity)
  : Result (list Entity * list Column) :=
  match columns with
  | [] => Ok (entities, [])
  | column :: rest =>
      if negb (truthy (col_collection column)) then
        match checkColumn column entities with
        | Err e => Err e
        | Ok (entities', includePropertyName) =>
            match checkColumns rest entities' with
            | Err e => Err e
            | Ok (entities'', columnsToInsert) =>
                Ok (entities'',
                    if includePropertyName then column :: columnsToInsert
                    else columnsToInsert)
            end
        end
      else checkColumns rest entities
  end.

(** One cell of the VALUES lists. *)
Definition insertValue (column : Column) (entity : Entity) : Builder string :=
  let entityValue := propertyOf entity (col_propertyName column) in
  if isNil entityValue then ret "NULL"
  else
    let isJsonArray := bool_decide (col_type column = Some "json") && isArray entityValue in
    do n <-
      (if truthy (col_model column) && isObject entityValue then
         let relatedModelName := default EmptyString (col_model column) in
         match repositoriesByModelNameLowered !! toLowerCase relatedModelName with
         | None => throw (RelatedModelNotFound relatedModelName)
         | Some relationSchema =>
             match primaryKeyColumn relationSchema with
             | None => throw (RelatedPrimaryKeyNotFound relatedModelName)
             | Some relationPrimaryKeyColumn =>
                 let primaryKeyValue :=
                   getProperty entityValue (col_propertyName relationPrimaryKeyColumn) in
                 if isNil primaryKeyValue then
                   throw (UndefinedPrimaryKeyValue (col_propertyName column) (modelName model))
                 else push primaryKeyValue
             end
         end
       else if isJsonArray then push (VString (JSON_stringify entityValue))
       else push entityValue);
    ret ("$" +:+ decimal n +:+ (if isJsonArray then "::jsonb" else EmptyString)).

(** The cells of one column, one per row. *)
Fixpoint insertValuesOf (column : Column) (entities : list Entity) : Builder (list string) :=
  match entities with
  | [] => ret []
  | entity :: rest =>
      do value <- insertValue column entity;
      do values <- insertValuesOf column rest;
      ret (value :: values)
  end.

(** The second pass, column by column: the column list of the statement
    and, per column, its cells. *)
Fixpoint insertColumns (columnIndex : nat) (columnsToInsert : list Column)
  (entities : list Entity) : Builder (string * list (list string)) :=
  match columnsToInsert with
  | [] => ret (EmptyString, [])
  | column :: rest =>
      do values <- insertValuesOf column entities;
      do more <- insertColumns (S columnIndex) rest entities;
      ret ((if (0 <? columnIndex)%nat then "," else EmptyString)
           +:+ quoted (col_name column) +:+ fst more,
           values :: snd more)
  end.

(** [valueCollections[entityIndex]]: the cells of one row. *)
Definition valueCollection (cells : list (list string)) (entityIndex : nat) : list string :=
  map (fun values => nth entityIndex values EmptyString) cells.

Definition valuesLists (cells : list (list string)) (entityCount : nat) : string :=
  String.concat ","
    (map (fun entityIndex =>
            "(" +:+ String.concat "," (valueCollection cells entityIndex) +:+ ")")
       (seq 0 entityCount)).

(** [SqlHelper.getInsertQueryAndParams] ([returnRecords] defaults to
    [true] at the call). The rows are the caller's objects and the first
    pass assigns to them; the statement is built from the rows as that
    pass leaves them. *)
Definition getInsertQueryAndParams (values : InsertValues) (returnRecords : bool)
  (returnSelect : option (list string)) : Result QueryAndParams :=
  match checkColumns (columns model) (entitiesToInsertOf values) with
  | Err e => Err e
  | Ok (entitiesToInsert, columnsToInsert) =>
      match insertColumns 0 columnsToInsert entitiesToInsert [] with
      | Err e => Err e
      | Ok ((columnList, cells), params) =>
          let query :=
            "INSERT INTO " +:+ quoted (tableName model) +:+ " (" +:+ columnList
            +:+ ") VALUES " +:+ valuesLists cells (length entitiesToInsert) in
          if returnRecords then
            match fst (_getColumnsToSelect model returnSelect) with
            | Err e => Err e
            | Ok columns =>
                Ok {| query := query +:+ " RETURNING " +:+ columns; params := params |}
            end
          else Ok {| query := query; params := params |}
      end
  end.

(** A row with the defaults of all the columns that are not collections
    assigned, in the order of the columns. *)
Definition withDefaults (columns : list Column) (entity : Entity) : Entity :=
  fold_left
    (fun entity column =>
       if negb (truthy (col_collection column)) then withDefault column entity else entity)
    columns entity.

End Insert.

(** ** Reading the placeholders of a statement

    The reader goes through the text once. Inside a quoted identifier
    nothing is a placeholder; elsewhere a dollar sign followed by digits
    is the placeholder with that index. *)

Inductive ReaderState : Type :=
| Outside
| InIdentifier
| InPlaceholder (digits : string).

Definition isDigit (c : ascii) : bool :=
  (48 <=? nat_of_ascii c)%nat && (nat_of_ascii c <=? 57)%nat.

Definition indexOfDigits (digits : string) : nat :=
  match NilEmpty.uint_of_string digits with
  | Some d => Nat.of_uint d
  | None => 0
  end.

(** What is read when the text leaves the state. *)
Definition completed (state : ReaderState) : list nat :=
  match state with
  | InPlaceholder digits =>
      if String.eqb digits EmptyString then [] else [indexOfDigits digits]
  | _ => []
  end.

Definition enter (c : ascii) : ReaderState :=
  if Ascii.eqb c (ascii_of_nat 34) then InIdentifier
  else if Ascii.eqb c (ascii_of_nat 36) then InPlaceholder EmptyString
  else Outside.

Fixpoint readFrom (state : ReaderState) (text : string) : list nat :=
  match text with
  | EmptyString => completed state
  | String c rest =>
      match state with
      | Outside => readFrom (enter c) rest
      | InIdentifier =>
          readFrom (if Ascii.eqb c (ascii_of_nat 34) then Outside else InIdentifier) rest
      | InPlaceholder digits =>
          if isDigit c then readFrom (InPlaceholder (digits +:+ String c EmptyString)) rest
          else completed state ++ readFrom (enter c) rest
      end
  end.

(** The placeholder indices of a statement, in order of appearance. *)
Definition placeholders (sql : string) : list nat := readFrom Outside sql.

(** No double quote in a name. *)
Fixpoint noQuote (name : string) : bool :=
  match name with
  | EmptyString => true
  | String c rest => negb (Ascii.eqb c (ascii_of_nat 34)) && noQuote rest
  end.

(** The column names of a model can be quoted: none contains a double
    quote. *)
Definition quotableColumns (schema : ModelMetadata) : bool :=
  forallb
    (fun '(propertyName, property) =>
       noQuote (default propertyName (orElse (attr_columnName property) (Some propertyName))))
    (attributes schema).

(** ** Sample models, after the repository tests *)

Module Sample.

Definition attribute (columnName type model : option string) (primaryKey : bool) : Attribute :=
  {| attr_columnName := columnName; attr_type := type; attr_model := model;
     attr_primaryKey := primaryKey |}.

Definition column (name propertyName : string) (type model : option string) (required : bool)
  : Column :=
  {| col_name := name; col_propertyName := propertyName; col_type := type;
     col_required := required; col_defaultsTo := NoDefault; col_createDate := false;
     col_updateDate := false; col_model := model; col_collection := None |}.

Definition metadata (name table : string) (cols : list (Column * bool)) : ModelMetadata :=
  {| globalId := name;
     modelName := name;
     tableName := table;
     attributes :=
       map (fun '(c, pk) =>
              (col_propertyName c,
               attribute (Some (col_name c)) (col_type c) (col_model c) pk)) cols;
     columns := map fst cols;
     columnsByPropertyName :=
       list_to_map (map (fun '(c, _) => (col_propertyName c, c)) cols);
     primaryKeyColumn := fst <$> find snd cols |}.

Definition store : ModelMetadata :=
  metadata "store" "stores"
    [(column "id" "id" (Some "integer") None false, true);
     (column "name" "name" (Some "string") None false, false)].

Definition product : ModelMetadata :=
  metadata "product" "products"
    [(column "id" "id" (Some "integer") None false, true);
     (column "name" "name" (Some "string") None true, false);
     (column "sku" "sku" (Some "string") None false, false);
     (column "alias_names" "aliases" (Some "string[]") None false, false);
     (column "store_id" "store" None (Some "store") true, false)].

Definition registry : gmap string ModelMetadata :=
  {[ "store" := store; "product" := product ]}.

End Sample.

(** ** UPDATE *)

Section Update.

(** [new Date()] and [JSON.stringify], which the builder calls. *)
Variable now : Z.
Variable JSON_stringify : Value -> string.

Variable modelSchemasByGlobalId : gmap string ModelMetadata.
Variable schema : ModelMetadata.

(** [schema.autoUpdatedAt], and the names of the properties whose attribute
    has [collection] set: the two things the update builder reads of the
    schema that no other builder does. *)
Variable autoUpdatedAt : bool.
Variable collections : list string.

(** The value of one assignment of the SET list: [NULL], or the
    placeholder of the value it binds. *)
Definition updateValue (propertyName : string) (property : Attribute) (value : Value)
  : Builder string :=
  if isNil value then ret "NULL"
  else
    let isJsonArray := bool_decide (attr_type property = Some "json") && isArray value in
    do n <-
      (if truthy (attr_model property) && isObject value then
         let model := default EmptyString (attr_model property) in
         match modelSchemasByGlobalId !! toLowerCase model with
         | None => throw (RelatedModelNotFound model)
         | Some relationSchema =>
             let relationPrimaryKeyPropertyName := getPrimaryKeyPropertyName relationSchema in
             let primaryKeyValue := getProperty value relationPrimaryKeyPropertyName in
             if isUndefined primaryKeyValue then
               throw (UndefinedPrimaryKeyValue propertyName (globalId schema))
             else push primaryKeyValue
         end
       else if isJsonArray then push (VString (JSON_stringify value))
       else push value);
    ret ("$" +:+ decimal n +:+ (if isJsonArray then "::jsonb" else EmptyString)).

(** The loop over [Object.entries(values)] that builds the SET list. An
    entry whose key is no attribute of the schema, or the attribute of a
    collection, adds nothing. *)
Fixpoint updateAssignments (isFirstProperty : bool) (entries : list (string * Value))
  : Builder string :=
  match entries with
  | [] => ret EmptyString
  | (propertyName, value) :: rest =>
      match lookupAttribute propertyName (attributes schema) with
      | Some property =>
          if negb (bool_decide (propertyName ∈ collections)) then
            do columnName <- lift (_getColumnName schema (Some propertyName));
            do assigned <- updateValue propertyName property value;
            do more <- updateAssignments false rest;
            ret ((if isFirstProperty then EmptyString else ",")
                 +:+ quoted columnName +:+ "=" +:+ assigned +:+ more)
          else updateAssignments isFirstProperty rest
      | None => updateAssignments isFirstProperty rest
      end
  end.

(** [values], after [updatedAt] was set on it if the schema asks for it. *)
Definition stamped (values : Entity) : Entity :=
  if autoUpdatedAt && isUndefined (propertyOf values "updatedAt")
  then setProperty "updatedAt" (VDate now) values
  else values.

(** [SqlHelper.getUpdateQueryAndParams] ([values] defaults to the empty
    object and [returnRecords] to [true] at the call). The where statement
    is compiled onto the params of the SET list. For the RETURNING clause
    the builder calls [_getColumnsToSelect] with [{schema, select}]: the
    argument has no [model]. *)
Definition getUpdateQueryAndParams (where_ : Value) (values : Entity)
  (returnRecords : bool) (returnSelect : option (list string)) : Result QueryAndParams :=
  match updateAssignments true (stamped values) [] with
  | Err e => Err e
  | Ok (assignments, params) =>
      let query := "UPDATE " +:+ quoted (tableName schema) +:+ " SET " +:+ assignments in
      match _buildWhereStatement modelSchemasByGlobalId schema where_ params with
      | Err e => Err e
      | Ok (whereStatement, params) =>
          let query :=
            if truthy whereStatement
            then query +:+ " " +:+ default EmptyString whereStatement else query in
          if returnRecords then
            match fst (_getColumnsToSelectGiven None returnSelect) with
            | Err e => Err e
            | Ok columns =>
                Ok {| query := query +:+ " RETURNING " +:+ columns; params := params |}
            end
          else Ok {| query := query; params := params |}
      end
  end.

End Update.

(** ** ORDER BY *)

(** The direction of a sort: a number or a string. *)
Inductive Order : Type :=
| OrderNumber (n : Z)
| OrderString (s : string).

(** One element of [sorts]: a string of comma-separated sorts, or an object
    of property names and directions. *)
Inductive SortStatement : Type :=
| SortString (s : string)
| SortObject (entries : list (string * Order)).

(** [s.split(separator)] for a separator of one character. *)
Fixpoint split (separator : ascii) (s : string) : list string :=
  match s with
  | EmptyString => [EmptyString]
  | String c rest =>
      if Ascii.eqb c separator then EmptyString :: split separator rest
      else
        match split separator rest with
        | first :: others => String c first :: others
        | [] => [String c EmptyString]
        end
  end.

(** [/desc/i.test(s)] *)
Fixpoint matchesDesc (s : string) : bool :=
  match s with
  | EmptyString => false
  | String _ rest => String.prefix "desc" (toLowerCase s) || matchesDesc rest
  end.

(** [order && (order === -1 || order === '-1' || /desc/i.test(`${order}`))] *)
Definition isDescending (order : Order) : bool :=
  match order with
  | OrderNumber n =>
      negb (Z.eqb n 0)
      && (Z.eqb n (-1) || matchesDesc (NilZero.string_of_int (Z.to_int n)))
  | OrderString s =>
      negb (String.eqb s EmptyString) && (String.eqb s "-1" || matchesDesc s)
  end.

(** The sorts of one string: each comma-separated part names a property,
    up to its first space, and what follows it, the spaces taken out, is
    the direction; a part with no name before its first space is
    dropped. *)
Definition orderPropertiesOfString (sortStatement : string) : list (string * Order) :=
  flat_map
    (fun sort =>
       match split " " sort with
       | propertyName :: parts =>
           if negb (String.eqb propertyName EmptyString)
           then [(propertyName, OrderString (String.concat EmptyString parts))]
           else []
       | [] => []
       end)
    (split "," sortStatement).

Definition orderPropertiesOf (sorts : list SortStatement) : list (string * Order) :=
  flat_map
    (fun sortStatement =>
       match sortStatement with
       | SortString s => orderPropertiesOfString s
       | SortObject entries => entries
       end)
    sorts.

(** [_.some(sorts)]: some element is truthy. *)
Definition someSort (sorts : list SortStatement) : bool :=
  existsb
    (fun sortStatement =>
       match sortStatement with
       | SortString s => negb (String.eqb s EmptyString)
       | SortObject _ => true
       end)
    sorts.

(** The loop that writes the order properties; the comma goes before every
    one but the first. *)
Fixpoint orderEntries (schema : ModelMetadata) (index : nat)
  (orderProperties : list (string * Order)) : Result string :=
  match orderProperties with
  | [] => Ok EmptyString
  | (propertyName, order) :: rest =>
      match _getColumnName schema (Some propertyName) with
      | Err e => Err e
      | Ok columnName =>
          match orderEntries schema (S index) rest with
          | Err e => Err e
          | Ok more =>
              Ok ((if (0 <? index)%nat then "," else EmptyString)
                  +:+ quoted columnName
                  +:+ (if isDescending order then " DESC" else EmptyString)
                  +:+ more)
          end
      end
  end.

(** [SqlHelper._buildOrderStatement]; [sorts] is [None] when it is nil. *)
Definition _buildOrderStatement (schema : ModelMetadata)
  (sorts : option (list SortStatement)) : Result string :=
  match sorts with
  | None => Ok EmptyString
  | Some sorts =>
      if negb (someSort sorts) then Ok EmptyString
      else
        match orderEntries schema 0 (orderPropertiesOf sorts) with
        | Err e => Err e
        | Ok entries => Ok ("ORDER BY " +:+ entries)
        end
  end.

(** ** A second sample model *)

Module Catalog.

(** An item with a json column, an array column, a date column and a
    relation to a model that the registry lacks. *)
Definition item : ModelMetadata :=
  Sample.metadata "item" "items"
    [(Sample.column "id" "id" (Some "integer") None false, true);
     (Sample.column "title" "title" (Some "string") None false, false);
     (Sample.column "price" "price" (Some "float") None false, false);
     (Sample.column "meta" "meta" (Some "json") None false, false);
     (Sample.column "tags" "tags" (Some "array") None false, false);
     (Sample.column "store_id" "store" None (Some "store") false, false);
     (Sample.column "maker_id" "maker" None (Some "Maker") false, false);
     (Sample.column "updated_at" "updatedAt" (Some "datetime") None false, false)].

(** A [JSON.stringify] for the arrays of the examples, which are empty. *)
Definition stringify (value : Value) : string := "[]".

End Catalog.

(** ** Predicates of the statements

    What the theorems below say of the builders is said with these. *)

(** Two candidates for the recursive calls agree below a measure. *)
Definition agreeBelow (bound : nat) (f g : WhereFn) : Prop :=
  forall propertyName comparer isNegated value params,
    measure propertyName comparer value < bound ->
    f propertyName comparer isNegated value params
    = g propertyName comparer isNegated value params.

(** No double quote and no dollar sign. *)
Definition plainChar (c : ascii) : bool :=
  negb (Ascii.eqb c (ascii_of_nat 34)) && negb (Ascii.eqb c (ascii_of_nat 36)).

Fixpoint plain (text : string) : bool :=
  match text with
  | EmptyString => true
  | String c rest => plainChar c && plain rest
  end.

(** Plain text that ends with the dollar sign of a placeholder. *)
Fixpoint opens (text : string) : bool :=
  match text with
  | EmptyString => false
  | String c EmptyString => Ascii.eqb c (ascii_of_nat 36)
  | String c rest => plainChar c && opens rest
  end.

Fixpoint allDigits (text : string) : bool :=
  match text with
  | EmptyString => true
  | String c rest => isDigit c && allDigits rest
  end.

Definition noLeadingDigit (text : string) : bool :=
  match text with
  | EmptyString => true
  | String c _ => negb (isDigit c)
  end.

(** The text [sql] holds the placeholders [n+1 .. n+k] and nothing of it
    runs into the text after it. *)
Definition Fragment (n k : nat) (sql : string) : Prop :=
  forall rest, noLeadingDigit rest = true ->
    placeholders (sql +:+ rest) = seq (S n) k ++ placeholders rest.

(** The clauses of a list hold consecutive runs of placeholders. *)
Fixpoint Chain (n k : nat) (clauses : list string) : Prop :=
  match clauses with
  | [] => k = 0
  | clause :: rest =>
      exists k1 k2, k = k1 + k2 /\ Fragment n k1 clause /\ Chain (n + k1) k2 rest
  end.

(** The result of a builder run on [params]: the array is extended, and
    the text holds one placeholder for each value added, in order. *)
Definition Emits (params : list Value) (r : Result (string * list Value)) : Prop :=
  match r with
  | Ok (sql, params') =>
      exists added,
        params' = params ++ added /\ Fragment (length params) (length added) sql
  | Err _ => True
  end.

Definition EmitsAll (params : list Value) (r : Result (list string * list Value)) : Prop :=
  match r with
  | Ok (clauses, params') =>
      exists added,
        params' = params ++ added /\ Chain (length params) (length added) clauses
  | Err _ => True
  end.

(** The recursive calls keep the invariant. *)
Definition EmitsAlways (rec : WhereFn) : Prop :=
  forall propertyName comparer isNegated value params,
    Emits params (rec propertyName comparer isNegated value params).

(** The errors that the where compiler raises itself. *)
Definition raisedByWhere (e : Error) : bool :=
  match e with
  | UndefinedPrimaryKeyValue _ _ | RelatedPrimaryKeyNotFound _ | MissingRequiredField _ _ =>
      false
  | _ => true
  end.

Definition Raises {A : Type} (r : Result A) : Prop :=
  match r with
  | Ok _ => True
  | Err e => raisedByWhere e = true
  end.

(** The index of a model has a column for the property. *)
Definition known (model : ModelMetadata) (propertyName : string) : bool :=
  match columnsByPropertyName model !! propertyName with
  | Some _ => true
  | None => false
  end.

(** The index of a model has, for each column that is not a collection, a
    column with its physical name under its property name. *)
Definition indexed (model : ModelMetadata) : bool :=
  forallb
    (fun column =>
       truthy (col_collection column)
       || match columnsByPropertyName model !! col_propertyName column with
          | Some column' => String.eqb (col_name column') (col_name column)
          | None => false
          end)
    (columns model).

(** The entry of the projection list for a property: the quoted property
    name, after the quoted column name and AS if that is another name. *)
Definition entryOf (model : ModelMetadata) (propertyName : string) : string :=
  match columnsByPropertyName model !! propertyName with
  | Some column => selectEntry column propertyName
  | None => EmptyString
  end.

(** The operator that holds exactly when the given one does not. *)
Definition complement (operator : string) : string :=
  if String.eqb operator "<" then ">="
  else if String.eqb operator "<=" then ">"
  else if String.eqb operator ">" then "<="
  else if String.eqb operator ">=" then "<"
  else operator.

(** The column of a property of the model. *)
Definition columnOf (propertyName : string) (property : Attribute) : string :=
  default propertyName (orElse (attr_columnName property) (Some propertyName)).

(** A property name that is no key of a negation. *)
Definition properName (propertyName : option string) : bool :=
  match whereCase propertyName with
  | CaseNot => false
  | _ => true
  end.

(** The call did not exhaust the stack. *)
Definition Settled {A : Type} (r : Result A) : Prop :=
  match r with
  | Err RangeError => False
  | _ => True
  end.

(** The body of [_buildWhere] unrolled over any function at the bottom. *)
Fixpoint unrolled (modelSchemasByGlobalId : gmap string ModelMetadata)
  (schema : ModelMetadata) (bottom : WhereFn) (fuel : nat) : WhereFn :=
  match fuel with
  | O => bottom
  | S fuel' =>
      _buildWhereBody modelSchemasByGlobalId schema
        (unrolled modelSchemasByGlobalId schema bottom fuel')
  end.

(** The names of a projection list can be quoted: no property name of it,
    and no column name the index of the model gives for one, contains a
    double quote. *)
Definition quotableSelection (model : ModelMetadata) (selection : list string) : bool :=
  forallb
    (fun propertyName =>
       noQuote propertyName
       && match columnsByPropertyName model !! propertyName with
          | Some column => noQuote (col_name column)
          | None => true
          end)
    selection.

(** The property is assigned by an update: it is an attribute of the
    schema and no collection. *)
Definition assignable (schema : ModelMetadata) (collections : list string)
  (propertyName : string) : bool :=
  match lookupAttribute propertyName (attributes schema) with
  | Some _ => negb (bool_decide (propertyName ∈ collections))
  | None => false
  end.

(** The result of a builder run on [params] as [Emits] has it, and the
    text starts with no digit. *)
Definition EmitsApart (params : list Value) (r : Result (string * list Value)) : Prop :=
  match r with
  | Ok (sql, params') =>
      (exists added,
         params' = params ++ added /\ Fragment (length params) (length added) sql)
      /\ noLeadingDigit sql = true
  | Err _ => True
  end.

(** The builder only adds to [params]: the array it returns starts with
    the one it was given. *)
Definition Grows {A : Type} (params : list Value) (r : Result (A * list Value)) : Prop :=
  match r with
  | Ok (_, params') => exists added, params' = params ++ added
  | Err _ => True
  end.

(** The character does not occur in the text. *)
Fixpoint lacks (c : ascii) (text : string) : bool :=
  match text with
  | EmptyString => true
  | String x rest => negb (Ascii.eqb x c) && lacks c rest
  end.

(** A sort written as text: the property name, then a space and the
    direction if there is one. *)
Definition sortText (sort : string * string) : string :=
  if String.eqb (snd sort) EmptyString then fst sort
  else fst sort +:+ " " +:+ snd sort.

(** A name and a direction that can be written as text: no comma and no
    space in them, and the name is not empty. *)
Definition writable (sort : string * string) : bool :=
  negb (String.eqb (fst sort) EmptyString)
  && lacks " " (fst sort) && lacks "," (fst sort)
  && lacks " " (snd sort) && lacks "," (snd sort).

(** The directions that sort downwards: the number [-1], the string
    ['-1'], and every string in which [desc] occurs, in any case. *)
Definition descends (order : Order) : Prop :=
  match order with
  | OrderNumber n => n = (-1)%Z
  | OrderString s =>
      s = "-1" \/ exists before word after,
                    s = before +:+ word +:+ after /\ toLowerCase word = "desc"
  end.

(** The text [sql] holds the placeholders [indices], in this order, and
    nothing of it runs into the text after it. *)
Definition Holds (indices : list nat) (sql : string) : Prop :=
  forall rest, noLeadingDigit rest = true ->
    placeholders (sql +:+ rest) = indices ++ placeholders rest.

(** The names of an insert into the model can be quoted: the table name,
    the names of the columns, and the names of the projection list that
    [returnSelect] asks for. *)
Definition quotableInsert (model : ModelMetadata) (returnSelect : option (list string))
  : bool :=
  noQuote (tableName model)
  && forallb (fun column => noQuote (col_name column)) (columns model)
  && quotableSelection model (columnsSelected model returnSelect).

(** The placeholders of the VALUES lists, read row after row, for the
    placeholders of the cells given column by column. *)
Definition byRows (cells : list (list (list nat))) (entityCount : nat) : list nat :=
  concat
    (map (fun entityIndex => concat (map (fun column => nth entityIndex column []) cells))
       (seq 0 entityCount)).

(** The value holds [undefined]: it is [undefined], or an element of it
    or the value of an entry of it holds [undefined], at any depth. *)
Fixpoint holdsUndefined (v : Value) : bool :=
  match v with
  | VUndefined => true
  | VArray items =>
      (fix among (l : list Value) : bool :=
         match l with
         | [] => false
         | x :: rest => holdsUndefined x || among rest
         end) items
  | VObject entries =>
      (fix among (l : list (string * Value)) : bool :=
         match l with
         | [] => false
         | (_, x) :: rest => holdsUndefined x || among rest
         end) entries
  | _ => false
  end.

(** An error of the undefined-value class in a result is one that a call
    of [rec] returned, on a value of which [part] holds. *)
Definition FromBelow {A : Type} (rec : WhereFn) (part : Value -> Prop) (r : Result A)
  : Prop :=
  match r with
  | Ok _ => True
  | Err e =>
      errorKind e = UndefinedValueError ->
      exists propertyName comparer isNegated value params,
        rec propertyName comparer isNegated value params = Err e /\ part value
  end.

(** Every character of the string is an ASCII character. *)
Fixpoint isAscii (s : string) : bool :=
  match s with
  | EmptyString => true
  | String c rest => (nat_of_ascii c <? 128)%nat && isAscii rest
  end.

(** * Properties *)

(** ** Strings *)

Lemma append_cons (x : ascii) (a b : string) : String x a +:+ b = String x (a +:+ b).
Proof. reflexivity. Qed.

Lemma append_empty_l (a : string) : EmptyString +:+ a = a.
Proof. reflexivity. Qed.

Lemma append_assoc (a b c : string) : (a +:+ b) +:+ c = a +:+ (b +:+ c).
Proof.
  induction a as [|x a IH]; [reflexivity|].
  rewrite !append_cons. now rewrite IH.
Qed.

Lemma append_empty_r (a : string) : a +:+ EmptyString = a.
Proof.
  induction a as [|x a IH]; [reflexivity|].
  rewrite append_cons. now rewrite IH.
Qed.

(** ** The recursion of [_buildWhere] is well founded *)

Lemma size_pos (v : Value) : 1 <= size v.
Proof. destruct v; simpl; lia. Qed.

Lemma size_item (x : Value) (items : list Value) :
  In x items -> size x + 2 <= size (VArray items).
Proof.
  induction items as [|y items IH]; intros Hin; [destruct Hin|].
  destruct Hin as [->|Hin]; simpl in *; [lia|].
  specialize (IH Hin). lia.
Qed.

Lemma size_entry (k : string) (x : Value) (entries : list (string * Value)) :
  In (k, x) entries -> size x + 1 <= size (VObject entries).
Proof.
  induction entries as [|[k' y] entries IH]; intros Hin; [destruct Hin|].
  destruct Hin as [Heq|Hin]; simpl in *.
  - injection Heq as -> ->. lia.
  - specialize (IH Hin). lia.
Qed.

Lemma lookupEntry_In (key : string) (entries : list (string * Value)) (v : Value) :
  lookupEntry key entries = Some v -> In (key, v) entries.
Proof.
  induction entries as [|[k y] entries IH]; simpl; [discriminate|].
  destruct (String.eqb_spec k key) as [->|Hne].
  - intros [= ->]. now left.
  - intros H. right. now apply IH.
Qed.

Lemma size_getProperty (v : Value) (key : string) :
  isUndefined (getProperty v key) = false -> size (getProperty v key) < size v.
Proof.
  destruct v as [| | | | | |items|entries]; simpl; try discriminate.
  - destruct (String.eqb key "length"); [simpl; lia|].
    destruct (find _ _) as [i|]; [|discriminate].
    intros Hdef.
    destruct (Nat.lt_ge_cases i (length items)) as [Hlt|Hge].
    + pose proof (size_item _ _ (nth_In items VUndefined Hlt)) as Hs.
      simpl in Hs. lia.
    + rewrite nth_overflow in Hdef by assumption. discriminate.
  - destruct (lookupEntry key entries) as [x|] eqn:Hl; [|discriminate].
    intros _. simpl.
    pose proof (size_entry _ _ _ (lookupEntry_In _ _ _ Hl)) as Hs.
    simpl in Hs. lia.
Qed.

Lemma size_characters (s : string) (c : Value) : In c (characters s) -> size c = 1.
Proof.
  induction s as [|x s IH]; simpl; [intros []|].
  intros [<-|Hin]; [reflexivity | now apply IH].
Qed.

Lemma rank_le (key : option string) : rank key <= 2.
Proof. unfold rank. destruct (whereCase key); lia. Qed.

(** Wrapping the strings of an array leaves its size as it is. *)
Lemma size_wrapped (wrap : string -> string) (e : Error) (items values : list Value) :
  mapResult (fun val => match val with
                        | VString s => Ok (VString (wrap s))
                        | _ => Err e
                        end) items = Ok values ->
  size (VArray values) = size (VArray items).
Proof.
  revert values. induction items as [|x items IH]; intros values; simpl.
  - intros [= <-]. reflexivity.
  - destruct x; try discriminate.
    destruct (mapResult _ items) as [ys|] eqn:Hm; [|discriminate].
    intros [= <-]. specialize (IH ys eq_refl). simpl in *. lia.
Qed.

Section BodyAgrees.

Variable modelSchemasByGlobalId : gmap string ModelMetadata.
Variable schema : ModelMetadata.
Variables f g : WhereFn.

Lemma orClausesOf_agree (isNegated : bool) (constraints : list Value) :
  (forall c params, In c constraints ->
     f None None isNegated c params = g None None isNegated c params) ->
  forall params,
    orClausesOf f isNegated constraints params = orClausesOf g isNegated constraints params.
Proof.
  induction constraints as [|c constraints IH]; intros H params; simpl; [reflexivity|].
  unfold bind. rewrite (H c params) by now left.
  destruct (g None None isNegated c params) as [[orClause params']|]; [|reflexivity].
  rewrite IH; [reflexivity|]. intros c' p Hin. apply H. now right.
Qed.

Lemma constraintsOf_agree (propertyName : option string) (isNegated : bool)
  (values : list Value) :
  (forall val params, In val values ->
     f propertyName None isNegated val params = g propertyName None isNegated val params) ->
  forall params,
    constraintsOf f propertyName isNegated values params
    = constraintsOf g propertyName isNegated values params.
Proof.
  induction values as [|val values IH]; intros H params; simpl; [reflexivity|].
  unfold bind. rewrite (H val params) by now left.
  destruct (g propertyName None isNegated val params) as [[constraint params']|];
    [|reflexivity].
  rewrite IH; [reflexivity|]. intros c' p Hin. apply H. now right.
Qed.

Lemma andValuesOf_agree (isNegated : bool) (entries : list (string * Value)) :
  (forall key sub propertyName comparer params, In (key, sub) entries ->
     f propertyName comparer isNegated sub params
     = g propertyName comparer isNegated sub params) ->
  forall propertyName params,
    andValuesOf f propertyName isNegated entries params
    = andValuesOf g propertyName isNegated entries params.
Proof.
  induction entries as [|[key sub] entries IH]; intros H propertyName params; simpl;
    [reflexivity|].
  unfold bind. rewrite (H key sub) by now left.
  match goal with
  | |- context [g ?a ?b ?c ?d ?e] => destruct (g a b c d e) as [[andValue params']|]
  end;
    [|reflexivity].
  rewrite IH; [reflexivity|]. intros k s pn cmp p Hin. apply (H k). now right.
Qed.

End BodyAgrees.

Section WellFounded.

Variable modelSchemasByGlobalId : gmap string ModelMetadata.
Variable schema : ModelMetadata.

Lemma hydratedValue_size (propertyName : option string) (value primaryKeyValue : Value) :
  hydratedValue modelSchemasByGlobalId schema propertyName value = Ok (Some primaryKeyValue) ->
  size primaryKeyValue < size value.
Proof.
  unfold hydratedValue.
  destruct (truthy propertyName); [|discriminate].
  destruct (lookupAttribute _ _) as [modelAttribute|]; [|discriminate].
  destruct (truthy (attr_model modelAttribute) && isObject value); [|discriminate].
  destruct (modelSchemasByGlobalId !! _) as [relationSchema|]; [|discriminate].
  destruct (isUndefined (getProperty value _)) eqn:Hdef; simpl; [discriminate|].
  intros [= <-]. now apply size_getProperty.
Qed.

Lemma patternConstraint_agree (f g : WhereFn) (constraint : string)
  (wrap : string -> string) (propertyName : option string) (isNegated : bool)
  (value : Value) (params : list Value) :
  (forall value' params', size value' = size value ->
     f propertyName (Some "like") isNegated value' params'
     = g propertyName (Some "like") isNegated value' params') ->
  patternConstraint schema f constraint wrap propertyName isNegated value params
  = patternConstraint schema g constraint wrap propertyName isNegated value params.
Proof.
  intros H. destruct value; simpl; try reflexivity.
  - now apply H.
  - unfold bind, lift.
    destruct (mapResult _ items) as [values|] eqn:Hm; [|reflexivity].
    apply H. now apply size_wrapped in Hm.
Qed.

Lemma whereArray_agree (f g : WhereFn) (propertyName comparer : option string)
  (isNegated : bool) (items : list Value) (params : list Value) :
  (forall item params', In item items ->
     f propertyName None isNegated item params'
     = g propertyName None isNegated item params') ->
  whereArray schema f propertyName comparer isNegated items params
  = whereArray schema g propertyName comparer isNegated items params.
Proof.
  intros H. destruct items as [|item items]; [reflexivity|].
  unfold whereArray. set (all := item :: items) in *.
  assert (Hsub : forall (keep : Value -> bool) x, In x (List.filter keep all) -> In x all).
  { intros keep x Hin. now apply filter_In in Hin. }
  unfold bind.
  rewrite (constraintsOf_agree f g propertyName isNegated (List.filter isNull all))
    by (intros; apply H; eapply Hsub; eassumption).
  destruct (constraintsOf g _ _ _ _) as [[nullConstraints params']|]; [|reflexivity].
  specialize (Hsub (fun item => negb (isNull item))).
  destruct (List.filter (fun item => negb (isNull item)) all) as [|a [|b rest]];
    [reflexivity| |].
  - rewrite H by (apply Hsub; now left). reflexivity.
  - unfold lift.
    destruct (_getColumnName schema propertyName); [|reflexivity].
    destruct (isArrayType _); [|reflexivity].
    rewrite (constraintsOf_agree f g) by (intros; apply H; now apply Hsub).
    reflexivity.
Qed.

Lemma whereCase_orElse_None (propertyName : option string) :
  orElse None propertyName = propertyName.
Proof. reflexivity. Qed.

Lemma _buildWhereBody_agree (f g : WhereFn) (propertyName comparer : option string)
  (isNegated : bool) (value : Value) (params : list Value) :
  agreeBelow (measure propertyName comparer value) f g ->
  _buildWhereBody modelSchemasByGlobalId schema f propertyName comparer isNegated value params
  = _buildWhereBody modelSchemasByGlobalId schema g propertyName comparer isNegated value params.
Proof.
  intros H. unfold _buildWhereBody.
  assert (Hrank : forall pn cmp, rank (orElse cmp pn) <= 2) by (intros; apply rank_le).
  destruct (whereCase (orElse comparer propertyName)) eqn:Hcase.
  - destruct (whereCase propertyName) eqn:Hpn; try reflexivity;
      apply H; unfold measure, rank; rewrite whereCase_orElse_None, Hcase, Hpn; lia.
  - unfold _buildOrOperatorStatement, bind, lift.
    destruct (iterate value) as [constraints|] eqn:Hit; [|reflexivity].
    rewrite (orClausesOf_agree f g); [reflexivity|].
    intros c p Hin. apply H. unfold measure, rank. rewrite Hcase. simpl.
    destruct value; simpl in Hit; try discriminate; injection Hit as <-.
    + apply size_characters in Hin. simpl. lia.
    + apply size_item in Hin. lia.
  - apply patternConstraint_agree. intros v' p' Hs. apply H.
    unfold measure, rank. rewrite Hcase, Hs. simpl. lia.
  - apply patternConstraint_agree. intros v' p' Hs. apply H.
    unfold measure, rank. rewrite Hcase, Hs. simpl. lia.
  - apply patternConstraint_agree. intros v' p' Hs. apply H.
    unfold measure, rank. rewrite Hcase, Hs. simpl. lia.
  - reflexivity.
  - unfold whereDefault.
    destruct (isUndefined value); [reflexivity|].
    unfold bind, lift.
    destruct (hydratedValue _ _ _ _) as [[primaryKeyValue|]|] eqn:Hh; [| |reflexivity].
    + apply H. apply hydratedValue_size in Hh. unfold measure. lia.
    + destruct value; try reflexivity.
      * apply whereArray_agree. intros item p Hin. apply H.
        apply size_item in Hin. unfold measure.
        specialize (Hrank propertyName None). lia.
      * rewrite (andValuesOf_agree f g); [reflexivity|].
        intros key sub pn cmp p Hin. apply H.
        apply size_entry in Hin. unfold measure.
        specialize (Hrank pn cmp). lia.
Qed.

(** Unrolling further than the measure changes nothing. *)
Lemma _buildWhereWithin_stable (bound : nat) :
  forall fuel fuel' propertyName comparer isNegated value params,
    measure propertyName comparer value < bound ->
    bound <= fuel -> bound <= fuel' ->
    _buildWhereWithin modelSchemasByGlobalId schema fuel
      propertyName comparer isNegated value params
    = _buildWhereWithin modelSchemasByGlobalId schema fuel'
        propertyName comparer isNegated value params.
Proof.
  induction bound as [|bound IH]; intros fuel fuel' pn cmp neg v ps Hm Hf Hf'; [lia|].
  destruct fuel as [|fuel]; [lia|]. destruct fuel' as [|fuel']; [lia|].
  simpl. apply _buildWhereBody_agree.
  intros pn' cmp' neg' v' ps' Hlt. apply IH; lia.
Qed.

(** The recursive equation of [_buildWhere], as the source has it. *)
Lemma _buildWhere_unfold (propertyName comparer : option string) (isNegated : bool)
  (value : Value) (params : list Value) :
  _buildWhere modelSchemasByGlobalId schema propertyName comparer isNegated value params
  = _buildWhereBody modelSchemasByGlobalId schema
      (_buildWhere modelSchemasByGlobalId schema)
      propertyName comparer isNegated value params.
Proof.
  unfold _buildWhere at 1. simpl.
  apply _buildWhereBody_agree.
  intros pn' cmp' neg' v' ps' Hlt. unfold _buildWhere.
  apply (_buildWhereWithin_stable (S (measure pn' cmp' v'))); lia.
Qed.

(** It is the only function with that equation: the recursion of the
    source defines [_buildWhere]. *)
Lemma _buildWhere_unique (f : WhereFn) :
  (forall propertyName comparer isNegated value params,
     f propertyName comparer isNegated value params
     = _buildWhereBody modelSchemasByGlobalId schema f
         propertyName comparer isNegated value params) ->
  forall propertyName comparer isNegated value params,
    f propertyName comparer isNegated value params
    = _buildWhere modelSchemasByGlobalId schema propertyName comparer isNegated value params.
Proof.
  intros Hf.
  assert (H : forall bound, agreeBelow bound f (_buildWhere modelSchemasByGlobalId schema)).
  { induction bound as [|bound IH]; intros pn cmp neg v ps Hm; [lia|].
    rewrite Hf, _buildWhere_unfold. apply _buildWhereBody_agree.
    intros pn' cmp' neg' v' ps' Hlt. apply IH. lia. }
  intros pn cmp neg v ps. apply (H (S (measure pn cmp v))). lia.
Qed.

End WellFounded.

(** ** Reading the text the builders emit *)

Lemma enter_plain (c : ascii) : plainChar c = true -> enter c = Outside.
Proof.
  unfold plainChar, enter.
  destruct (Ascii.eqb c (ascii_of_nat 34)); [discriminate|].
  destruct (Ascii.eqb c (ascii_of_nat 36)); [discriminate|reflexivity].
Qed.

Lemma read_plain (text rest : string) :
  plain text = true -> readFrom Outside (text +:+ rest) = readFrom Outside rest.
Proof.
  induction text as [|c text IH]; [reflexivity|].
  intros H. rewrite append_cons. simpl in *.
  apply andb_prop in H as [Hc Ht].
  rewrite (enter_plain c Hc). now apply IH.
Qed.

Lemma read_opens (text rest : string) :
  opens text = true ->
  readFrom Outside (text +:+ rest) = readFrom (InPlaceholder EmptyString) rest.
Proof.
  induction text as [|c text IH]; [discriminate|].
  destruct text as [|c' text].
  - intros Hc. rewrite append_cons, append_empty_l. simpl in *.
    unfold enter. rewrite Hc.
    destruct (Ascii.eqb_spec c (ascii_of_nat 34)) as [->|_]; [discriminate|reflexivity].
  - intros H. change (plainChar c && opens (String c' text) = true) in H.
    apply andb_prop in H as [Hc Ht]. rewrite append_cons.
    change (readFrom (enter c) (String c' text +:+ rest)
            = readFrom (InPlaceholder EmptyString) rest).
    rewrite (enter_plain c Hc). now apply IH.
Qed.

Lemma read_identifier (name rest : string) :
  noQuote name = true ->
  readFrom InIdentifier (name +:+ dquote +:+ rest) = readFrom Outside rest.
Proof.
  induction name as [|c name IH].
  - intros _. rewrite append_empty_l. unfold dquote. rewrite append_cons, append_empty_l.
    reflexivity.
  - intros H. rewrite append_cons. simpl in *.
    destruct (Ascii.eqb c (ascii_of_nat 34)); [discriminate|]. now apply IH.
Qed.

Lemma read_quoted (name rest : string) :
  noQuote name = true ->
  readFrom Outside (quoted name +:+ rest) = readFrom Outside rest.
Proof.
  intros Hn. unfold quoted. rewrite !append_assoc.
  unfold dquote at 1. rewrite append_cons, append_empty_l.
  change (readFrom InIdentifier (name +:+ dquote +:+ rest) = readFrom Outside rest).
  now apply read_identifier.
Qed.

Lemma read_digits (digits rest seen : string) :
  allDigits digits = true ->
  readFrom (InPlaceholder seen) (digits +:+ rest)
  = readFrom (InPlaceholder (seen +:+ digits)) rest.
Proof.
  revert seen. induction digits as [|c digits IH]; intros seen.
  - intros _. now rewrite append_empty_l, append_empty_r.
  - intros H. rewrite append_cons. simpl in *.
    apply andb_prop in H as [Hc Hd]. rewrite Hc.
    rewrite IH by assumption. rewrite append_assoc. reflexivity.
Qed.

Lemma allDigits_uint (d : Decimal.uint) : allDigits (NilEmpty.string_of_uint d) = true.
Proof. induction d; simpl; auto. Qed.

Lemma string_of_uint_empty (d : Decimal.uint) :
  NilEmpty.string_of_uint d = EmptyString -> d = Decimal.Nil.
Proof. destruct d; simpl; congruence. Qed.

Lemma decimal_not_empty (n : nat) : String.eqb (decimal n) EmptyString = false.
Proof.
  apply String.eqb_neq. intros H. apply string_of_uint_empty in H.
  pose proof (DecimalNat.Unsigned.to_of (Nat.to_uint n)) as Hn.
  rewrite DecimalNat.Unsigned.of_to in Hn. rewrite H in Hn.
  symmetry in Hn. now apply DecimalFacts.unorm_nonnil in Hn.
Qed.

Lemma indexOfDigits_decimal (n : nat) : indexOfDigits (decimal n) = n.
Proof.
  unfold indexOfDigits, decimal. rewrite NilEmpty.usu.
  apply DecimalNat.Unsigned.of_to.
Qed.

Lemma read_decimal (n : nat) (rest : string) :
  noLeadingDigit rest = true ->
  readFrom (InPlaceholder EmptyString) (decimal n +:+ rest) = n :: readFrom Outside rest.
Proof.
  intros Hr. rewrite read_digits by apply allDigits_uint. rewrite append_empty_l.
  destruct rest as [|c rest]; simpl.
  - now rewrite decimal_not_empty, indexOfDigits_decimal.
  - simpl in Hr. destruct (isDigit c); [discriminate|].
    now rewrite decimal_not_empty, indexOfDigits_decimal.
Qed.

Lemma noLeadingDigit_append (a b : string) :
  noLeadingDigit a = true -> noLeadingDigit b = true -> noLeadingDigit (a +:+ b) = true.
Proof. destruct a; [now rewrite append_empty_l | now rewrite append_cons]. Qed.

Lemma Fragment_empty (n : nat) : Fragment n 0 EmptyString.
Proof. intros rest _. reflexivity. Qed.

Lemma Fragment_append (n k j : nat) (a b : string) :
  Fragment n k a -> Fragment (n + k) j b -> noLeadingDigit b = true ->
  Fragment n (k + j) (a +:+ b).
Proof.
  intros Ha Hb Hd rest Hr. rewrite append_assoc.
  rewrite Ha by now apply noLeadingDigit_append.
  rewrite Hb by assumption.
  rewrite seq_app, <- app_assoc. reflexivity.
Qed.

Lemma Fragment_plain_l (n k : nat) (text sql : string) :
  plain text = true -> Fragment n k sql -> Fragment n k (text +:+ sql).
Proof.
  intros Hp Hs rest Hr. rewrite append_assoc. unfold placeholders.
  rewrite read_plain by assumption. now apply Hs.
Qed.

Lemma Fragment_plain_r (n k : nat) (text sql : string) :
  plain text = true -> noLeadingDigit text = true -> Fragment n k sql ->
  Fragment n k (sql +:+ text).
Proof.
  intros Hp Hd Hs rest Hr. rewrite append_assoc.
  rewrite Hs by now apply noLeadingDigit_append.
  unfold placeholders. now rewrite read_plain.
Qed.

Lemma Fragment_plain (n : nat) (text : string) : plain text = true -> Fragment n 0 text.
Proof.
  intros Hp rest Hr. unfold placeholders. now rewrite read_plain.
Qed.

Lemma Fragment_parenthesized (n k : nat) (sql : string) :
  Fragment n k sql -> Fragment n k ("(" +:+ sql +:+ ")").
Proof.
  intros Hs. apply Fragment_plain_l; [reflexivity|].
  now apply Fragment_plain_r.
Qed.

(** ** What a builder adds: the placeholder invariant *)

Lemma Chain_app (n k1 k2 : nat) (a b : list string) :
  Chain n k1 a -> Chain (n + k1) k2 b -> Chain n (k1 + k2) (a ++ b).
Proof.
  revert n k1. induction a as [|x a IH]; intros n k1; simpl.
  - intros -> Hb. now rewrite Nat.add_0_r in Hb.
  - intros (j1 & j2 & -> & Hx & Ha) Hb.
    exists j1, (j2 + k2). split; [lia|]. split; [assumption|].
    apply IH; [assumption|]. now rewrite <- Nat.add_assoc.
Qed.

Lemma Chain_concat (sep : string) (n k : nat) (clauses : list string) :
  plain sep = true -> (forall s, noLeadingDigit (sep +:+ s) = true) ->
  Chain n k clauses -> Fragment n k (String.concat sep clauses).
Proof.
  intros Hp Hd. revert n k. induction clauses as [|x clauses IH]; intros n k; simpl.
  - intros ->. apply Fragment_empty.
  - intros (k1 & k2 & -> & Hx & Hrest).
    destruct clauses as [|y clauses].
    + simpl in Hrest. subst k2. now rewrite Nat.add_0_r.
    + apply Fragment_append; [assumption| |apply Hd].
      apply Fragment_plain_l; [assumption|]. now apply IH.
Qed.

Lemma Fragment_joinClauses (isNegated : bool) (n k : nat) (clauses : list string) :
  Chain n k clauses -> Fragment n k (joinClauses isNegated clauses).
Proof.
  intros H.
  assert (Hand : Fragment n k (String.concat " AND " clauses))
    by (apply Chain_concat; [reflexivity | intros; reflexivity | assumption]).
  assert (Hor : Fragment n k ("(" +:+ String.concat " OR " clauses +:+ ")")).
  { apply Fragment_parenthesized.
    apply Chain_concat; [reflexivity | intros; reflexivity | assumption]. }
  unfold joinClauses. destruct clauses as [|x [|y clauses]].
  - now destruct isNegated.
  - simpl in H. destruct H as (k1 & k2 & -> & Hx & ->). now rewrite Nat.add_0_r.
  - now destruct isNegated.
Qed.

Lemma noQuote_append (a b : string) :
  noQuote a = true -> noQuote b = true -> noQuote (a +:+ b) = true.
Proof.
  induction a as [|c a IH]; [now rewrite append_empty_l|].
  intros Ha Hb. rewrite append_cons. simpl in *.
  apply andb_prop in Ha as [Hc Ha]. rewrite Hc. now apply IH.
Qed.

Lemma plain_castTypeOf (propertyType : string) : plain (castTypeOf propertyType) = true.
Proof.
  unfold castTypeOf.
  repeat match goal with |- context [if ?b then _ else _] => destruct b end; reflexivity.
Qed.

Lemma noLeadingDigit_castTypeOf (propertyType rest : string) :
  noLeadingDigit (castTypeOf propertyType +:+ rest) = true.
Proof.
  unfold castTypeOf.
  repeat match goal with |- context [if ?b then _ else _] => destruct b end; reflexivity.
Qed.

Section Quotable.

Variable schema : ModelMetadata.
Hypothesis quotable : quotableColumns schema = true.

Lemma lookupAttribute_In (name : string) (attrs : list (string * Attribute)) (a : Attribute) :
  lookupAttribute name attrs = Some a -> In (name, a) attrs.
Proof.
  induction attrs as [|[k b] attrs IH]; simpl; [discriminate|].
  destruct (String.eqb_spec k name) as [->|Hne].
  - intros [= ->]. now left.
  - intros H. right. now apply IH.
Qed.

Lemma _getColumnName_noQuote (propertyName : option string) (columnName : string) :
  _getColumnName schema propertyName = Ok columnName -> noQuote columnName = true.
Proof.
  unfold _getColumnName.
  destruct (negb (truthy propertyName)); [discriminate|].
  destruct (lookupAttribute _ _) as [property|] eqn:Hl; [|discriminate].
  intros [= <-]. apply lookupAttribute_In in Hl.
  unfold quotableColumns in quotable. rewrite forallb_forall in quotable.
  exact (quotable _ Hl).
Qed.

End Quotable.

(** Reads the text of a statement piece by piece. *)
Ltac read_text :=
  repeat first
    [ rewrite append_assoc
    | rewrite append_empty_l
    | rewrite read_quoted by (first [assumption | apply noQuote_append; [reflexivity|assumption]])
    | rewrite read_plain by (first [reflexivity | apply plain_castTypeOf])
    | rewrite read_opens by reflexivity
    | rewrite read_decimal
        by (first [assumption | reflexivity | apply noLeadingDigit_castTypeOf]) ].

(** A statement that added no value, and one that added one. *)
Ltac emits_leaf :=
  cbv beta iota;
  lazymatch goal with
  | |- Emits _ (Err _) => exact I
  | |- Emits ?ps (Ok (_, ?ps)) =>
      exists []; split; [now rewrite app_nil_r|];
      intros rest Hrest; unfold placeholders; read_text; reflexivity
  | |- Emits ?ps (Ok (_, ?ps ++ [?v])) =>
      exists [v]; split; [reflexivity|];
      intros rest Hrest; unfold placeholders;
      rewrite ?length_app, ?Nat.add_1_r; simpl length;
      rewrite ?Nat.add_1_r; read_text; reflexivity
  end.

Section Invariant.

Variable modelSchemasByGlobalId : gmap string ModelMetadata.
Variable schema : ModelMetadata.
Hypothesis quotable : quotableColumns schema = true.

Lemma Emits_comparison (propertyName comparer : option string) (isNegated : bool)
  (value : Value) (params : list Value) :
  Emits params
    (_buildComparisonOperatorStatement schema propertyName comparer isNegated value params).
Proof.
  unfold _buildComparisonOperatorStatement, bind, lift, ret, throw, push.
  destruct (_getColumnName schema propertyName) as [columnName|] eqn:Hc; [|exact I].
  apply (_getColumnName_noQuote schema quotable) in Hc.
  destruct (isNull value); [destruct isNegated; emits_leaf|].
  destruct (lookupAttribute _ _) as [property|]; [|exact I].
  repeat match goal with
         | |- context [bool_decide ?P] => destruct (bool_decide P)
         end;
    cbn [negb andb]; destruct isNegated; emits_leaf.
Qed.

Lemma Emits_likeString (propertyName : option string) (isNegated : bool)
  (value : Value) (params : list Value) :
  Emits params (likeString schema propertyName isNegated value params).
Proof.
  unfold likeString, bind, lift, ret, throw, push.
  destruct value; try exact I.
  destruct (_getColumnName schema propertyName) as [columnName|] eqn:Hc; [|exact I].
  apply (_getColumnName_noQuote schema quotable) in Hc.
  destruct (negb (String.eqb s EmptyString)); [|destruct isNegated; emits_leaf].
  destruct (_ || _); destruct isNegated; emits_leaf.
Qed.

Lemma Emits_like (propertyName : option string) (isNegated : bool)
  (value : Value) (params : list Value) :
  Emits params (_buildLikeOperatorStatement schema propertyName isNegated value params).
Proof.
  unfold _buildLikeOperatorStatement.
  destruct value as [| | | | | |items|]; try apply Emits_likeString.
  destruct items as [|single [|second items]].
  - unfold ret. destruct isNegated; emits_leaf.
  - apply Emits_likeString.
  - unfold bind, lift, ret, throw, push.
    destruct (mapResult lowered _) as [lowerValues|]; [|exact I].
    destruct (_getColumnName schema propertyName) as [columnName|] eqn:Hc; [|exact I].
    apply (_getColumnName_noQuote schema quotable) in Hc.
    destruct (_ || _); destruct isNegated; emits_leaf.
Qed.

Variable rec : WhereFn.
Hypothesis rec_emits : EmitsAlways rec.

Lemma EmitsAll_orClausesOf (isNegated : bool) (constraints : list Value)
  (params : list Value) :
  EmitsAll params (orClausesOf rec isNegated constraints params).
Proof.
  revert params. induction constraints as [|c constraints IH]; intros params; simpl.
  - exists []. split; [now rewrite app_nil_r | reflexivity].
  - unfold bind, ret.
    pose proof (rec_emits None None isNegated c params) as Hc.
    destruct (rec None None isNegated c params) as [[orClause params1]|]; [|exact I].
    destruct Hc as (added1 & -> & Hf).
    specialize (IH (params ++ added1)).
    destruct (orClausesOf rec isNegated constraints _) as [[orClauses params2]|]; [|exact I].
    destruct IH as (added2 & -> & Hchain).
    exists (added1 ++ added2). split; [now rewrite app_assoc|].
    rewrite length_app. simpl. exists (length added1), (length added2).
    split; [reflexivity|]. split; [now apply Fragment_parenthesized|].
    now rewrite length_app in Hchain.
Qed.

Lemma EmitsAll_constraintsOf (propertyName : option string) (isNegated : bool)
  (values : list Value) (params : list Value) :
  EmitsAll params (constraintsOf rec propertyName isNegated values params).
Proof.
  revert params. induction values as [|val values IH]; intros params; simpl.
  - exists []. split; [now rewrite app_nil_r | reflexivity].
  - unfold bind, ret.
    pose proof (rec_emits propertyName None isNegated val params) as Hc.
    destruct (rec propertyName None isNegated val params) as [[constraint params1]|];
      [|exact I].
    destruct Hc as (added1 & -> & Hf).
    specialize (IH (params ++ added1)).
    destruct (constraintsOf rec propertyName isNegated values _)
      as [[constraints params2]|]; [|exact I].
    destruct IH as (added2 & -> & Hchain).
    exists (added1 ++ added2). split; [now rewrite app_assoc|].
    rewrite length_app. simpl. exists (length added1), (length added2).
    split; [reflexivity|]. split; [assumption|].
    now rewrite length_app in Hchain.
Qed.

Lemma EmitsAll_andValuesOf (propertyName : option string) (isNegated : bool)
  (entries : list (string * Value)) (params : list Value) :
  EmitsAll params (andValuesOf rec propertyName isNegated entries params).
Proof.
  revert propertyName params.
  induction entries as [|[key sub] entries IH]; intros propertyName params; simpl.
  - exists []. split; [now rewrite app_nil_r | reflexivity].
  - unfold bind, ret.
    match goal with
    | |- context [rec ?pn ?cmp isNegated sub params] =>
        pose proof (rec_emits pn cmp isNegated sub params) as Hc;
        destruct (rec pn cmp isNegated sub params) as [[andValue params1]|]; [|exact I]
    end.
    destruct Hc as (added1 & -> & Hf).
    match goal with
    | |- context [andValuesOf rec ?pn isNegated entries ?ps] =>
        specialize (IH pn ps);
        destruct (andValuesOf rec pn isNegated entries ps) as [[andValues params2]|];
        [|exact I]
    end.
    destruct IH as (added2 & -> & Hchain).
    exists (added1 ++ added2). split; [now rewrite app_assoc|].
    rewrite length_app. simpl. exists (length added1), (length added2).
    split; [reflexivity|]. split; [assumption|].
    now rewrite length_app in Hchain.
Qed.

Lemma Emits_or (isNegated : bool) (value : Value) (params : list Value) :
  Emits params (_buildOrOperatorStatement rec isNegated value params).
Proof.
  unfold _buildOrOperatorStatement, bind, lift, ret.
  destruct (iterate value) as [constraints|]; [|exact I].
  pose proof (EmitsAll_orClausesOf isNegated constraints params) as H.
  destruct (orClausesOf rec isNegated constraints params) as [[orClauses params']|];
    [|exact I].
  destruct H as (added & -> & Hchain). exists added. split; [reflexivity|].
  now apply Fragment_joinClauses.
Qed.

Lemma Emits_pattern (constraint : string) (wrap : string -> string)
  (propertyName : option string) (isNegated : bool) (value : Value)
  (params : list Value) :
  Emits params (patternConstraint schema rec constraint wrap propertyName isNegated value params).
Proof.
  unfold patternConstraint, bind, lift, throw.
  destruct value; try exact I; [apply rec_emits|].
  destruct (mapResult _ items); [apply rec_emits | exact I].
Qed.

Lemma Emits_whereArray (propertyName comparer : option string) (isNegated : bool)
  (items : list Value) (params : list Value) :
  Emits params (whereArray schema rec propertyName comparer isNegated items params).
Proof.
  destruct items as [|item items].
  - unfold whereArray, bind, lift, ret.
    destruct (isArrayType _); [|destruct isNegated; emits_leaf].
    destruct (_getColumnName schema propertyName) as [columnName|] eqn:Hc; [|exact I].
    apply (_getColumnName_noQuote schema quotable) in Hc.
    destruct isNegated; emits_leaf.
  - unfold whereArray. set (all := item :: items). unfold bind at 1.
    pose proof (EmitsAll_constraintsOf propertyName isNegated (List.filter isNull all) params)
      as Hnull.
    destruct (constraintsOf rec propertyName isNegated (List.filter isNull all) params)
      as [[nullConstraints params1]|]; [|exact I].
    destruct Hnull as (added1 & -> & Hchain1).
    assert (Hvalues :
      forall r, EmitsAll (params ++ added1) r ->
        Emits params
          (match r with
           | Ok (valueConstraints, params2) =>
               ret (joinClauses isNegated (nullConstraints ++ valueConstraints)) params2
           | Err e => Err e
           end)).
    { intros [[valueConstraints params2]|] Hr; [|exact I].
      destruct Hr as (added2 & -> & Hchain2). unfold ret.
      exists (added1 ++ added2). split; [now rewrite app_assoc|].
      apply Fragment_joinClauses. rewrite length_app.
      apply Chain_app; [assumption|]. now rewrite length_app in Hchain2. }
    unfold bind at 1. apply Hvalues.
    destruct (List.filter (fun item => negb (isNull item)) all) as [|a [|b rest]].
    + exists []. split; [now rewrite app_nil_r | reflexivity].
    + unfold bind, ret.
      pose proof (rec_emits propertyName None isNegated a (params ++ added1)) as Ha.
      destruct (rec propertyName None isNegated a (params ++ added1))
        as [[constraint params2]|]; [|exact I].
      destruct Ha as (added2 & -> & Hf). exists added2. split; [reflexivity|].
      exists (length added2), 0. split; [lia|]. split; [assumption | reflexivity].
    + unfold bind, lift.
      destruct (_getColumnName schema propertyName) as [columnName|] eqn:Hc; [|exact I].
      apply (_getColumnName_noQuote schema quotable) in Hc.
      destruct (isArrayType _); [apply EmitsAll_constraintsOf|].
      unfold push, ret. eexists [_]. split; [reflexivity|].
      exists 1, 0. split; [reflexivity|]. split; [|reflexivity].
      intros tail Htail. unfold placeholders.
      rewrite ?length_app, ?Nat.add_1_r; simpl length; rewrite ?Nat.add_1_r.
      destruct isNegated; read_text; reflexivity.
Qed.

Lemma Emits_whereDefault (propertyName comparer : option string) (isNegated : bool)
  (value : Value) (params : list Value) :
  Emits params
    (whereDefault modelSchemasByGlobalId schema rec propertyName comparer isNegated value params).
Proof.
  unfold whereDefault.
  destruct (isUndefined value); [exact I|].
  unfold bind at 1, lift.
  destruct (hydratedValue _ _ _ _) as [[primaryKeyValue|]|]; [apply rec_emits| |exact I].
  destruct value; try apply Emits_comparison.
  - apply Emits_whereArray.
  - unfold bind, ret.
    pose proof (EmitsAll_andValuesOf propertyName isNegated entries params) as H.
    destruct (andValuesOf rec propertyName isNegated entries params)
      as [[andValues params']|]; [|exact I].
    destruct H as (added & -> & Hchain). exists added. split; [reflexivity|].
    apply Chain_concat; [reflexivity | intros; reflexivity | assumption].
Qed.

Lemma Emits_body : EmitsAlways (_buildWhereBody modelSchemasByGlobalId schema rec).
Proof.
  intros propertyName comparer isNegated value params. unfold _buildWhereBody.
  destruct (whereCase (orElse comparer propertyName)).
  - destruct (whereCase propertyName); try apply rec_emits. exact I.
  - apply Emits_or.
  - apply Emits_pattern.
  - apply Emits_pattern.
  - apply Emits_pattern.
  - apply Emits_like.
  - apply Emits_whereDefault.
Qed.

End Invariant.

Lemma Emits_within (modelSchemasByGlobalId : gmap string ModelMetadata)
  (schema : ModelMetadata) (fuel : nat) :
  quotableColumns schema = true ->
  EmitsAlways (_buildWhereWithin modelSchemasByGlobalId schema fuel).
Proof.
  intros Hq. induction fuel as [|fuel IH].
  - intros pn cmp neg v ps. exact I.
  - simpl. now apply Emits_body.
Qed.

Lemma Emits_buildWhere (modelSchemasByGlobalId : gmap string ModelMetadata)
  (schema : ModelMetadata) :
  quotableColumns schema = true ->
  EmitsAlways (_buildWhere modelSchemasByGlobalId schema).
Proof.
  intros Hq pn cmp neg v ps. unfold _buildWhere. now apply Emits_within.
Qed.

Lemma Fragment_placeholders (n k : nat) (sql : string) :
  Fragment n k sql -> placeholders sql = seq (S n) k.
Proof.
  intros H. specialize (H EmptyString eq_refl).
  now rewrite append_empty_r, app_nil_r in H.
Qed.

(** C1. Placeholders follow the params. For a model whose column names can
    be quoted, whatever [_buildWhere] is called with (any nesting of or,
    not and the comparators below it): if it returns a fragment, the
    [params] array has only been extended, and the placeholder indices of
    the fragment, in order of appearance, are the positions of the values
    it added, with no gap and no repetition; the placeholder read at
    place [i] is the index of the [i]-th value added. For the statement
    compiled from a where object with fresh params the indices are
    [1 .. params.length]. *)
Theorem placeholders_follow_params (modelSchemasByGlobalId : gmap string ModelMetadata)
  (schema : ModelMetadata) :
  quotableColumns schema = true ->
  (forall propertyName comparer isNegated value (params : list Value) sql params',
     _buildWhere modelSchemasByGlobalId schema propertyName comparer isNegated value params
     = Ok (sql, params') ->
     exists added : list Value,
       params' = params ++ added
       /\ placeholders sql = seq (S (length params)) (length added)
       /\ forall (i k : nat), placeholders sql !! i = Some k ->
            k = S (length params + i) /\ params' !! (k - 1) = added !! i)
  /\ (forall where_ whereStatement (params' : list Value),
        _buildWhereStatement modelSchemasByGlobalId schema where_ []
        = Ok (Some whereStatement, params') ->
        placeholders whereStatement = seq 1 (length params')).
Proof.
  intros Hq.
  assert (Hfrag : forall pn cmp neg v (ps : list Value) sql ps',
             _buildWhere modelSchemasByGlobalId schema pn cmp neg v ps = Ok (sql, ps') ->
             exists added : list Value,
               ps' = ps ++ added /\ Fragment (length ps) (length added) sql).
  { intros pn cmp neg v ps sql ps' H.
    pose proof (Emits_buildWhere modelSchemasByGlobalId schema Hq pn cmp neg v ps) as He.
    rewrite H in He. exact He. }
  split.
  - intros pn cmp neg v ps sql ps' H.
    destruct (Hfrag _ _ _ _ _ _ _ H) as (added & -> & Hf).
    exists added. split; [reflexivity|].
    rewrite (Fragment_placeholders _ _ _ Hf). split; [reflexivity|].
    intros i k Hik. apply lookup_seq in Hik as [-> Hi]. split; [simpl; lia|].
    replace (S (length ps) + i - 1) with (length ps + i) by lia.
    now rewrite lookup_app_r, Nat.add_comm, Nat.add_sub by lia.
  - intros w ws ps'. unfold _buildWhereStatement.
    destruct (isObject w); [|discriminate].
    destruct (_buildWhere _ _ _ _ _ _ _) as [[sql ps]|] eqn:H; [|discriminate].
    intros [= <- <-].
    destruct (Hfrag _ _ _ _ _ _ _ H) as (added & -> & Hf). simpl in *.
    destruct (negb (String.eqb sql EmptyString)).
    + apply Fragment_placeholders. apply Fragment_plain_l; [reflexivity | assumption].
    + now apply Fragment_placeholders.
Qed.

(** The theorem at the where object of the repository tests,
    [{id: [1, 2], store: 5}]. *)
Lemma placeholders_follow_params_witness :
  exists whereStatement params',
    _buildWhereStatement Sample.registry Sample.product
      (VObject [("id", VArray [VNumber 1; VNumber 2]); ("store", VNumber 5)]) []
    = Ok (Some whereStatement, params')
    /\ placeholders whereStatement = seq 1 (length params').
Proof.
  eexists _, _. split; [vm_compute; reflexivity|].
  apply (proj2 (placeholders_follow_params Sample.registry Sample.product eq_refl)
           (VObject [("id", VArray [VNumber 1; VNumber 2]); ("store", VNumber 5)])).
  vm_compute. reflexivity.
Defined.

(** ** The cases of [_buildWhere], as equations *)

Section Cases.

Variable modelSchemasByGlobalId : gmap string ModelMetadata.
Variable schema : ModelMetadata.

Lemma _buildWhere_not (propertyName comparer : option string) (isNegated : bool)
  (value : Value) (params : list Value) :
  whereCase (orElse comparer propertyName) = CaseNot ->
  whereCase propertyName <> CaseNot ->
  _buildWhere modelSchemasByGlobalId schema propertyName comparer isNegated value params
  = _buildWhere modelSchemasByGlobalId schema propertyName None true value params.
Proof.
  intros Hkey Hpn. rewrite _buildWhere_unfold. unfold _buildWhereBody.
  rewrite Hkey. now destruct (whereCase propertyName).
Qed.

Lemma _buildWhere_or (propertyName comparer : option string) (isNegated : bool)
  (value : Value) (params : list Value) :
  whereCase (orElse comparer propertyName) = CaseOr ->
  _buildWhere modelSchemasByGlobalId schema propertyName comparer isNegated value params
  = _buildOrOperatorStatement (_buildWhere modelSchemasByGlobalId schema) isNegated value params.
Proof.
  intros Hkey. rewrite _buildWhere_unfold. unfold _buildWhereBody. now rewrite Hkey.
Qed.

Lemma _buildWhere_like (propertyName comparer : option string) (isNegated : bool)
  (value : Value) (params : list Value) :
  whereCase (orElse comparer propertyName) = CaseLike ->
  _buildWhere modelSchemasByGlobalId schema propertyName comparer isNegated value params
  = _buildLikeOperatorStatement schema propertyName isNegated value params.
Proof.
  intros Hkey. rewrite _buildWhere_unfold. unfold _buildWhereBody. now rewrite Hkey.
Qed.

Lemma _buildWhere_default (propertyName comparer : option string) (isNegated : bool)
  (value : Value) (params : list Value) :
  whereCase (orElse comparer propertyName) = CaseDefault ->
  _buildWhere modelSchemasByGlobalId schema propertyName comparer isNegated value params
  = whereDefault modelSchemasByGlobalId schema
      (_buildWhere modelSchemasByGlobalId schema)
      propertyName comparer isNegated value params.
Proof.
  intros Hkey. rewrite _buildWhere_unfold. unfold _buildWhereBody. now rewrite Hkey.
Qed.

(** A key that is no comparer goes to the default case. *)
Lemma whereCase_property (key : string) :
  _isComparer key = false -> whereCase (Some key) = CaseDefault.
Proof.
  unfold _isComparer, whereCase. intros H.
  repeat (apply orb_false_elim in H as [H ?]).
  repeat match goal with Heq : String.eqb _ _ = false |- _ => rewrite Heq; clear Heq end.
  reflexivity.
Qed.

Lemma whereDefault_object (rec : WhereFn) (propertyName comparer : option string)
  (isNegated : bool) (entries : list (string * Value)) (params : list Value) :
  hydratedValue modelSchemasByGlobalId schema propertyName (VObject entries) = Ok None ->
  whereDefault modelSchemasByGlobalId schema rec propertyName comparer isNegated
    (VObject entries) params
  = (do andValues <- andValuesOf rec propertyName isNegated entries;
     ret (String.concat " AND " andValues))%builder params.
Proof.
  intros H. unfold whereDefault. cbn [isUndefined]. unfold bind at 1.
  rewrite H. reflexivity.
Qed.

Lemma whereDefault_array (rec : WhereFn) (propertyName comparer : option string)
  (isNegated : bool) (items : list Value) (params : list Value) :
  hydratedValue modelSchemasByGlobalId schema propertyName (VArray items) = Ok None ->
  whereDefault modelSchemasByGlobalId schema rec propertyName comparer isNegated
    (VArray items) params
  = whereArray schema rec propertyName comparer isNegated items params.
Proof.
  intros H. unfold whereDefault. cbn [isUndefined]. unfold bind at 1.
  rewrite H. reflexivity.
Qed.

(** Without a property name nothing is taken for a hydrated value. *)
Lemma hydratedValue_None (value : Value) :
  hydratedValue modelSchemasByGlobalId schema None value = Ok None.
Proof. reflexivity. Qed.

End Cases.

(** ** The or comparer *)

(** C2. De Morgan for a negated or. A not (or !) node over [{or: [A, B]}]
    compiles to the AND-join of the two negated terms, each compiled by
    its own call in order on the shared params and each in its
    parentheses: the text and the params are those of compiling not(A),
    then not(B), joined with AND. Without negation the two terms are
    joined with OR and the join is parenthesized. The node may follow a
    property key, as long as the object is not taken for a hydrated
    relation value of that property. *)
Theorem negated_or_is_and_of_negations
  (modelSchemasByGlobalId : gmap string ModelMetadata) (schema : ModelMetadata)
  (propertyName : option string) (notKey : string) (isNegated : bool)
  (A B : Value) (params : list Value) :
  notKey = "not" \/ notKey = "!" ->
  whereCase propertyName = CaseDefault ->
  hydratedValue modelSchemasByGlobalId schema propertyName
    (VObject [("or", VArray [A; B])]) = Ok None ->
  _buildWhere modelSchemasByGlobalId schema propertyName (Some notKey) isNegated
    (VObject [("or", VArray [A; B])]) params
  = (do a <- _buildWhere modelSchemasByGlobalId schema None (Some notKey) isNegated A;
     do b <- _buildWhere modelSchemasByGlobalId schema None (Some notKey) isNegated B;
     ret (String.concat " AND " ["(" +:+ a +:+ ")"; "(" +:+ b +:+ ")"]))%builder params
  /\ _buildWhere modelSchemasByGlobalId schema propertyName (Some "or") false
       (VArray [A; B]) params
     = (do a <- _buildWhere modelSchemasByGlobalId schema None None false A;
        do b <- _buildWhere modelSchemasByGlobalId schema None None false B;
        ret ("(" +:+ String.concat " OR " ["(" +:+ a +:+ ")"; "(" +:+ b +:+ ")"] +:+ ")"))%builder
         params.
Proof.
  intros Hnot Hpn Hhydrated.
  assert (Hkey : forall pn, whereCase (orElse (Some notKey) pn) = CaseNot)
    by (intros pn; destruct Hnot as [-> | ->]; reflexivity).
  assert (Hor : forall pn neg ps,
             _buildWhere modelSchemasByGlobalId schema pn (Some "or") neg (VArray [A; B]) ps
             = (do a <- _buildWhere modelSchemasByGlobalId schema None None neg A;
                do b <- _buildWhere modelSchemasByGlobalId schema None None neg B;
                ret (joinClauses neg ["(" +:+ a +:+ ")"; "(" +:+ b +:+ ")"]))%builder ps).
  { intros pn neg ps. rewrite _buildWhere_or by reflexivity.
    unfold _buildOrOperatorStatement, bind, lift, ret. simpl. unfold bind, ret.
    destruct (_buildWhere _ _ None None neg A ps) as [[a ps1]|]; [|reflexivity].
    destruct (_buildWhere _ _ None None neg B ps1) as [[b ps2]|]; reflexivity. }
  split; [|apply Hor].
  rewrite _buildWhere_not by (rewrite ?Hkey, ?Hpn; congruence).
  rewrite _buildWhere_default by exact Hpn.
  rewrite whereDefault_object by exact Hhydrated.
  cbn [andValuesOf _isComparer String.eqb Ascii.eqb Bool.eqb orb]. unfold bind at 1 2.
  rewrite Hor. unfold bind, ret.
  rewrite !(_buildWhere_not _ _ None (Some notKey)) by (rewrite ?Hkey; simpl; congruence).
  destruct (_buildWhere _ _ None None true A params) as [[a ps1]|]; [|reflexivity].
  rewrite !(_buildWhere_not _ _ None (Some notKey)) by (rewrite ?Hkey; simpl; congruence).
  destruct (_buildWhere _ _ None None true B ps1) as [[b ps2]|]; reflexivity.
Qed.

(** The theorem at the node [{not: {or: [{name: 'a'}, {sku: 'b'}]}}] of a
    where object. *)
Lemma negated_or_is_and_of_negations_witness :
  _buildWhere Sample.registry Sample.product None (Some "not") false
    (VObject [("or", VArray [VObject [("name", VString "a")];
                             VObject [("sku", VString "b")]])]) []
  = Ok (String.concat " AND "
          ["(" +:+ quoted "name" +:+ "<>$1" +:+ ")"; "(" +:+ quoted "sku" +:+ "<>$2" +:+ ")"],
        [VString "a"; VString "b"]).
Proof.
  rewrite (proj1 (negated_or_is_and_of_negations Sample.registry Sample.product None "not"
                    false (VObject [("name", VString "a")]) (VObject [("sku", VString "b")])
                    [] (or_introl eq_refl) eq_refl eq_refl)).
  vm_compute. reflexivity.
Defined.

(** C8, as the code has it. An or over the one-element array [[A]] is the
    compilation of A, with no property name and no comparer in scope, the
    same negation flag and the same params, inside the one pair of
    parentheses that the or handler puts around every clause; no join and
    no parentheses around the whole are added. *)
Theorem or_of_one_is_the_clause
  (modelSchemasByGlobalId : gmap string ModelMetadata) (schema : ModelMetadata)
  (propertyName : option string) (isNegated : bool) (A : Value) (params : list Value) :
  _buildWhere modelSchemasByGlobalId schema propertyName (Some "or") isNegated
    (VArray [A]) params
  = (do a <- _buildWhere modelSchemasByGlobalId schema None None isNegated A;
     ret ("(" +:+ a +:+ ")"))%builder params.
Proof.
  rewrite _buildWhere_or by reflexivity.
  unfold _buildOrOperatorStatement, bind, lift, ret. simpl. unfold bind, ret.
  destruct (_buildWhere _ _ None None isNegated A params) as [[a ps1]|]; reflexivity.
Qed.

(** C8 as stated fails: [{or: [{name: 'x'}]}] compiles to the clause in
    parentheses, which is not what [{name: 'x'}] compiles to. *)
Lemma or_of_one_is_parenthesized :
  _buildWhere Sample.registry Sample.product None (Some "or") false
    (VArray [VObject [("name", VString "x")]]) []
  = Ok ("(" +:+ quoted "name" +:+ "=$1" +:+ ")", [VString "x"])
  /\ _buildWhere Sample.registry Sample.product None None false
       (VObject [("name", VString "x")]) []
     = Ok (quoted "name" +:+ "=$1", [VString "x"])
  /\ _buildWhere Sample.registry Sample.product None (Some "or") false
       (VArray [VObject [("name", VString "x")]]) []
     <> _buildWhere Sample.registry Sample.product None None false
          (VObject [("name", VString "x")]) [].
Proof.
  split; [vm_compute; reflexivity|]. split; [vm_compute; reflexivity|].
  vm_compute. discriminate.
Qed.

(** The column of a property the model has. *)
Lemma _getColumnName_found (schema : ModelMetadata) (propertyName : string)
  (property : Attribute) :
  propertyName <> EmptyString ->
  lookupAttribute propertyName (attributes schema) = Some property ->
  _getColumnName schema (Some propertyName)
  = Ok (default propertyName (orElse (attr_columnName property) (Some propertyName))).
Proof.
  intros Hne Hattr. unfold _getColumnName.
  assert (Htruthy : truthy (Some propertyName) = true).
  { simpl. apply negb_true_iff. now apply String.eqb_neq. }
  rewrite Htruthy. simpl. now rewrite Hattr.
Qed.

Lemma arrayAttributeOf_found (schema : ModelMetadata) (propertyName : string)
  (comparer : option string) (property : Attribute) :
  propertyName <> EmptyString ->
  lookupAttribute propertyName (attributes schema) = Some property ->
  arrayAttributeOf schema (Some propertyName) comparer = Some property.
Proof.
  intros Hne Hattr. unfold arrayAttributeOf.
  assert (Htruthy : truthy (Some propertyName) = true).
  { simpl. apply negb_true_iff. now apply String.eqb_neq. }
  rewrite Htruthy. simpl. now rewrite Hattr.
Qed.

(** ** Empty arrays *)

(** C3. A property whose value is the empty array, reached with no
    comparer (or under a not): for a column of an array type the fragment
    is the column compared with the empty-array literal, [=] or, negated,
    [<>]; for any other column it is [1<>1] or, negated, [1=1]. No value
    is added to params. The property is a key of the model that is no
    comparer, and the empty array is not taken for a hydrated relation
    value (which a column without relation never is). *)
Theorem empty_array_compiles_to_literal
  (modelSchemasByGlobalId : gmap string ModelMetadata) (schema : ModelMetadata)
  (propertyName : string) (property : Attribute) (isNegated : bool)
  (params : list Value) :
  propertyName <> EmptyString ->
  _isComparer propertyName = false ->
  lookupAttribute propertyName (attributes schema) = Some property ->
  hydratedValue modelSchemasByGlobalId schema (Some propertyName) (VArray []) = Ok None ->
  let columnName :=
    default propertyName (orElse (attr_columnName property) (Some propertyName)) in
  let expected (negated : bool) :=
    if isArrayType (loweredType (Some property))
    then quoted columnName +:+ (if negated then "<>" else "=") +:+ "'{}'"
    else if negated then "1=1" else "1<>1" in
  _buildWhere modelSchemasByGlobalId schema (Some propertyName) None isNegated
    (VArray []) params
  = Ok (expected isNegated, params)
  /\ _buildWhere modelSchemasByGlobalId schema (Some propertyName) (Some "!") isNegated
       (VArray []) params
     = Ok (expected true, params)
  /\ _buildWhere modelSchemasByGlobalId schema (Some propertyName) (Some "not") isNegated
       (VArray []) params
     = Ok (expected true, params).
Proof.
  intros Hne Hkey Hattr Hhydrated columnName expected.
  assert (Hcase : whereCase (Some propertyName) = CaseDefault)
    by now apply whereCase_property.
  assert (Hplain : forall neg,
             _buildWhere modelSchemasByGlobalId schema (Some propertyName) None neg
               (VArray []) params = Ok (expected neg, params)).
  { intros neg. rewrite _buildWhere_default by exact Hcase.
    rewrite whereDefault_array by exact Hhydrated.
    unfold whereArray. rewrite (arrayAttributeOf_found _ _ _ _ Hne Hattr).
    subst expected. cbv beta.
    destruct (isArrayType (loweredType (Some property))); [|reflexivity].
    unfold bind, lift, ret. now rewrite (_getColumnName_found _ _ _ Hne Hattr). }
  split; [apply Hplain|].
  assert (Hnot : whereCase (Some propertyName) <> CaseNot) by (rewrite Hcase; discriminate).
  split; (rewrite _buildWhere_not; [apply Hplain | reflexivity | exact Hnot]).
Qed.

(** The theorem at [{aliases: []}] (a [string[]] column named
    [alias_names]) and at [{name: []}] (a [string] column). *)
Lemma empty_array_compiles_to_literal_witness :
  _buildWhere Sample.registry Sample.product (Some "aliases") None false (VArray []) []
  = Ok (quoted "alias_names" +:+ "=" +:+ "'{}'", [])
  /\ _buildWhere Sample.registry Sample.product (Some "name") None false (VArray []) []
     = Ok ("1<>1", []).
Proof.
  split.
  - refine (proj1 (empty_array_compiles_to_literal Sample.registry Sample.product
                     "aliases" _ false [] _ eq_refl eq_refl eq_refl)).
    discriminate.
  - refine (proj1 (empty_array_compiles_to_literal Sample.registry Sample.product
                     "name" _ false [] _ eq_refl eq_refl eq_refl)).
    discriminate.
Defined.

(** ** The and key *)

(** C9. The classifier takes [and] for a comparer, the switch of
    [_buildWhere] has no case for it: a value under the comparer [and] is
    compiled by the default case, and an array by its array branch (unless
    it is taken for a hydrated relation value), where [and] only serves to
    look an attribute up when the property name gives none. The array is
    not compiled as the AND-join of its entries: with no property name in
    scope, two entries that are not null end in the error of a missing
    property name, whatever they are. *)
Theorem and_is_compiled_by_the_default_case
  (modelSchemasByGlobalId : gmap string ModelMetadata) (schema : ModelMetadata) :
  _isComparer "and" = true
  /\ (forall propertyName, whereCase (orElse (Some "and") propertyName) = CaseDefault)
  /\ (forall propertyName isNegated value params,
        _buildWhere modelSchemasByGlobalId schema propertyName (Some "and") isNegated
          value params
        = whereDefault modelSchemasByGlobalId schema
            (_buildWhere modelSchemasByGlobalId schema)
            propertyName (Some "and") isNegated value params)
  /\ (forall propertyName isNegated items params,
        hydratedValue modelSchemasByGlobalId schema propertyName (VArray items) = Ok None ->
        _buildWhere modelSchemasByGlobalId schema propertyName (Some "and") isNegated
          (VArray items) params
        = whereArray schema (_buildWhere modelSchemasByGlobalId schema)
            propertyName (Some "and") isNegated items params)
  /\ arrayAttributeOf schema None (Some "and") = lookupAttribute "and" (attributes schema)
  /\ (forall isNegated A B params,
        isNull A = false -> isNull B = false ->
        _buildWhere modelSchemasByGlobalId schema None (Some "and") isNegated
          (VArray [A; B]) params
        = Err PropertyNameNotDefined).
Proof.
  split; [reflexivity|]. split; [reflexivity|].
  split; [intros; now apply _buildWhere_default|].
  split.
  { intros pn neg items ps Hh. rewrite _buildWhere_default by reflexivity.
    now apply whereDefault_array. }
  split; [reflexivity|].
  intros neg A B ps HA HB. rewrite _buildWhere_default by reflexivity.
  rewrite whereDefault_array by apply hydratedValue_None.
  unfold whereArray. cbn [List.filter]. rewrite HA, HB. reflexivity.
Qed.

(** The theorem at the where object [{and: [{name: 'a'}, {sku: 'b'}]}]. *)
Lemma and_is_compiled_by_the_default_case_witness :
  _buildWhere Sample.registry Sample.product None (Some "and") false
    (VArray [VObject [("name", VString "a")]; VObject [("sku", VString "b")]]) []
  = Err PropertyNameNotDefined.
Proof.
  apply (and_is_compiled_by_the_default_case Sample.registry Sample.product);
    reflexivity.
Defined.

(** ** Undefined values *)

Section RaisedByWhere.

Variable modelSchemasByGlobalId : gmap string ModelMetadata.
Variable schema : ModelMetadata.
Variable rec : WhereFn.
Hypothesis rec_raises :
  forall propertyName comparer isNegated value params,
    Raises (rec propertyName comparer isNegated value params).

Lemma Raises_mapResult {A B : Type} (f : A -> Result B) (items : list A) :
  (forall x, Raises (f x)) -> Raises (mapResult f items).
Proof.
  intros Hf. induction items as [|x items IH]; simpl; [exact I|].
  specialize (Hf x). destruct (f x); [|exact Hf].
  destruct (mapResult f items); [exact I | exact IH].
Qed.

Lemma Raises_getColumnName (propertyName : option string) :
  Raises (_getColumnName schema propertyName).
Proof.
  unfold _getColumnName.
  destruct (negb (truthy propertyName)); [reflexivity|].
  destruct (lookupAttribute _ _); [exact I | reflexivity].
Qed.

Lemma Raises_comparison (propertyName comparer : option string) (isNegated : bool)
  (value : Value) (params : list Value) :
  Raises (_buildComparisonOperatorStatement schema propertyName comparer isNegated value params).
Proof.
  unfold _buildComparisonOperatorStatement, bind, lift, ret, throw, push.
  pose proof (Raises_getColumnName propertyName) as Hc.
  destruct (_getColumnName schema propertyName); [|exact Hc].
  destruct (isNull value); [exact I|].
  destruct (lookupAttribute _ _); [|reflexivity].
  repeat match goal with
         | |- context [bool_decide ?P] => destruct (bool_decide P)
         end;
    cbn [negb andb]; cbv beta iota; first [exact I | reflexivity].
Qed.

Lemma Raises_likeString (propertyName : option string) (isNegated : bool)
  (value : Value) (params : list Value) :
  Raises (likeString schema propertyName isNegated value params).
Proof.
  unfold likeString, bind, lift, ret, throw, push.
  destruct value; try reflexivity.
  pose proof (Raises_getColumnName propertyName) as Hc.
  destruct (_getColumnName schema propertyName); [|exact Hc].
  destruct (negb _); [|exact I]. destruct (_ || _); exact I.
Qed.

Lemma Raises_like (propertyName : option string) (isNegated : bool)
  (value : Value) (params : list Value) :
  Raises (_buildLikeOperatorStatement schema propertyName isNegated value params).
Proof.
  unfold _buildLikeOperatorStatement.
  destruct value as [| | | | | |items|]; try apply Raises_likeString.
  destruct items as [|single [|second items]]; [exact I | apply Raises_likeString |].
  unfold bind, lift, ret, push.
  pose proof (Raises_mapResult lowered (single :: second :: items)) as Hm.
  destruct (mapResult lowered _); [|apply Hm; intros []; simpl; auto].
  pose proof (Raises_getColumnName propertyName) as Hc.
  destruct (_getColumnName schema propertyName); [|exact Hc].
  destruct (_ || _); exact I.
Qed.

Lemma Raises_orClausesOf (isNegated : bool) (constraints : list Value) (params : list Value) :
  Raises (orClausesOf rec isNegated constraints params).
Proof.
  revert params. induction constraints as [|c constraints IH]; intros params; simpl;
    [exact I|].
  unfold bind, ret. pose proof (rec_raises None None isNegated c params) as Hc.
  destruct (rec None None isNegated c params) as [[orClause params1]|]; [|exact Hc].
  specialize (IH params1).
  destruct (orClausesOf rec isNegated constraints params1) as [[? ?]|]; [exact I | exact IH].
Qed.

Lemma Raises_constraintsOf (propertyName : option string) (isNegated : bool)
  (values : list Value) (params : list Value) :
  Raises (constraintsOf rec propertyName isNegated values params).
Proof.
  revert params. induction values as [|val values IH]; intros params; simpl; [exact I|].
  unfold bind, ret. pose proof (rec_raises propertyName None isNegated val params) as Hc.
  destruct (rec propertyName None isNegated val params) as [[constraint params1]|];
    [|exact Hc].
  specialize (IH params1).
  destruct (constraintsOf rec propertyName isNegated values params1) as [[? ?]|];
    [exact I | exact IH].
Qed.

Lemma Raises_andValuesOf (propertyName : option string) (isNegated : bool)
  (entries : list (string * Value)) (params : list Value) :
  Raises (andValuesOf rec propertyName isNegated entries params).
Proof.
  revert propertyName params.
  induction entries as [|[key sub] entries IH]; intros propertyName params; simpl;
    [exact I|].
  unfold bind, ret.
  match goal with
  | |- context [rec ?pn ?cmp isNegated sub params] =>
      pose proof (rec_raises pn cmp isNegated sub params) as Hc;
      destruct (rec pn cmp isNegated sub params) as [[andValue params1]|]; [|exact Hc]
  end.
  match goal with
  | |- context [andValuesOf rec ?pn isNegated entries ?ps] =>
      specialize (IH pn ps);
      destruct (andValuesOf rec pn isNegated entries ps) as [[? ?]|]; [exact I | exact IH]
  end.
Qed.

Lemma Raises_whereArray (propertyName comparer : option string) (isNegated : bool)
  (items : list Value) (params : list Value) :
  Raises (whereArray schema rec propertyName comparer isNegated items params).
Proof.
  pose proof (Raises_getColumnName propertyName) as Hc.
  destruct items as [|item items].
  - unfold whereArray, bind, lift, ret. destruct (isArrayType _); [|exact I].
    destruct (_getColumnName schema propertyName); [exact I | exact Hc].
  - unfold whereArray. set (all := item :: items). unfold bind at 1.
    pose proof (Raises_constraintsOf propertyName isNegated (List.filter isNull all) params)
      as Hnull.
    destruct (constraintsOf rec propertyName isNegated (List.filter isNull all) params)
      as [[nullConstraints params1]|]; [|exact Hnull].
    unfold bind at 1.
    destruct (List.filter (fun item => negb (isNull item)) all) as [|a [|b rest]].
    + exact I.
    + unfold bind, ret. pose proof (rec_raises propertyName None isNegated a params1) as Ha.
      destruct (rec propertyName None isNegated a params1) as [[? ?]|]; [exact I | exact Ha].
    + unfold bind at 1, lift.
      destruct (_getColumnName schema propertyName); [|exact Hc].
      destruct (isArrayType _).
      * pose proof (Raises_constraintsOf propertyName isNegated (a :: b :: rest) params1)
          as Hv.
        destruct (constraintsOf rec propertyName isNegated (a :: b :: rest) params1)
          as [[? ?]|]; [exact I | exact Hv].
      * exact I.
Qed.

Lemma Raises_body (propertyName comparer : option string) (isNegated : bool)
  (value : Value) (params : list Value) :
  Raises (_buildWhereBody modelSchemasByGlobalId schema rec
            propertyName comparer isNegated value params).
Proof.
  assert (Hpattern : forall constraint wrap,
             Raises (patternConstraint schema rec constraint wrap
                       propertyName isNegated value params)).
  { intros constraint wrap. unfold patternConstraint, bind, lift, throw.
    destruct value; try reflexivity; [apply rec_raises|].
    match goal with
    | |- context [mapResult ?f items] =>
        pose proof (Raises_mapResult f items) as Hm; destruct (mapResult f items)
    end; [apply rec_raises|]. apply Hm. intros []; reflexivity. }
  unfold _buildWhereBody. destruct (whereCase (orElse comparer propertyName)).
  - destruct (whereCase propertyName); first [apply rec_raises | reflexivity].
  - unfold _buildOrOperatorStatement, bind, lift, ret.
    destruct (iterate value) as [constraints|] eqn:Hit.
    + pose proof (Raises_orClausesOf isNegated constraints params) as Ho.
      destruct (orClausesOf rec isNegated constraints params) as [[? ?]|];
        [exact I | exact Ho].
    + destruct value; simpl in Hit; inversion Hit; reflexivity.
  - apply Hpattern.
  - apply Hpattern.
  - apply Hpattern.
  - apply Raises_like.
  - unfold whereDefault. destruct (isUndefined value); [reflexivity|].
    unfold bind at 1, lift.
    destruct (hydratedValue _ _ _ _) as [[primaryKeyValue|]|] eqn:Hh.
    + apply rec_raises.
    + destruct value; try apply Raises_comparison; [apply Raises_whereArray|].
      unfold bind, ret.
      pose proof (Raises_andValuesOf propertyName isNegated entries params) as Ha.
      destruct (andValuesOf rec propertyName isNegated entries params) as [[? ?]|];
        [exact I | exact Ha].
    + unfold hydratedValue in Hh.
      repeat match type of Hh with
             | context [if ?b then _ else _] => destruct b
             | context [match ?x with _ => _ end] => destruct x
             end; inversion Hh; reflexivity.
Qed.

End RaisedByWhere.

Lemma Raises_buildWhere (modelSchemasByGlobalId : gmap string ModelMetadata)
  (schema : ModelMetadata) (propertyName comparer : option string) (isNegated : bool)
  (value : Value) (params : list Value) :
  Raises (_buildWhere modelSchemasByGlobalId schema propertyName comparer isNegated value params).
Proof.
  unfold _buildWhere. generalize (S (measure propertyName comparer value)) as fuel.
  intros fuel. revert propertyName comparer isNegated value params.
  induction fuel as [|fuel IH]; intros pn cmp neg v ps; [reflexivity|].
  simpl. now apply Raises_body.
Qed.

(** Only an object can be a hydrated value. *)
Lemma hydratedValue_not_object (modelSchemasByGlobalId : gmap string ModelMetadata)
  (schema : ModelMetadata) (propertyName : option string) (value : Value) :
  isObject value = false ->
  hydratedValue modelSchemasByGlobalId schema propertyName value = Ok None.
Proof.
  intros H. unfold hydratedValue.
  destruct (truthy propertyName); [|reflexivity].
  destruct (lookupAttribute _ _); [|reflexivity].
  now rewrite H, andb_false_r.
Qed.

(** ** Where the undefined-value error comes from *)

Lemma holdsUndefined_item (items : list Value) (item : Value) :
  In item items -> holdsUndefined item = true -> holdsUndefined (VArray items) = true.
Proof.
  intros Hin Hitem. cbn [holdsUndefined].
  induction items as [|x items IH]; [destruct Hin|].
  destruct Hin as [->|Hin]; [now rewrite Hitem | rewrite IH by exact Hin; apply orb_true_r].
Qed.

Lemma holdsUndefined_entry (entries : list (string * Value)) (key : string)
  (value : Value) :
  In (key, value) entries -> holdsUndefined value = true ->
  holdsUndefined (VObject entries) = true.
Proof.
  intros Hin Hvalue. cbn [holdsUndefined].
  induction entries as [|[k x] entries IH]; [destruct Hin|].
  destruct Hin as [[= -> ->]|Hin];
    [now rewrite Hvalue | rewrite IH by exact Hin; apply orb_true_r].
Qed.

(** A property that is defined is a part of the value. *)
Lemma holdsUndefined_getProperty (value : Value) (key : string) :
  isUndefined (getProperty value key) = false ->
  holdsUndefined (getProperty value key) = true -> holdsUndefined value = true.
Proof.
  destruct value as [| | | | | |items|entries]; try discriminate.
  - cbn [getProperty]. destruct (String.eqb key "length"); [discriminate|].
    destruct (find _ _) as [i|] eqn:Hfind; [|discriminate].
    apply find_some in Hfind as [Hi _]. apply in_seq in Hi.
    intros _. apply holdsUndefined_item, nth_In. lia.
  - cbn [getProperty]. destruct (lookupEntry key entries) as [v|] eqn:Hl; [|discriminate].
    intros _. change (default VUndefined (Some v)) with v.
    now apply holdsUndefined_entry with key, lookupEntry_In.
Qed.

Lemma holdsUndefined_characters (s : string) (c : Value) :
  In c (characters s) -> holdsUndefined c = false.
Proof.
  induction s as [|x s IH]; [intros []|]. intros [<-|Hc]; [reflexivity | now apply IH].
Qed.

Section UndefinedValues.

Variable modelSchemasByGlobalId : gmap string ModelMetadata.
Variable schema : ModelMetadata.
Variable rec : WhereFn.

Lemma FromBelow_ret {A : Type} (part : Value -> Prop) (a : A) (params : list Value) :
  FromBelow rec part (ret a params).
Proof. exact I. Qed.

Lemma FromBelow_throw {A : Type} (part : Value -> Prop) (e : Error) (params : list Value) :
  errorKind e <> UndefinedValueError -> FromBelow rec part (@throw A e params).
Proof. intros He Hkind. contradiction. Qed.

Lemma FromBelow_lift {A : Type} (part : Value -> Prop) (r : Result A)
  (params : list Value) :
  FromBelow rec part r -> FromBelow rec part (lift r params).
Proof. now destruct r. Qed.

Lemma FromBelow_push (part : Value -> Prop) (value : Value) (params : list Value) :
  FromBelow rec part (push value params).
Proof. exact I. Qed.

Lemma FromBelow_rec (part : Value -> Prop) (propertyName comparer : option string)
  (isNegated : bool) (value : Value) (params : list Value) :
  part value -> FromBelow rec part (rec propertyName comparer isNegated value params).
Proof.
  intros Hpart. unfold FromBelow.
  destruct (rec propertyName comparer isNegated value params) eqn:Hrec; [exact I|].
  intros _. now exists propertyName, comparer, isNegated, value, params.
Qed.

Lemma FromBelow_bind {A B : Type} (part : Value -> Prop) (m : Builder A)
  (k : A -> Builder B) (params : list Value) :
  FromBelow rec part (m params) ->
  (forall a params', FromBelow rec part (k a params')) ->
  FromBelow rec part (bind m k params).
Proof.
  intros Hm Hk. unfold bind. destruct (m params) as [[a params1]|]; [apply Hk | exact Hm].
Qed.

Lemma FromBelow_mono {A : Type} (part part' : Value -> Prop) (r : Result A) :
  (forall value, part value -> part' value) -> FromBelow rec part r -> FromBelow rec part' r.
Proof.
  intros Hparts. destruct r as [a|e]; [trivial|]. intros H Hkind.
  destruct (H Hkind) as (pn & cmp & neg & v & ps & Hrec & Hpart).
  exists pn, cmp, neg, v, ps. split; [exact Hrec | now apply Hparts].
Qed.

Lemma FromBelow_mapResult {A B : Type} (part : Value -> Prop) (f : A -> Result B)
  (items : list A) :
  (forall x, FromBelow rec part (f x)) -> FromBelow rec part (mapResult f items).
Proof.
  intros Hf. induction items as [|x items IH]; cbn [mapResult]; [exact I|].
  specialize (Hf x). destruct (f x); [|exact Hf].
  destruct (mapResult f items); [exact I | exact IH].
Qed.

(** Follows a builder through its binds and its case distinctions; the
    errors of the builder itself are of another class. *)
Ltac from_below :=
  cbv zeta;
  repeat lazymatch goal with
         | |- FromBelow _ _ (Ok _) => exact I
         | |- FromBelow _ _ (Err _) => let H := fresh in intros H; discriminate H
         | |- FromBelow _ _ (ret _ _) => exact I
         | |- FromBelow _ _ (push _ _) => exact I
         | |- FromBelow _ _ (throw _ _) => apply FromBelow_throw; discriminate
         | |- FromBelow _ _ (lift _ _) => apply FromBelow_lift
         | |- FromBelow _ _ (bind _ _ _) => apply FromBelow_bind; [|intros ? ?]
         | |- FromBelow _ _ ((if ?b then _ else _) _) => destruct b
         | |- FromBelow _ _ (if ?b then _ else _) => destruct b
         | |- FromBelow _ _ (match ?x with _ => _ end _) => destruct x
         | |- FromBelow _ _ (match ?x with _ => _ end) => destruct x
         end.

Lemma FromBelow_getColumnName (part : Value -> Prop) (propertyName : option string) :
  FromBelow rec part (_getColumnName schema propertyName).
Proof. unfold _getColumnName. from_below. Qed.

Lemma FromBelow_comparison (part : Value -> Prop) (propertyName comparer : option string)
  (isNegated : bool) (value : Value) (params : list Value) :
  FromBelow rec part
    (_buildComparisonOperatorStatement schema propertyName comparer isNegated value params).
Proof.
  unfold _buildComparisonOperatorStatement.
  apply FromBelow_bind; [apply FromBelow_lift, FromBelow_getColumnName | intros ? ?].
  from_below.
Qed.

Lemma FromBelow_likeString (part : Value -> Prop) (propertyName : option string)
  (isNegated : bool) (value : Value) (params : list Value) :
  FromBelow rec part (likeString schema propertyName isNegated value params).
Proof.
  unfold likeString. destruct value; try (apply FromBelow_throw; discriminate).
  apply FromBelow_bind; [apply FromBelow_lift, FromBelow_getColumnName | intros ? ?].
  from_below.
Qed.

Lemma FromBelow_like (part : Value -> Prop) (propertyName : option string)
  (isNegated : bool) (value : Value) (params : list Value) :
  FromBelow rec part
    (_buildLikeOperatorStatement schema propertyName isNegated value params).
Proof.
  unfold _buildLikeOperatorStatement.
  destruct value as [| | | | | |items|]; try apply FromBelow_likeString.
  destruct items as [|single [|second items]];
    [exact I | apply FromBelow_likeString |].
  apply FromBelow_bind.
  { apply FromBelow_lift, FromBelow_mapResult.
    intros []; cbn [lowered]; from_below. }
  intros ? ?.
  apply FromBelow_bind; [apply FromBelow_lift, FromBelow_getColumnName | intros ? ?].
  from_below.
Qed.

Lemma FromBelow_orClausesOf (isNegated : bool) (constraints : list Value) :
  forall params,
    FromBelow rec (fun value => In value constraints)
      (orClausesOf rec isNegated constraints params).
Proof.
  induction constraints as [|c constraints IH]; intros params; cbn [orClausesOf];
    [exact I|].
  apply FromBelow_bind; [apply FromBelow_rec; now left | intros ? ?].
  apply FromBelow_bind; [|intros; exact I].
  eapply FromBelow_mono; [|apply IH]. intros v Hv. now right.
Qed.

Lemma FromBelow_constraintsOf (propertyName : option string) (isNegated : bool)
  (values : list Value) :
  forall params,
    FromBelow rec (fun value => In value values)
      (constraintsOf rec propertyName isNegated values params).
Proof.
  induction values as [|val values IH]; intros params; cbn [constraintsOf]; [exact I|].
  apply FromBelow_bind; [apply FromBelow_rec; now left | intros ? ?].
  apply FromBelow_bind; [|intros; exact I].
  eapply FromBelow_mono; [|apply IH]. intros v Hv. now right.
Qed.

Lemma FromBelow_andValuesOf (isNegated : bool) (entries : list (string * Value)) :
  forall propertyName params,
    FromBelow rec (fun value => exists key, In (key, value) entries)
      (andValuesOf rec propertyName isNegated entries params).
Proof.
  induction entries as [|[key sub] entries IH]; intros propertyName params;
    cbn [andValuesOf]; [exact I|].
  apply FromBelow_bind; [apply FromBelow_rec; exists key; now left | intros ? ?].
  apply FromBelow_bind; [|intros; exact I].
  eapply FromBelow_mono; [|apply IH]. intros v [k Hv]. exists k. now right.
Qed.

Lemma FromBelow_whereArray (propertyName comparer : option string) (isNegated : bool)
  (items : list Value) (params : list Value) :
  FromBelow rec (fun value => In value items)
    (whereArray schema rec propertyName comparer isNegated items params).
Proof.
  unfold whereArray. destruct items as [|item items].
  { destruct (isArrayType _); [|exact I].
    apply FromBelow_bind; [apply FromBelow_lift, FromBelow_getColumnName | intros; exact I]. }
  set (all := item :: items).
  assert (Hnull : forall v, In v (List.filter isNull all) -> In v all)
    by (intros v Hv; now apply filter_In in Hv).
  assert (Hvalues : forall v, In v (List.filter (fun i => negb (isNull i)) all) -> In v all)
    by (intros v Hv; now apply filter_In in Hv).
  apply FromBelow_bind.
  { eapply FromBelow_mono; [exact Hnull | apply FromBelow_constraintsOf]. }
  intros nullConstraints params1.
  apply FromBelow_bind; [|intros; exact I].
  destruct (List.filter (fun i => negb (isNull i)) all) as [|a [|b others]] eqn:Hfilter.
  - exact I.
  - apply FromBelow_bind; [|intros; exact I].
    apply FromBelow_rec, Hvalues. now left.
  - apply FromBelow_bind; [apply FromBelow_lift, FromBelow_getColumnName | intros ? ?].
    destruct (isArrayType _); [|from_below].
    eapply FromBelow_mono; [exact Hvalues | apply FromBelow_constraintsOf].
Qed.

(** The body raises the error of an undefined value by itself in the
    default case only, on the value [undefined]; any other error of the
    class is one that a recursive call returned, on a part of the
    value. *)
Lemma undefined_value_origin (propertyName comparer : option string) (isNegated : bool)
  (value : Value) (params : list Value) (e : Error) :
  _buildWhereBody modelSchemasByGlobalId schema rec propertyName comparer isNegated
    value params = Err e ->
  errorKind e = UndefinedValueError ->
  (whereCase (orElse comparer propertyName) = CaseDefault
   /\ value = VUndefined
   /\ e = UndefinedQueryValue
            (default EmptyString (orElse propertyName (Some EmptyString)))
            (globalId schema))
  \/ (exists propertyName' comparer' isNegated' value' params',
        rec propertyName' comparer' isNegated' value' params' = Err e
        /\ (holdsUndefined value' = true -> holdsUndefined value = true)).
Proof.
  intros Hbody Hkind.
  assert (Hbelow :
            FromBelow rec
              (fun value' => holdsUndefined value' = true -> holdsUndefined value = true)
              (_buildWhereBody modelSchemasByGlobalId schema rec propertyName comparer
                 isNegated value params)
            \/ (whereCase (orElse comparer propertyName) = CaseDefault
                /\ value = VUndefined)).
  { assert (Hpattern : forall constraint wrap,
               FromBelow rec
                 (fun value' => holdsUndefined value' = true -> holdsUndefined value = true)
                 (patternConstraint schema rec constraint wrap propertyName isNegated
                    value params)).
    { intros constraint wrap. unfold patternConstraint.
      destruct value as [| | | |s| |items|]; try (apply FromBelow_throw; discriminate).
      - apply FromBelow_rec. discriminate.
      - unfold bind, lift.
        destruct (mapResult _ items) as [values|failure] eqn:Hmap.
        + apply FromBelow_rec. intros Hvalues. exfalso.
          assert (Hnone : holdsUndefined (VArray values) = false).
          { clear -Hmap. revert values Hmap.
            induction items as [|item items IH]; intros values; cbn [mapResult].
            - now intros [= <-].
            - destruct item; try discriminate.
              destruct (mapResult _ items) as [others|]; [|discriminate].
              intros [= <-]. specialize (IH others eq_refl). cbn [holdsUndefined] in *.
              exact IH. }
          congruence.
        + intros Hfailure. exfalso. clear -Hmap Hfailure. revert failure Hmap Hfailure.
          induction items as [|item items IH]; intros failure; cbn [mapResult];
            [discriminate|].
          destruct item; try (intros [= <-]; discriminate).
          destruct (mapResult _ items) as [others|failure']; [discriminate|].
          intros [= <-]. now apply IH. }
    unfold _buildWhereBody.
    destruct (whereCase (orElse comparer propertyName)) eqn:Hcase;
      try (left; apply Hpattern).
    - left. destruct (whereCase propertyName);
        first [apply FromBelow_rec; trivial | apply FromBelow_throw; discriminate].
    - left. unfold _buildOrOperatorStatement. unfold bind at 1, lift.
      destruct value as [| | | |s| |items|]; cbn [iterate];
        try (intros H; discriminate H).
      + apply FromBelow_bind; [|intros; exact I].
        eapply FromBelow_mono; [|apply FromBelow_orClausesOf].
        intros v Hv Hholds. now rewrite (holdsUndefined_characters s v) in Hholds.
      + apply FromBelow_bind; [|intros; exact I].
        eapply FromBelow_mono; [|apply FromBelow_orClausesOf].
        intros v Hv Hholds. now apply holdsUndefined_item with v.
    - left. apply FromBelow_like.
    - unfold whereDefault. destruct (isUndefined value) eqn:Hundefined.
      { right. split; [reflexivity | now destruct value]. }
      left. unfold bind at 1, lift.
      destruct (hydratedValue _ _ _ _) as [[primaryKeyValue|]|failure] eqn:Hhydrated.
      + apply FromBelow_rec. unfold hydratedValue in Hhydrated.
        destruct (truthy propertyName); [|discriminate].
        destruct (lookupAttribute _ _) as [attribute|]; [|discriminate].
        destruct (truthy (attr_model attribute) && isObject value); [|discriminate].
        destruct (modelSchemasByGlobalId !! _) as [relationSchema|]; [|discriminate].
        destruct (negb (isUndefined (getProperty value _))) eqn:Hkey; [|discriminate].
        injection Hhydrated as <-. apply negb_true_iff in Hkey.
        now apply holdsUndefined_getProperty.
      + destruct value as [| | | | | |items|entries]; try apply FromBelow_comparison.
        * eapply FromBelow_mono; [|apply FromBelow_whereArray].
          intros v Hv Hholds. now apply holdsUndefined_item with v.
        * apply FromBelow_bind; [|intros; exact I].
          eapply FromBelow_mono; [|apply FromBelow_andValuesOf].
          intros v [key Hv] Hholds. now apply holdsUndefined_entry with key v.
      + intros Hfailure. exfalso. unfold hydratedValue in Hhydrated.
        repeat match type of Hhydrated with
               | context [if ?b then _ else _] => destruct b
               | context [match ?x with _ => _ end] => destruct x
               end; inversion Hhydrated; subst; discriminate. }
  destruct Hbelow as [Hbelow | [Hcase ->]].
  - right. rewrite Hbody in Hbelow. exact (Hbelow Hkind).
  - left. split; [exact Hcase|]. split; [reflexivity|].
    unfold _buildWhereBody in Hbody. rewrite Hcase in Hbody.
    unfold whereDefault in Hbody. cbn [isUndefined] in Hbody. unfold throw in Hbody.
    congruence.
Qed.

End UndefinedValues.

(** An error of the undefined-value class is the one of the default
    case, and the value compiled holds [undefined]. *)
Lemma undefined_value_held (modelSchemasByGlobalId : gmap string ModelMetadata)
  (schema : ModelMetadata) (propertyName comparer : option string) (isNegated : bool)
  (value : Value) (params : list Value) (e : Error) :
  _buildWhere modelSchemasByGlobalId schema propertyName comparer isNegated value params
  = Err e ->
  errorKind e = UndefinedValueError ->
  holdsUndefined value = true
  /\ exists name, e = UndefinedQueryValue name (globalId schema).
Proof.
  unfold _buildWhere. generalize (S (measure propertyName comparer value)) as fuel.
  intros fuel. revert propertyName comparer isNegated value params.
  induction fuel as [|fuel IH]; intros pn cmp neg v ps Herr Hkind.
  - cbn in Herr. injection Herr as <-. discriminate.
  - cbn [_buildWhereWithin] in Herr.
    destruct (undefined_value_origin _ _ _ _ _ _ _ _ _ Herr Hkind)
      as [(_ & -> & ->) | (pn' & cmp' & neg' & v' & ps' & Hrec & Hpart)].
    + split; [reflexivity | eauto].
    + destruct (IH _ _ _ _ _ Hrec Hkind) as [Hheld Hname]. split; [auto | exact Hname].
Qed.

(** C7, as the code has it. The where compiler raises the undefined-value
    error in one situation only, the default case of its switch reached
    with the value [undefined]:
    (1) under a key that goes to the default case, [undefined] is refused
    with that error;
    (2) an error of the class that the body of [_buildWhere] returns is
    either raised by this very call, which is then in the default case
    on the value [undefined], or is the error that one of its recursive
    calls returned, on a part of the value;
    (3) so an error of the class that a call returns is the one of an
    undefined value, never the one of a hydrated object without primary
    key, and the value compiled holds [undefined];
    (4) [null] is accepted and compiles to IS NULL or, negated,
    IS NOT NULL, with no value added to params;
    (5) a plain object given for a relation property, in which the
    primary key property [id] of the related model is absent or
    undefined, is not taken for a hydrated object: it is compiled as a
    nested where object, and raises what its entries raise. (The primary
    key is [id], which no object inherits, so that what the test reads
    is an own entry of the object or nothing.) *)
Theorem undefined_value_is_refused_by_the_default_case
  (modelSchemasByGlobalId : gmap string ModelMetadata) (schema : ModelMetadata) :
  (forall propertyName comparer isNegated params,
     whereCase (orElse comparer propertyName) = CaseDefault ->
     _buildWhere modelSchemasByGlobalId schema propertyName comparer isNegated
       VUndefined params
     = Err (UndefinedQueryValue (default EmptyString (orElse propertyName (Some EmptyString)))
              (globalId schema)))
  /\ (forall (rec : WhereFn) propertyName comparer isNegated value params e,
        _buildWhereBody modelSchemasByGlobalId schema rec propertyName comparer isNegated
          value params = Err e ->
        errorKind e = UndefinedValueError ->
        (whereCase (orElse comparer propertyName) = CaseDefault
         /\ value = VUndefined
         /\ e = UndefinedQueryValue
                  (default EmptyString (orElse propertyName (Some EmptyString)))
                  (globalId schema))
        \/ (exists propertyName' comparer' isNegated' value' params',
              rec propertyName' comparer' isNegated' value' params' = Err e
              /\ (holdsUndefined value' = true -> holdsUndefined value = true)))
  /\ (forall propertyName comparer isNegated value params e,
        _buildWhere modelSchemasByGlobalId schema propertyName comparer isNegated
          value params = Err e ->
        errorKind e = UndefinedValueError ->
        holdsUndefined value = true
        /\ exists name, e = UndefinedQueryValue name (globalId schema))
  /\ (forall propertyName property isNegated params,
        propertyName <> EmptyString ->
        _isComparer propertyName = false ->
        lookupAttribute propertyName (attributes schema) = Some property ->
        _buildWhere modelSchemasByGlobalId schema (Some propertyName) None isNegated
          VNull params
        = Ok (quoted (default propertyName
                        (orElse (attr_columnName property) (Some propertyName)))
              +:+ " " +:+ (if isNegated then "IS NOT" else "IS") +:+ " NULL", params))
  /\ (forall propertyName property relationSchema comparer isNegated entries params,
        propertyName <> EmptyString ->
        whereCase (orElse comparer (Some propertyName)) = CaseDefault ->
        lookupAttribute propertyName (attributes schema) = Some property ->
        truthy (attr_model property) = true ->
        modelSchemasByGlobalId !! toLowerCase (default EmptyString (attr_model property))
        = Some relationSchema ->
        getPrimaryKeyPropertyName relationSchema = "id" ->
        isUndefined (getProperty (VObject entries) "id") = true ->
        _buildWhere modelSchemasByGlobalId schema (Some propertyName) comparer isNegated
          (VObject entries) params
        = (do andValues <-
             andValuesOf (_buildWhere modelSchemasByGlobalId schema)
               (Some propertyName) isNegated entries;
           ret (String.concat " AND " andValues))%builder params).
Proof.
  split; [|split; [|split; [|split]]].
  - intros pn cmp neg ps Hcase. now rewrite _buildWhere_default.
  - intros rec pn cmp neg v ps e. apply undefined_value_origin.
  - intros pn cmp neg v ps e. apply undefined_value_held.
  - intros p a neg ps Hne Hkey Hattr.
    rewrite _buildWhere_default by now apply whereCase_property.
    unfold whereDefault. cbn [isUndefined]. unfold bind at 1.
    rewrite hydratedValue_not_object by reflexivity. cbn [lift].
    unfold _buildComparisonOperatorStatement, bind, lift, ret.
    now rewrite (_getColumnName_found _ _ _ Hne Hattr).
  - intros p a rel cmp neg entries ps Hne Hcase Hattr Hmodel Hreg Hid Hpk.
    rewrite _buildWhere_default by exact Hcase.
    apply whereDefault_object. unfold hydratedValue.
    assert (Htruthy : truthy (Some p) = true).
    { simpl. apply negb_true_iff. now apply String.eqb_neq. }
    rewrite Htruthy. simpl default at 1. rewrite Hattr, Hmodel. cbn [isObject andb].
    rewrite Hreg, Hid. now rewrite Hpk.
Qed.

(** The theorem at [{name: undefined}], and at [{store: {id: undefined}}],
    an object for the relation [store] that is compiled as a nested where
    object and refused for its [id]. *)
Lemma undefined_value_is_refused_by_the_default_case_witness :
  _buildWhere Sample.registry Sample.product (Some "name") None false VUndefined []
  = Err (UndefinedQueryValue "name" "product")
  /\ _buildWhere Sample.registry Sample.product (Some "store") None false
       (VObject [("id", VUndefined)]) []
     = Err (UndefinedQueryValue "id" "product").
Proof.
  destruct (undefined_value_is_refused_by_the_default_case Sample.registry Sample.product)
    as (Hwhen & _ & _ & _ & Hnested).
  split.
  - apply Hwhen. reflexivity.
  - rewrite (Hnested "store" (Sample.attribute (Some "store_id") None (Some "store") false)
               Sample.store None false [("id", VUndefined)] []).
    + vm_compute. reflexivity.
    + discriminate.
    + reflexivity.
    + reflexivity.
    + reflexivity.
    + vm_compute. reflexivity.
    + reflexivity.
    + reflexivity.
Defined.

(** C7 as stated fails. [store] is a relation property and
    [{name: 'x'}] an object without the primary key [id] of the related
    model: [{store: {name: 'x'}}] compiles, as a nested where object.
    In the other direction, the undefined value of [{name: {like:
    undefined}}] is refused with the error of an invalid constraint, and
    the one in [{name: [undefined, 'a']}] is bound as it is. *)
Lemma hydrated_object_without_primary_key_compiles :
  (attr_model <$> lookupAttribute "store" (attributes Sample.product) = Some (Some "store")
   /\ getProperty (VObject [("name", VString "x")])
        (getPrimaryKeyPropertyName Sample.store) = VUndefined
   /\ _buildWhereStatement Sample.registry Sample.product
        (VObject [("store", VObject [("name", VString "x")])]) []
      = Ok (Some ("WHERE " +:+ quoted "name" +:+ "=$1"), [VString "x"]))
  /\ (exists e,
        _buildWhereStatement Sample.registry Sample.product
          (VObject [("name", VObject [("like", VUndefined)])]) [] = Err e
        /\ errorKind e = InvalidConstraintError)
  /\ _buildWhereStatement Sample.registry Sample.product
       (VObject [("name", VArray [VUndefined; VString "a"])]) []
     = Ok (Some ("WHERE " +:+ quoted "name" +:+ "=ANY($1::TEXT[])"),
           [VArray [VUndefined; VString "a"]]).
Proof.
  split; [|split].
  - split; [reflexivity|]. split; [reflexivity|]. vm_compute. reflexivity.
  - eexists. split; [vm_compute; reflexivity | reflexivity].
  - vm_compute. reflexivity.
Qed.

(** ** DELETE *)

(** C6. A delete with the empty where object, or with no where at all,
    compiles no WHERE clause and binds nothing. With no records returned,
    as [destroy({})] asks, the builder returns exactly
    [DELETE FROM "table"] with no params. With records returned it
    returns no statement at all: the select-list builder, called for the
    RETURNING clause without a [model], throws a TypeError. So whatever
    statement the builder returns for such a delete is exactly
    [DELETE FROM "table"], with no params. *)
Theorem delete_of_everything_has_no_where
  (modelSchemasByGlobalId : gmap string ModelMetadata) (schema : ModelMetadata)
  (where_ : Value) :
  where_ = VObject [] \/ where_ = VUndefined ->
  (forall returnSelect,
     getDeleteQueryAndParams modelSchemasByGlobalId schema where_ false returnSelect
     = Ok {| query := "DELETE FROM " +:+ quoted (tableName schema); params := [] |})
  /\ (forall returnSelect,
        exists message,
          getDeleteQueryAndParams modelSchemasByGlobalId schema where_ true returnSelect
          = Err (TypeError message))
  /\ (forall returnRecords returnSelect result,
        getDeleteQueryAndParams modelSchemasByGlobalId schema where_ returnRecords
          returnSelect = Ok result ->
        result = {| query := "DELETE FROM " +:+ quoted (tableName schema); params := [] |}).
Proof.
  intros Hwhere.
  assert (Hstatement :
            _buildWhereStatement modelSchemasByGlobalId schema where_ [] = Ok (None, [])
            \/ _buildWhereStatement modelSchemasByGlobalId schema where_ []
               = Ok (Some EmptyString, [])).
  { destruct Hwhere as [-> | ->]; [right | left; reflexivity].
    unfold _buildWhereStatement. cbn [isObject].
    rewrite _buildWhere_default by reflexivity.
    now rewrite whereDefault_object by apply hydratedValue_None. }
  assert (Hbuilder : forall returnRecords returnSelect,
            getDeleteQueryAndParams modelSchemasByGlobalId schema where_ returnRecords
              returnSelect
            = if returnRecords then
                match fst (_getColumnsToSelectGiven None returnSelect) with
                | Ok columns =>
                    Ok {| query := "DELETE FROM " +:+ quoted (tableName schema)
                                   +:+ " RETURNING " +:+ columns;
                          params := [] |}
                | Err e => Err e
                end
              else
                Ok {| query := "DELETE FROM " +:+ quoted (tableName schema);
                      params := [] |}).
  { intros returnRecords returnSelect. unfold getDeleteQueryAndParams.
    destruct Hstatement as [-> | ->]; reflexivity. }
  split; [|split].
  - intros returnSelect. now rewrite Hbuilder.
  - intros returnSelect. rewrite Hbuilder. cbn [_getColumnsToSelectGiven fst]. eauto.
  - intros returnRecords returnSelect result. rewrite Hbuilder.
    destruct returnRecords; [discriminate | now intros [= <-]].
Qed.

(** The theorem at [destroy({})] with no records returned. *)
Lemma delete_of_everything_has_no_where_witness :
  getDeleteQueryAndParams Sample.registry Sample.product (VObject []) false None
  = Ok {| query := "DELETE FROM " +:+ quoted "products"; params := [] |}.
Proof.
  apply (proj1 (delete_of_everything_has_no_where Sample.registry Sample.product
                  (VObject []) (or_introl eq_refl))).
Defined.

(** ** The select list *)

Lemma selectEntries_concat (model : ModelMetadata) (selection : list string) :
  forallb (known model) selection = true ->
  forall index,
    selectEntries model index selection
    = Ok (match selection with
          | [] => EmptyString
          | _ => (if (0 <? index)%nat then "," else EmptyString)
                 +:+ String.concat "," (map (entryOf model) selection)
          end).
Proof.
  induction selection as [|p selection IH]; intros Hk index; [reflexivity|].
  cbn [forallb] in Hk. apply andb_prop in Hk as [Hp Hk].
  cbn [selectEntries]. unfold known in Hp. unfold entryOf at 1. cbn [map].
  destruct (columnsByPropertyName model !! p) as [column|] eqn:Hl; [|discriminate].
  rewrite (IH Hk). destruct selection as [|q selection].
  - cbn [map String.concat]. now rewrite append_empty_r.
  - reflexivity.
Qed.

(** C4. With an explicit select list that lacks the primary key property
    (the empty list too), the projection list is that of the list with the
    primary key property put after it: the property occurs once, as the
    last entry. With no select list, the projection list has one entry for
    each column that is not a collection, in the order of the columns. An
    entry is the quoted property name, preceded by the quoted column name
    and AS exactly when the column name is not the property name. The
    properties listed are properties of the model. *)
Theorem select_list_ends_with_primary_key (model : ModelMetadata) :
  (forall (select : list string) (primaryKey : Column),
     primaryKeyColumn model = Some primaryKey ->
     col_propertyName primaryKey ∉ select ->
     forallb (known model) (select ++ [col_propertyName primaryKey]) = true ->
     fst (_getColumnsToSelect model (Some select))
     = Ok (String.concat ","
             (map (entryOf model) (select ++ [col_propertyName primaryKey])))
     /\ count_occ string_dec (select ++ [col_propertyName primaryKey])
          (col_propertyName primaryKey) = 1
     /\ last (select ++ [col_propertyName primaryKey]) = Some (col_propertyName primaryKey))
  /\ (indexed model = true ->
      fst (_getColumnsToSelect model None)
      = Ok (String.concat ","
              (map (fun column => selectEntry column (col_propertyName column))
                 (List.filter (fun column => negb (truthy (col_collection column)))
                    (columns model))))).
Proof.
  split.
  - intros selection pk Hpk Hnotin Hknown. split; [|split].
    + unfold _getColumnsToSelect, columnsSelected. cbn [fst]. rewrite Hpk.
      rewrite bool_decide_eq_false_2 by exact Hnotin. cbn [negb].
      rewrite (selectEntries_concat model _ Hknown).
      destruct (selection ++ [col_propertyName pk]) eqn:Hl; [|reflexivity].
      now apply app_eq_nil in Hl as [_ [=]].
    + rewrite count_occ_app. cbn [count_occ].
      destruct (string_dec _ _); [|congruence].
      rewrite (proj1 (count_occ_not_In string_dec selection (col_propertyName pk)));
        [reflexivity|].
      intros Hin. apply Hnotin. now apply list_elem_of_In.
    + apply last_snoc.
  - intros Hindexed. unfold _getColumnsToSelect, columnsSelected. cbn [fst].
    unfold indexed in Hindexed.
    assert (Hall : forall cols,
               forallb
                 (fun column =>
                    truthy (col_collection column)
                    || match columnsByPropertyName model !! col_propertyName column with
                       | Some column' => String.eqb (col_name column') (col_name column)
                       | None => false
                       end) cols = true ->
               forallb (known model)
                 (map col_propertyName
                    (List.filter (fun column => negb (truthy (col_collection column))) cols))
               = true
               /\ map (entryOf model)
                    (map col_propertyName
                       (List.filter (fun column => negb (truthy (col_collection column))) cols))
                  = map (fun column => selectEntry column (col_propertyName column))
                      (List.filter (fun column => negb (truthy (col_collection column))) cols)).
    { induction cols as [|c cols IH]; [now split|].
      cbn [forallb List.filter]. intros [Hc Hcols]%andb_prop.
      destruct (IH Hcols) as [IH1 IH2].
      destruct (truthy (col_collection c)); cbn [negb]; [now split|].
      cbn [orb] in Hc. cbn [map forallb]. unfold known at 1, entryOf at 1.
      destruct (columnsByPropertyName model !! col_propertyName c) as [c'|];
        [|discriminate].
      apply String.eqb_eq in Hc. split; [exact IH1|].
      rewrite IH2. f_equal. unfold selectEntry. now rewrite Hc. }
    destruct (Hall _ Hindexed) as [Hknown Hmap].
    rewrite (selectEntries_concat model _ Hknown), <- Hmap.
    now destruct (map col_propertyName _).
Qed.

(** The theorem at the model of the repository tests, for the select list
    [['name']] and for no select list. *)
Lemma select_list_ends_with_primary_key_witness :
  fst (_getColumnsToSelect Sample.product (Some ["name"]))
  = Ok (quoted "name" +:+ "," +:+ quoted "id")
  /\ fst (_getColumnsToSelect Sample.product None)
     = Ok (quoted "id" +:+ "," +:+ quoted "name" +:+ "," +:+ quoted "sku" +:+ ","
           +:+ quoted "alias_names" +:+ " AS " +:+ quoted "aliases" +:+ ","
           +:+ quoted "store_id" +:+ " AS " +:+ quoted "store").
Proof.
  split.
  - rewrite (proj1 (proj1 (select_list_ends_with_primary_key Sample.product)
                      ["name"] _ eq_refl ltac:(compute_done) eq_refl)).
    vm_compute. reflexivity.
  - rewrite (proj2 (select_list_ends_with_primary_key Sample.product) eq_refl).
    vm_compute. reflexivity.
Defined.

(** C10. The select array is the only thing [_getColumnsToSelect] changes.
    Given an array that lacks the primary key property, the call leaves it
    one longer, with the primary key property pushed at its end, whether
    or not the loop after the push throws; an array that has the property,
    or a model without primary key column, leaves it as it was; with no
    array given, none is touched. The model is read and not written: the
    array is all that the call hands back besides its result. *)
Theorem select_array_is_extended_in_place (model : ModelMetadata) (select : list string) :
  (forall primaryKey,
     primaryKeyColumn model = Some primaryKey ->
     col_propertyName primaryKey ∉ select ->
     snd (_getColumnsToSelect model (Some select))
     = Some (select ++ [col_propertyName primaryKey])
     /\ length (select ++ [col_propertyName primaryKey]) = S (length select))
  /\ (forall primaryKey,
        primaryKeyColumn model = Some primaryKey ->
        col_propertyName primaryKey ∈ select ->
        snd (_getColumnsToSelect model (Some select)) = Some select)
  /\ (primaryKeyColumn model = None ->
      snd (_getColumnsToSelect model (Some select)) = Some select)
  /\ snd (_getColumnsToSelect model None) = None.
Proof.
  unfold _getColumnsToSelect, columnsSelected. cbn [snd].
  split; [|split; [|split]].
  - intros pk -> Hnotin. rewrite bool_decide_eq_false_2 by exact Hnotin.
    split; [reflexivity|]. rewrite length_app. simpl. lia.
  - intros pk -> Hin. now rewrite bool_decide_eq_true_2 by exact Hin.
  - now intros ->.
  - reflexivity.
Qed.

(** The theorem at the model of the repository tests and the array
    [['name']]; the array is extended also when the list names a property
    the model does not have and the loop throws. *)
Lemma select_array_is_extended_in_place_witness :
  snd (_getColumnsToSelect Sample.product (Some ["name"])) = Some ["name"; "id"]
  /\ _getColumnsToSelect Sample.product (Some ["nope"])
     = (Err (TypeError "Cannot read properties of undefined (reading 'name')"),
        Some ["nope"; "id"]).
Proof.
  split.
  - apply (proj1 (select_array_is_extended_in_place Sample.product ["name"])
             _ eq_refl ltac:(compute_done)).
  - vm_compute. reflexivity.
Defined.

(** ** INSERT *)

Section InsertChecks.

Variable now : Z.
Variable model : ModelMetadata.

Lemma propertyOf_setProperty (entity : Entity) (key : string) (value : Value)
  (propertyName : string) :
  propertyOf (setProperty key value entity) propertyName
  = if String.eqb key propertyName then value else propertyOf entity propertyName.
Proof.
  unfold propertyOf. induction entity as [|[k v] entity IH]; simpl.
  - now destruct (String.eqb key propertyName).
  - destruct (String.eqb_spec k key) as [->|Hne]; simpl.
    + now destruct (String.eqb key propertyName).
    + destruct (String.eqb_spec k propertyName) as [->|Hne'].
      * apply String.eqb_neq in Hne. rewrite String.eqb_sym in Hne. now rewrite Hne.
      * exact IH.
Qed.

(** A default never takes a value away. *)
Lemma withDefault_keeps (column : Column) (entity : Entity) (propertyName : string) :
  isUndefined (propertyOf (withDefault now column entity) propertyName) = true ->
  isUndefined (propertyOf entity propertyName) = true.
Proof.
  unfold withDefault.
  destruct (negb (isUndefined (defaultValueOf now column))) eqn:Hd; [|trivial].
  destruct (isUndefined (propertyOf entity (col_propertyName column))) eqn:Hu; [|trivial].
  cbn [andb]. rewrite propertyOf_setProperty.
  destruct (String.eqb_spec (col_propertyName column) propertyName) as [<-|_]; [|trivial].
  now intros _.
Qed.

Lemma withDefaults_keeps (columns : list Column) (entity : Entity) (propertyName : string) :
  isUndefined (propertyOf (withDefaults now columns entity) propertyName) = true ->
  isUndefined (propertyOf entity propertyName) = true.
Proof.
  revert entity. induction columns as [|c columns IH]; intros entity; [trivial|].
  unfold withDefaults. cbn [fold_left]. intros H. apply IH in H.
  destruct (negb (truthy (col_collection c))); [|exact H].
  now apply withDefault_keeps in H.
Qed.

(** The inner loop raises nothing but the error of a missing field. *)
Lemma checkColumn_error (column : Column) (entities : list Entity) (e : Error) :
  checkColumn now model column entities = Err e ->
  e = MissingRequiredField (modelName model) (col_propertyName column).
Proof.
  induction entities as [|entity entities IH]; simpl; [discriminate|].
  destruct (isUndefined _).
  - destruct (col_required column); [now intros [= <-]|].
    destruct (checkColumn now model column entities) as [[rest' flag]|]; [discriminate|].
    intros [= <-]. now apply IH.
  - destruct (checkColumn now model column entities) as [[rest' flag]|]; [discriminate|].
    intros [= <-]. now apply IH.
Qed.

(** When the inner loop goes through, every row has the default assigned,
    and a required column has a value in every row. *)
Lemma checkColumn_passes (column : Column) (entities entities' : list Entity)
  (includePropertyName : bool) :
  checkColumn now model column entities = Ok (entities', includePropertyName) ->
  entities' = map (withDefault now column) entities
  /\ (col_required column = true ->
      forall entity, In entity entities ->
        isUndefined (propertyOf (withDefault now column entity) (col_propertyName column))
        = false).
Proof.
  revert entities' includePropertyName.
  induction entities as [|entity entities IH]; intros entities' flag; simpl.
  - intros [= <- <-]. split; [reflexivity | intros _ ? []].
  - destruct (isUndefined _) eqn:Hu.
    + destruct (col_required column) eqn:Hr; [discriminate|].
      destruct (checkColumn now model column entities) as [[rest' flag']|]; [|discriminate].
      intros [= <- <-]. destruct (IH _ _ eq_refl) as [-> _].
      split; [reflexivity | discriminate].
    + destruct (checkColumn now model column entities) as [[rest' flag']|]; [|discriminate].
      intros [= <- <-]. destruct (IH _ _ eq_refl) as [-> Hrest].
      split; [reflexivity|]. intros Hr e [<-|Hin]; [exact Hu | now apply Hrest].
Qed.

Lemma checkColumns_refuses (columns : list Column) (entities : list Entity)
  (column : Column) (entity : Entity) :
  In column columns ->
  truthy (col_collection column) = false ->
  col_required column = true ->
  In entity entities ->
  isUndefined (propertyOf (withDefaults now columns entity) (col_propertyName column)) = true ->
  exists propertyName,
    checkColumns now model columns entities
    = Err (MissingRequiredField (modelName model) propertyName).
Proof.
  revert entities entity.
  induction columns as [|c columns IH]; intros entities entity Hin Hcoll Hreq He Hu;
    [destruct Hin|].
  cbn [checkColumns]. unfold withDefaults in Hu. cbn [fold_left] in Hu.
  destruct (negb (truthy (col_collection c))) eqn:Hc.
  - destruct (checkColumn now model c entities) as [[entities' flag]|] eqn:Hcheck.
    + destruct (checkColumn_passes _ _ _ _ Hcheck) as [-> Hdefined].
      assert (Hrest : exists propertyName,
                 checkColumns now model columns (map (withDefault now c) entities)
                 = Err (MissingRequiredField (modelName model) propertyName)).
      { destruct Hin as [<-|Hin].
        - apply withDefaults_keeps in Hu. rewrite (Hdefined Hreq entity He) in Hu.
          discriminate.
        - apply (IH _ (withDefault now c entity) Hin Hcoll Hreq); [|exact Hu].
          now apply in_map. }
      destruct Hrest as [p ->]. now exists p.
    + apply checkColumn_error in Hcheck as ->. now eexists.
  - destruct Hin as [<-|Hin].
    + rewrite Hcoll in Hc. discriminate.
    + now apply (IH entities entity).
Qed.

End InsertChecks.

(** C5. An insert of one row or of several: if a column that is not a
    collection is required and some row has no value for it once the
    defaults are assigned (the value of [defaultsTo], what it returns if
    it is a function, or the time of the call for a create or update date
    column), the builder throws the error of a missing required field. It
    does so in its first pass, which sets the defaults and verifies the
    required columns before any of the statement is built; nothing is
    returned. *)
Theorem insert_refuses_missing_required_field
  (now : Z) (JSON_stringify : Value -> string)
  (repositoriesByModelNameLowered : gmap string ModelMetadata) (model : ModelMetadata)
  (values : InsertValues) (returnRecords : bool) (returnSelect : option (list string))
  (column : Column) (entity : Entity) :
  In column (columns model) ->
  truthy (col_collection column) = false ->
  col_required column = true ->
  In entity (entitiesToInsertOf values) ->
  isUndefined (propertyOf (withDefaults now (columns model) entity) (col_propertyName column))
  = true ->
  exists propertyName,
    checkColumns now model (columns model) (entitiesToInsertOf values)
    = Err (MissingRequiredField (modelName model) propertyName)
    /\ getInsertQueryAndParams now JSON_stringify repositoriesByModelNameLowered model
         values returnRecords returnSelect
       = Err (MissingRequiredField (modelName model) propertyName)
    /\ errorKind (MissingRequiredField (modelName model) propertyName)
       = MissingRequiredFieldError.
Proof.
  intros Hin Hcoll Hreq He Hu.
  destruct (checkColumns_refuses now model _ _ _ _ Hin Hcoll Hreq He Hu) as [p Hp].
  exists p. split; [exact Hp|]. split; [|reflexivity].
  unfold getInsertQueryAndParams. now rewrite Hp.
Qed.

(** The theorem at [create({name: 'x'})] on the model of the repository
    tests, whose [store] is required and has no default. *)
Lemma insert_refuses_missing_required_field_witness :
  exists propertyName,
    checkColumns 0 Sample.product (columns Sample.product) [[("name", VString "x")]]
    = Err (MissingRequiredField "product" propertyName)
    /\ getInsertQueryAndParams 0 (fun _ => EmptyString) Sample.registry Sample.product
         (OneEntity [("name", VString "x")]) true None
       = Err (MissingRequiredField "product" propertyName)
    /\ errorKind (MissingRequiredField "product" propertyName) = MissingRequiredFieldError.
Proof.
  apply (insert_refuses_missing_required_field 0 (fun _ => EmptyString)
           Sample.registry Sample.product (OneEntity [("name", VString "x")]) true None
           (Sample.column "store_id" "store" None (Some "store") true)
           [("name", VString "x")]).
  - simpl. tauto.
  - reflexivity.
  - reflexivity.
  - simpl. tauto.
  - reflexivity.
Defined.

(** * Further properties of the builders *)

(** ** Leaves of a where object *)

Section Leaves.

Variable modelSchemasByGlobalId : gmap string ModelMetadata.
Variable schema : ModelMetadata.

(** A value that is no object and not undefined is compiled by the
    comparison statement. *)
Lemma _buildWhere_leaf (propertyName comparer : option string) (isNegated : bool)
  (value : Value) (params : list Value) :
  whereCase (orElse comparer propertyName) = CaseDefault ->
  isUndefined value = false ->
  isObject value = false ->
  _buildWhere modelSchemasByGlobalId schema propertyName comparer isNegated value params
  = _buildComparisonOperatorStatement schema propertyName comparer isNegated value params.
Proof.
  intros Hcase Hu Ho. rewrite _buildWhere_default by exact Hcase.
  unfold whereDefault. rewrite Hu. unfold bind at 1.
  rewrite hydratedValue_not_object by exact Ho. cbn [lift].
  destruct value; try discriminate; reflexivity.
Qed.

Lemma push_length (value : Value) (params : list Value) :
  push value params = Ok (S (length params), params ++ [value]).
Proof. unfold push. rewrite length_app. simpl. now rewrite Nat.add_1_r. Qed.

End Leaves.

(** Unfolds the comparison statement of a value that is not null, on a
    property of the model. *)
Ltac comparison_of_value Hne Hattr Hnull :=
  unfold _buildComparisonOperatorStatement;
  unfold bind at 1; unfold lift;
  rewrite (_getColumnName_found _ _ _ Hne Hattr), Hnull;
  unfold bind at 1; rewrite push_length;
  change (default EmptyString (Some ?p)) with p; rewrite Hattr; cbv zeta.

Section Comparisons.

Variable modelSchemasByGlobalId : gmap string ModelMetadata.
Variable schema : ModelMetadata.

(** X1. The comparison operators and their negation. For a property of
    the model whose type is neither array nor json and a value that is no
    object, not null and not undefined, each of [<], [<=], [>], [>=]
    binds the value as the next parameter and compares the column with
    its placeholder; negated, the comparison is the complementary
    operator ([>=] for [<], [>] for [<=], and back), not a NOT. *)
Theorem comparison_operator_and_its_complement
  (propertyName : string) (property : Attribute) (operator : string)
  (isNegated : bool) (value : Value) (params : list Value) :
  propertyName <> EmptyString ->
  lookupAttribute propertyName (attributes schema) = Some property ->
  attr_type property <> Some "array" ->
  attr_type property <> Some "json" ->
  isObject value = false ->
  isNil value = false ->
  In operator ["<"; "<="; ">"; ">="] ->
  _buildWhere modelSchemasByGlobalId schema (Some propertyName) (Some operator)
    isNegated value params
  = Ok (quoted (columnOf propertyName property)
        +:+ (if isNegated then complement operator else operator)
        +:+ "$" +:+ decimal (S (length params)),
        params ++ [value]).
Proof.
  intros Hne Hattr Harray Hjson Hobject Hnil Hop.
  apply orb_false_elim in Hnil as [Hundefined Hnull].
  assert (Hsupports :
            negb (negb (bool_decide (attr_type property = Some "array"))
                  && negb (bool_decide (attr_type property = Some "json"))) = false).
  { now rewrite !bool_decide_eq_false_2 by assumption. }
  simpl in Hop.
  destruct Hop as [<-|[<-|[<-|[<-|[]]]]];
    (rewrite _buildWhere_leaf by (reflexivity || assumption));
    comparison_of_value Hne Hattr Hnull;
    rewrite Hsupports; repeat case_bool_decide; try congruence;
    destruct isNegated; reflexivity.
Qed.

(** X2. On a column of type array or json the four operators are refused:
    for a value that is no object, not null and not undefined, the
    comparison throws the error of an unsupported operator, which names
    the operator, the type, the property and the model. *)
Theorem comparison_operator_refused_on_array_and_json
  (propertyName : string) (property : Attribute) (operator : string)
  (isNegated : bool) (value : Value) (params : list Value) :
  propertyName <> EmptyString ->
  lookupAttribute propertyName (attributes schema) = Some property ->
  attr_type property = Some "array" \/ attr_type property = Some "json" ->
  isObject value = false ->
  isNil value = false ->
  In operator ["<"; "<="; ">"; ">="] ->
  exists e,
    _buildWhere modelSchemasByGlobalId schema (Some propertyName) (Some operator)
      isNegated value params = Err e
    /\ e = OperatorNotSupported operator (default EmptyString (attr_type property))
             propertyName (globalId schema)
    /\ errorKind e = UnsupportedOperatorError.
Proof.
  intros Hne Hattr Htype Hobject Hnil Hop.
  apply orb_false_elim in Hnil as [Hundefined Hnull].
  assert (Htruthy : orElse (Some propertyName) (Some EmptyString) = Some propertyName).
  { unfold orElse. simpl. apply String.eqb_neq in Hne. now rewrite Hne. }
  eexists. split; [|split; [reflexivity|reflexivity]].
  simpl in Hop.
  destruct Hop as [<-|[<-|[<-|[<-|[]]]]];
    (rewrite _buildWhere_leaf by (reflexivity || assumption));
    comparison_of_value Hne Hattr Hnull; rewrite Htruthy;
    destruct Htype as [Ht|Ht]; rewrite Ht;
    repeat case_bool_decide; try congruence; reflexivity.
Qed.

(** X3. A property compared with a plain value. With no comparer, a value
    that is no object, not null and not undefined is bound as the next
    parameter and the column is compared with its placeholder by [=], or
    by [<>] when negated; on a column of type array the placeholder is
    tested against the column with [=ANY], or [<>ALL] when negated. *)
Theorem property_equals_value
  (propertyName : string) (property : Attribute)
  (isNegated : bool) (value : Value) (params : list Value) :
  propertyName <> EmptyString ->
  _isComparer propertyName = false ->
  lookupAttribute propertyName (attributes schema) = Some property ->
  isObject value = false ->
  isNil value = false ->
  _buildWhere modelSchemasByGlobalId schema (Some propertyName) None isNegated value params
  = Ok (if bool_decide (attr_type property = Some "array")
        then "$" +:+ decimal (S (length params))
             +:+ (if isNegated then "<>ALL(" else "=ANY(")
             +:+ quoted (columnOf propertyName property) +:+ ")"
        else quoted (columnOf propertyName property)
             +:+ (if isNegated then "<>" else "=")
             +:+ "$" +:+ decimal (S (length params)),
        params ++ [value]).
Proof.
  intros Hne Hkey Hattr Hobject Hnil.
  apply orb_false_elim in Hnil as [Hundefined Hnull].
  rewrite _buildWhere_leaf by (try assumption; now apply whereCase_property).
  comparison_of_value Hne Hattr Hnull.
  repeat case_bool_decide; try congruence; destruct isNegated; reflexivity.
Qed.

(** X4. A key that is no property of the model. Compared with a value that
    is no object and not undefined (null included), it is refused with the
    error of an unknown property, and nothing is bound; given the empty
    array it is not looked up at all and compiles to [1<>1], or [1=1]
    when negated. *)
Theorem unknown_property_is_refused
  (propertyName : string) (isNegated : bool) (params : list Value) :
  propertyName <> EmptyString ->
  _isComparer propertyName = false ->
  lookupAttribute propertyName (attributes schema) = None ->
  (forall value,
     isObject value = false -> isUndefined value = false ->
     _buildWhere modelSchemasByGlobalId schema (Some propertyName) None isNegated
       value params
     = Err (PropertyNotFound propertyName (globalId schema)))
  /\ _buildWhere modelSchemasByGlobalId schema (Some propertyName) None isNegated
       (VArray []) params
     = Ok (if isNegated then "1=1" else "1<>1", params).
Proof.
  intros Hne Hkey Hattr.
  assert (Htruthy : truthy (Some propertyName) = true).
  { simpl. apply negb_true_iff. now apply String.eqb_neq. }
  split.
  - intros value Hobject Hundefined.
    rewrite _buildWhere_leaf by (try assumption; now apply whereCase_property).
    unfold _buildComparisonOperatorStatement, bind, lift, _getColumnName.
    rewrite Htruthy. cbn [negb].
    change (default EmptyString (Some propertyName)) with propertyName.
    now rewrite Hattr.
  - rewrite _buildWhere_default by now apply whereCase_property.
    rewrite whereDefault_array.
    + unfold whereArray, arrayAttributeOf. rewrite Htruthy.
      change (default EmptyString (Some propertyName)) with propertyName.
      rewrite Hattr. reflexivity.
    + unfold hydratedValue. rewrite Htruthy.
      change (default EmptyString (Some propertyName)) with propertyName.
      now rewrite Hattr.
Qed.

(** X5. A hydrated relation value. For a relation property whose related
    model is registered, an object (or array, or date) that carries the
    primary key property of the related model compiles exactly as that
    primary key value does: same fragment, same params, same error. *)
Theorem hydrated_object_compiles_as_its_primary_key
  (propertyName : string) (property : Attribute) (relationSchema : ModelMetadata)
  (comparer : option string) (isNegated : bool) (value : Value) (params : list Value) :
  propertyName <> EmptyString ->
  whereCase (orElse comparer (Some propertyName)) = CaseDefault ->
  lookupAttribute propertyName (attributes schema) = Some property ->
  truthy (attr_model property) = true ->
  modelSchemasByGlobalId !! toLowerCase (default EmptyString (attr_model property))
  = Some relationSchema ->
  isObject value = true ->
  isUndefined (getProperty value (getPrimaryKeyPropertyName relationSchema)) = false ->
  _buildWhere modelSchemasByGlobalId schema (Some propertyName) comparer isNegated
    value params
  = _buildWhere modelSchemasByGlobalId schema (Some propertyName) comparer isNegated
      (getProperty value (getPrimaryKeyPropertyName relationSchema)) params.
Proof.
  intros Hne Hcase Hattr Hmodel Hreg Hobject Hpk.
  assert (Htruthy : truthy (Some propertyName) = true).
  { simpl. apply negb_true_iff. now apply String.eqb_neq. }
  rewrite (_buildWhere_default _ _ _ _ _ value) by exact Hcase.
  unfold whereDefault at 1.
  assert (Hundefined : isUndefined value = false) by (destruct value; easy).
  rewrite Hundefined. unfold bind at 1, hydratedValue. rewrite Htruthy.
  change (default EmptyString (Some propertyName)) with propertyName.
  rewrite Hattr, Hmodel, Hobject. cbn [andb]. rewrite Hreg, Hpk. reflexivity.
Qed.

(** X6. A relation whose model is not registered. An object given for a
    relation property whose related model the registry lacks is refused
    with the error of an unknown related model, under any comparer that
    goes to the default case. *)
Theorem unregistered_relation_is_refused
  (propertyName : string) (property : Attribute)
  (comparer : option string) (isNegated : bool) (value : Value) (params : list Value) :
  propertyName <> EmptyString ->
  whereCase (orElse comparer (Some propertyName)) = CaseDefault ->
  lookupAttribute propertyName (attributes schema) = Some property ->
  truthy (attr_model property) = true ->
  modelSchemasByGlobalId !! toLowerCase (default EmptyString (attr_model property)) = None ->
  isObject value = true ->
  _buildWhere modelSchemasByGlobalId schema (Some propertyName) comparer isNegated
    value params
  = Err (RelatedModelNotFound (default EmptyString (attr_model property))).
Proof.
  intros Hne Hcase Hattr Hmodel Hreg Hobject.
  assert (Htruthy : truthy (Some propertyName) = true).
  { simpl. apply negb_true_iff. now apply String.eqb_neq. }
  rewrite _buildWhere_default by exact Hcase.
  unfold whereDefault.
  assert (Hundefined : isUndefined value = false) by (destruct value; easy).
  rewrite Hundefined. unfold bind at 1, hydratedValue. rewrite Htruthy.
  change (default EmptyString (Some propertyName)) with propertyName.
  rewrite Hattr, Hmodel, Hobject. cbn [andb]. now rewrite Hreg.
Qed.

End Comparisons.

(** X1 at [{price: {'!': {'<': 10}}}]: the negated [<] on a float
    column. *)
Lemma comparison_operator_and_its_complement_witness :
  _buildWhere Sample.registry Catalog.item (Some "price") (Some "<") true (VNumber 10) []
  = Ok (quoted "price" +:+ ">=$1", [VNumber 10]).
Proof.
  refine (comparison_operator_and_its_complement Sample.registry Catalog.item "price"
            (Sample.attribute (Some "price") (Some "float") None false) "<" true
            (VNumber 10) [] _ eq_refl _ _ eq_refl eq_refl _).
  - discriminate.
  - discriminate.
  - discriminate.
  - now left.
Defined.

(** X2 at [{meta: {'>': 1}}]: a json column. *)
Lemma comparison_operator_refused_on_array_and_json_witness :
  exists e,
    _buildWhere Sample.registry Catalog.item (Some "meta") (Some ">") false (VNumber 1) []
    = Err e
    /\ e = OperatorNotSupported ">" "json" "meta" "item"
    /\ errorKind e = UnsupportedOperatorError.
Proof.
  refine (comparison_operator_refused_on_array_and_json Sample.registry Catalog.item "meta"
            (Sample.attribute (Some "meta") (Some "json") None false) ">" false
            (VNumber 1) [] _ eq_refl (or_intror eq_refl) eq_refl eq_refl _).
  - discriminate.
  - right. right. now left.
Defined.

(** X3 at [{sku: 'abc'}] on the product of the tests. *)
Lemma property_equals_value_witness :
  _buildWhere Sample.registry Sample.product (Some "sku") None false (VString "abc") []
  = Ok (quoted "sku" +:+ "=$1", [VString "abc"]).
Proof.
  refine (property_equals_value Sample.registry Sample.product "sku"
            (Sample.attribute (Some "sku") (Some "string") None false) false
            (VString "abc") [] _ eq_refl eq_refl eq_refl eq_refl).
  discriminate.
Defined.

(** X4 at the key [colour], which the product lacks. *)
Lemma unknown_property_is_refused_witness :
  _buildWhere Sample.registry Sample.product (Some "colour") None false VNull []
  = Err (PropertyNotFound "colour" "product")
  /\ _buildWhere Sample.registry Sample.product (Some "colour") None false (VArray []) []
     = Ok ("1<>1", []).
Proof.
  destruct (unknown_property_is_refused Sample.registry Sample.product "colour" false [])
    as [Hvalue Hempty]; [discriminate | reflexivity | reflexivity |].
  split; [apply Hvalue; reflexivity | exact Hempty].
Defined.

(** X5 at [{store: {id: 5, name: 'x'}}]. *)
Lemma hydrated_object_compiles_as_its_primary_key_witness :
  _buildWhere Sample.registry Sample.product (Some "store") None false
    (VObject [("id", VNumber 5); ("name", VString "x")]) []
  = _buildWhere Sample.registry Sample.product (Some "store") None false (VNumber 5) [].
Proof.
  refine (hydrated_object_compiles_as_its_primary_key Sample.registry Sample.product
            "store" (Sample.attribute (Some "store_id") None (Some "store") false)
            Sample.store None false (VObject [("id", VNumber 5); ("name", VString "x")]) []
            _ eq_refl eq_refl eq_refl _ eq_refl eq_refl).
  - discriminate.
  - vm_compute. reflexivity.
Defined.

(** X6 at [{maker: {id: 5}}]: the registry has no model [maker]. *)
Lemma unregistered_relation_is_refused_witness :
  _buildWhere Sample.registry Catalog.item (Some "maker") None false
    (VObject [("id", VNumber 5)]) []
  = Err (RelatedModelNotFound "Maker").
Proof.
  refine (unregistered_relation_is_refused Sample.registry Catalog.item
            "maker" (Sample.attribute (Some "maker_id") None (Some "Maker") false)
            None false (VObject [("id", VNumber 5)]) []
            _ eq_refl eq_refl eq_refl _ eq_refl).
  - discriminate.
  - vm_compute. reflexivity.
Defined.

(** ** Array values *)

Lemma filter_isNull_none (items : list Value) :
  forallb (fun item => negb (isNull item)) items = true ->
  List.filter isNull items = []
  /\ List.filter (fun item => negb (isNull item)) items = items.
Proof.
  induction items as [|item items IH]; [now split|].
  cbn [forallb List.filter]. intros [Hitem Hitems]%andb_prop.
  destruct (IH Hitems) as [IH1 IH2]. rewrite Hitem.
  apply negb_true_iff in Hitem. rewrite Hitem. split; [exact IH1 | now rewrite IH2].
Qed.

Section ArrayValues.

Variable modelSchemasByGlobalId : gmap string ModelMetadata.
Variable schema : ModelMetadata.

(** X7. A property given an array of values. For a property of the model
    whose column is not of an array type, an array of two or more values
    none of which is null is bound whole, as one parameter, and the
    column is tested with [=ANY], or [<>ALL] when negated, against its
    placeholder cast by the type of the column. The array is not taken
    for a hydrated relation value. *)
Theorem array_of_values_is_bound_whole
  (propertyName : string) (property : Attribute)
  (isNegated : bool) (items : list Value) (params : list Value) :
  propertyName <> EmptyString ->
  _isComparer propertyName = false ->
  lookupAttribute propertyName (attributes schema) = Some property ->
  isArrayType (loweredType (Some property)) = false ->
  hydratedValue modelSchemasByGlobalId schema (Some propertyName) (VArray items) = Ok None ->
  forallb (fun item => negb (isNull item)) items = true ->
  2 <= length items ->
  _buildWhere modelSchemasByGlobalId schema (Some propertyName) None isNegated
    (VArray items) params
  = Ok (quoted (columnOf propertyName property)
        +:+ (if isNegated then "<>ALL" else "=ANY")
        +:+ "($" +:+ decimal (S (length params))
        +:+ castTypeOf (loweredType (Some property)) +:+ ")",
        params ++ [VArray items]).
Proof.
  intros Hne Hkey Hattr Htype Hhydrated Hitems Hlen.
  rewrite _buildWhere_default by now apply whereCase_property.
  rewrite whereDefault_array by exact Hhydrated.
  destruct (filter_isNull_none items Hitems) as [Hnull Hvalues].
  destruct items as [|a [|b items]]; [simpl in Hlen; lia | simpl in Hlen; lia|].
  unfold whereArray. rewrite Hnull, Hvalues.
  cbn [constraintsOf]. unfold bind at 1, ret at 1. unfold bind at 1.
  unfold bind at 1, lift.
  rewrite (_getColumnName_found _ _ _ Hne Hattr).
  rewrite (arrayAttributeOf_found _ _ _ _ Hne Hattr), Htype.
  unfold bind at 1. rewrite push_length. reflexivity.
Qed.

(** X8. Null among the values of an array. For a property of the model
    that is no relation, an array of null and one plain value compiles,
    wherever the null stands in it, to the IS NULL test followed by the
    comparison of the value: joined with OR inside parentheses, or,
    negated, IS NOT NULL and [<>] joined with AND. Only the value is
    bound. *)
Theorem null_in_array_is_compiled_apart
  (propertyName : string) (property : Attribute)
  (isNegated : bool) (value : Value) (params : list Value) :
  propertyName <> EmptyString ->
  _isComparer propertyName = false ->
  lookupAttribute propertyName (attributes schema) = Some property ->
  truthy (attr_model property) = false ->
  attr_type property <> Some "array" ->
  isObject value = false ->
  isNil value = false ->
  let column := quoted (columnOf propertyName property) in
  let expected :=
    if isNegated
    then String.concat " AND "
           [column +:+ " IS NOT NULL"; column +:+ "<>$" +:+ decimal (S (length params))]
    else "(" +:+ String.concat " OR "
                   [column +:+ " IS NULL"; column +:+ "=$" +:+ decimal (S (length params))]
         +:+ ")" in
  _buildWhere modelSchemasByGlobalId schema (Some propertyName) None isNegated
    (VArray [VNull; value]) params
  = Ok (expected, params ++ [value])
  /\ _buildWhere modelSchemasByGlobalId schema (Some propertyName) None isNegated
       (VArray [value; VNull]) params
     = Ok (expected, params ++ [value]).
Proof.
  intros Hne Hkey Hattr Hmodel Harray Hobject Hnil column expected.
  pose proof Hnil as Hnil'.
  apply orb_false_elim in Hnil' as [Hundefined Hnull].
  assert (Hcase : whereCase (orElse None (Some propertyName)) = CaseDefault)
    by now apply whereCase_property.
  assert (Hhydrated : forall items,
             hydratedValue modelSchemasByGlobalId schema (Some propertyName) (VArray items)
             = Ok None).
  { intros items. unfold hydratedValue.
    destruct (truthy (Some propertyName)); [|reflexivity].
    change (default EmptyString (Some propertyName)) with propertyName.
    now rewrite Hattr, Hmodel. }
  assert (Hnullterm : forall ps,
             _buildWhere modelSchemasByGlobalId schema (Some propertyName) None isNegated
               VNull ps
             = Ok (column +:+ " " +:+ (if isNegated then "IS NOT" else "IS") +:+ " NULL", ps)).
  { intros ps. rewrite _buildWhere_leaf by (reflexivity || assumption).
    unfold _buildComparisonOperatorStatement, bind, lift, ret.
    now rewrite (_getColumnName_found _ _ _ Hne Hattr). }
  assert (Hvalue : forall ps,
             _buildWhere modelSchemasByGlobalId schema (Some propertyName) None isNegated
               value ps
             = Ok (column +:+ (if isNegated then "<>" else "=")
                   +:+ "$" +:+ decimal (S (length ps)), ps ++ [value])).
  { intros ps. rewrite _buildWhere_leaf by (reflexivity || assumption).
    comparison_of_value Hne Hattr Hnull.
    repeat case_bool_decide; try congruence; destruct isNegated; reflexivity. }
  assert (Hboth : forall items,
             List.filter isNull items = [VNull] ->
             List.filter (fun item => negb (isNull item)) items = [value] ->
             items <> [] ->
             _buildWhere modelSchemasByGlobalId schema (Some propertyName) None isNegated
               (VArray items) params
             = Ok (expected, params ++ [value])).
  { intros items Hn Hv Hitems.
    rewrite _buildWhere_default by exact Hcase.
    rewrite whereDefault_array by apply Hhydrated.
    unfold whereArray. destruct items as [|item items]; [congruence|].
    rewrite Hn, Hv. cbn [constraintsOf]. unfold bind, ret.
    rewrite Hnullterm, Hvalue. subst expected column.
    destruct isNegated; cbn [joinClauses app String.concat];
      now rewrite ?append_assoc. }
  split; apply Hboth; cbn [List.filter isNull negb]; rewrite ?Hnull; cbn [negb];
    try reflexivity; discriminate.
Qed.

End ArrayValues.

(** X7 at [{name: ['a', 'b']}] on the product of the tests. *)
Lemma array_of_values_is_bound_whole_witness :
  _buildWhere Sample.registry Sample.product (Some "name") None false
    (VArray [VString "a"; VString "b"]) []
  = Ok (quoted "name" +:+ "=ANY($1::TEXT[])", [VArray [VString "a"; VString "b"]]).
Proof.
  refine (array_of_values_is_bound_whole Sample.registry Sample.product "name"
            (Sample.attribute (Some "name") (Some "string") None false) false
            [VString "a"; VString "b"] [] _ eq_refl eq_refl eq_refl eq_refl eq_refl _).
  - discriminate.
  - simpl. lia.
Defined.

(** X8 at [{sku: [null, 'abc']}] and [{sku: ['abc', null]}]. *)
Lemma null_in_array_is_compiled_apart_witness :
  _buildWhere Sample.registry Sample.product (Some "sku") None false
    (VArray [VNull; VString "abc"]) []
  = Ok ("(" +:+ quoted "sku" +:+ " IS NULL OR " +:+ quoted "sku" +:+ "=$1)",
        [VString "abc"])
  /\ _buildWhere Sample.registry Sample.product (Some "sku") None false
       (VArray [VString "abc"; VNull]) []
     = Ok ("(" +:+ quoted "sku" +:+ " IS NULL OR " +:+ quoted "sku" +:+ "=$1)",
           [VString "abc"]).
Proof.
  refine (null_in_array_is_compiled_apart Sample.registry Sample.product "sku"
            (Sample.attribute (Some "sku") (Some "string") None false) false
            (VString "abc") [] _ eq_refl eq_refl eq_refl _ eq_refl eq_refl).
  - discriminate.
  - discriminate.
Defined.

(** ** Pattern constraints *)

Lemma append_not_empty_r (a : string) (c : ascii) (b : string) :
  String.eqb (a +:+ String c b) EmptyString = false.
Proof. destruct a; reflexivity. Qed.

Lemma mapResult_all {A B : Type} (f : A -> Result B) (g : A -> B) (items : list A) :
  (forall x, In x items -> f x = Ok (g x)) -> mapResult f items = Ok (map g items).
Proof.
  induction items as [|x items IH]; intros H; [reflexivity|].
  simpl. rewrite (H x) by now left. rewrite IH; [reflexivity|].
  intros y Hy. apply H. now right.
Qed.

Lemma mapResult_fails {A B : Type} (f : A -> Result B) (e : Error) (items : list A) :
  (forall x, In x items -> f x = Err e \/ exists y, f x = Ok y) ->
  (exists x, In x items /\ f x = Err e) ->
  mapResult f items = Err e.
Proof.
  induction items as [|x items IH]; intros Hall [y [Hin Hy]]; [destruct Hin|].
  simpl. destruct (Hall x (or_introl eq_refl)) as [Hx|[z Hx]]; rewrite Hx; [reflexivity|].
  rewrite IH; [reflexivity| |].
  - intros w Hw. apply Hall. now right.
  - destruct Hin as [->|Hin]; [congruence|]. now exists y.
Qed.

Section Patterns.

Variable modelSchemasByGlobalId : gmap string ModelMetadata.
Variable schema : ModelMetadata.

(** The like statement of a string that is not empty, on a property of the
    model whose column holds no array of strings. *)
Lemma like_of_string (propertyName : string) (property : Attribute)
  (comparer : option string) (isNegated : bool) (pattern : string) (params : list Value) :
  propertyName <> EmptyString ->
  lookupAttribute propertyName (attributes schema) = Some property ->
  String.eqb (loweredType (Some property)) "array"
  || String.eqb (loweredType (Some property)) "string[]" = false ->
  String.eqb pattern EmptyString = false ->
  whereCase (orElse comparer (Some propertyName)) = CaseLike ->
  _buildWhere modelSchemasByGlobalId schema (Some propertyName) comparer isNegated
    (VString pattern) params
  = Ok (quoted (columnOf propertyName property)
        +:+ (if isNegated then " NOT" else EmptyString)
        +:+ " ILIKE $" +:+ decimal (S (length params)),
        params ++ [VString pattern]).
Proof.
  intros Hne Hattr Htype Hpattern Hcase.
  rewrite _buildWhere_like by exact Hcase.
  unfold _buildLikeOperatorStatement, likeString.
  unfold bind at 1, lift. rewrite (_getColumnName_found _ _ _ Hne Hattr).
  rewrite Hpattern. cbn [negb]. unfold bind at 1. rewrite push_length.
  change (default EmptyString (Some propertyName)) with propertyName.
  rewrite Hattr, Htype. reflexivity.
Qed.

(** X9. contains, startsWith and endsWith on a string. For a property of
    the model whose column holds no array of strings, each binds the
    string with its wildcards ([%s%], [s%], [%s]) as the next parameter
    and matches the column against it with ILIKE, or NOT ILIKE when
    negated; the empty string too, which matches as [%%] or [%]. *)
Theorem pattern_constraints_match_with_ilike
  (propertyName : string) (property : Attribute)
  (isNegated : bool) (s : string) (params : list Value) :
  propertyName <> EmptyString ->
  lookupAttribute propertyName (attributes schema) = Some property ->
  String.eqb (loweredType (Some property)) "array"
  || String.eqb (loweredType (Some property)) "string[]" = false ->
  let matched (pattern : string) :=
    Ok (quoted (columnOf propertyName property)
        +:+ (if isNegated then " NOT" else EmptyString)
        +:+ " ILIKE $" +:+ decimal (S (length params)),
        params ++ [VString pattern]) in
  _buildWhere modelSchemasByGlobalId schema (Some propertyName) (Some "contains")
    isNegated (VString s) params = matched ("%" +:+ s +:+ "%")
  /\ _buildWhere modelSchemasByGlobalId schema (Some propertyName) (Some "startsWith")
       isNegated (VString s) params = matched (s +:+ "%")
  /\ _buildWhere modelSchemasByGlobalId schema (Some propertyName) (Some "endsWith")
       isNegated (VString s) params = matched ("%" +:+ s).
Proof.
  intros Hne Hattr Htype matched.
  split; [|split]; rewrite _buildWhere_unfold; unfold _buildWhereBody;
    cbn [orElse truthy whereCase String.eqb Ascii.eqb Bool.eqb negb orb];
    cbv iota; unfold patternConstraint;
    apply like_of_string; try assumption; try reflexivity.
  apply append_not_empty_r.
Qed.

(** X10. What the pattern constraints refuse. Under contains, startsWith,
    endsWith and like, a value that is neither a string nor an array is
    refused with the error of an invalid constraint that names the
    constraint, whatever the property; so is, under the first three, an
    array with an element that is not a string. Nothing is bound. *)
Theorem pattern_constraints_refuse_other_values
  (propertyName : option string) (constraint : string)
  (isNegated : bool) (params : list Value) :
  In constraint ["contains"; "startsWith"; "endsWith"; "like"] ->
  (forall value,
     isString value = false -> isArray value = false ->
     _buildWhere modelSchemasByGlobalId schema propertyName (Some constraint)
       isNegated value params
     = Err (ExpectedStringValue constraint (shown propertyName) (globalId schema)))
  /\ (forall items,
        constraint <> "like" ->
        existsb (fun item => negb (isString item)) items = true ->
        _buildWhere modelSchemasByGlobalId schema propertyName (Some constraint)
          isNegated (VArray items) params
        = Err (ExpectedStringValues constraint (shown propertyName) (globalId schema))).
Proof.
  intros Hin. simpl in Hin.
  assert (Hitems : forall wrap items,
             existsb (fun item => negb (isString item)) items = true ->
             mapResult
               (fun val =>
                  match val with
                  | VString s => Ok (VString (wrap s))
                  | _ => Err (ExpectedStringValues constraint (shown propertyName)
                                (globalId schema))
                  end) items
             = Err (ExpectedStringValues constraint (shown propertyName) (globalId schema))).
  { intros wrap items Hex. apply mapResult_fails.
    - intros x _. destruct x; eauto.
    - apply existsb_exists in Hex as [x [Hx Hs]]. exists x. split; [exact Hx|].
      destruct x; try reflexivity. discriminate. }
  split.
  - intros value Hs Ha.
    destruct Hin as [<-|[<-|[<-|[<-|[]]]]];
      rewrite _buildWhere_unfold; unfold _buildWhereBody;
      cbn [orElse truthy whereCase String.eqb Ascii.eqb Bool.eqb negb orb];
      cbv iota; unfold patternConstraint, _buildLikeOperatorStatement, likeString;
      destruct value; try discriminate; reflexivity.
  - intros items Hlike Hex.
    destruct Hin as [<-|[<-|[<-|[<-|[]]]]]; try congruence;
      rewrite _buildWhere_unfold; unfold _buildWhereBody;
      cbn [orElse truthy whereCase String.eqb Ascii.eqb Bool.eqb negb orb];
      cbv iota; unfold patternConstraint, bind, lift;
      now rewrite Hitems.
Qed.

(** X11. Patterns that match nothing. Under like, contains, startsWith and
    endsWith the empty array compiles to [1<>1], or [1=1] when negated,
    whatever the property: no column is looked up, an array column is not
    compared with the empty-array literal, and nothing is bound. Under
    like the empty string is compared as a string, with [= ''] or
    [!= ''], and nothing is bound either. *)
Theorem empty_patterns_bind_nothing
  (isNegated : bool) (params : list Value) :
  (forall propertyName constraint,
     In constraint ["contains"; "startsWith"; "endsWith"; "like"] ->
     _buildWhere modelSchemasByGlobalId schema propertyName (Some constraint)
       isNegated (VArray []) params
     = Ok (if isNegated then "1=1" else "1<>1", params))
  /\ (forall propertyName property,
        propertyName <> EmptyString ->
        lookupAttribute propertyName (attributes schema) = Some property ->
        _buildWhere modelSchemasByGlobalId schema (Some propertyName) (Some "like")
          isNegated (VString EmptyString) params
        = Ok (quoted (columnOf propertyName property) +:+ " "
              +:+ (if isNegated then "!=" else "=") +:+ " ''", params)).
Proof.
  split.
  - intros pn constraint Hin. simpl in Hin.
    destruct Hin as [<-|[<-|[<-|[<-|[]]]]];
      rewrite _buildWhere_unfold; unfold _buildWhereBody;
      cbn [orElse truthy whereCase String.eqb Ascii.eqb Bool.eqb negb orb];
      cbv iota; unfold patternConstraint; cbn [mapResult lift]; unfold bind;
      rewrite ?_buildWhere_like by reflexivity; reflexivity.
  - intros p a Hne Hattr. rewrite _buildWhere_like by reflexivity.
    unfold _buildLikeOperatorStatement, likeString, bind, lift, ret.
    now rewrite (_getColumnName_found _ _ _ Hne Hattr).
Qed.

(** X12. like on several strings. For a property of the model whose column
    holds no array of strings, an array of two or more strings of ASCII
    characters is bound as one parameter, with every string in lower
    case, and the column in lower case is tested against it with [=ANY],
    or [<>ALL] when negated. (Outside ASCII the method lowers letters
    that [toLowerCase] leaves as they are.) *)
Theorem like_of_several_strings_is_lowered
  (propertyName : string) (property : Attribute)
  (isNegated : bool) (patterns : list string) (params : list Value) :
  propertyName <> EmptyString ->
  lookupAttribute propertyName (attributes schema) = Some property ->
  String.eqb (loweredType (Some property)) "array"
  || String.eqb (loweredType (Some property)) "string[]" = false ->
  forallb isAscii patterns = true ->
  2 <= length patterns ->
  _buildWhere modelSchemasByGlobalId schema (Some propertyName) (Some "like") isNegated
    (VArray (map VString patterns)) params
  = Ok ("lower(" +:+ quoted (columnOf propertyName property) +:+ ")"
        +:+ (if isNegated then "<>ALL" else "=ANY")
        +:+ "($" +:+ decimal (S (length params)) +:+ "::TEXT[])",
        params ++ [VArray (map (fun s => VString (toLowerCase s)) patterns)]).
Proof.
  intros Hne Hattr Htype _ Hlen. rewrite _buildWhere_like by reflexivity.
  destruct patterns as [|a [|b patterns]]; [simpl in Hlen; lia | simpl in Hlen; lia|].
  unfold _buildLikeOperatorStatement. cbn [map].
  unfold bind at 1, lift.
  rewrite (mapResult_all lowered (fun v => match v with
                                            | VString s => VString (toLowerCase s)
                                            | _ => v
                                            end)).
  - unfold bind at 1. rewrite (_getColumnName_found _ _ _ Hne Hattr).
    unfold bind at 1. rewrite push_length.
    change (default EmptyString (Some propertyName)) with propertyName.
    rewrite Hattr, Htype. cbn [map]. rewrite map_map. reflexivity.
  - intros x Hx.
    change (In x (map VString (a :: b :: patterns))) in Hx.
    apply in_map_iff in Hx as [s [<- _]]. reflexivity.
Qed.

End Patterns.

(** X9 at [{name: {contains: 'oo'}}] and the two other constraints. *)
Lemma pattern_constraints_match_with_ilike_witness :
  _buildWhere Sample.registry Sample.product (Some "name") (Some "contains") false
    (VString "oo") []
  = Ok (quoted "name" +:+ " ILIKE $1", [VString "%oo%"])
  /\ _buildWhere Sample.registry Sample.product (Some "name") (Some "startsWith") false
       (VString "oo") []
     = Ok (quoted "name" +:+ " ILIKE $1", [VString "oo%"])
  /\ _buildWhere Sample.registry Sample.product (Some "name") (Some "endsWith") false
       (VString "oo") []
     = Ok (quoted "name" +:+ " ILIKE $1", [VString "%oo"]).
Proof.
  refine (pattern_constraints_match_with_ilike Sample.registry Sample.product "name"
            (Sample.attribute (Some "name") (Some "string") None false) false "oo" []
            _ eq_refl eq_refl).
  discriminate.
Defined.

(** X10 at [{name: {startsWith: 5}}] and [{name: {startsWith: ['a', 5]}}]. *)
Lemma pattern_constraints_refuse_other_values_witness :
  _buildWhere Sample.registry Sample.product (Some "name") (Some "startsWith") false
    (VNumber 5) []
  = Err (ExpectedStringValue "startsWith" "name" "product")
  /\ _buildWhere Sample.registry Sample.product (Some "name") (Some "startsWith") false
       (VArray [VString "a"; VNumber 5]) []
     = Err (ExpectedStringValues "startsWith" "name" "product").
Proof.
  destruct (pattern_constraints_refuse_other_values Sample.registry Sample.product
              (Some "name") "startsWith" false [])
    as [Hvalue Hitems]; [right; now left|].
  split; [apply Hvalue; reflexivity | apply Hitems; [discriminate | reflexivity]].
Defined.

(** X11 at [{aliases: {contains: []}}], an array column, and at
    [{name: {like: ''}}]. *)
Lemma empty_patterns_bind_nothing_witness :
  _buildWhere Sample.registry Sample.product (Some "aliases") (Some "contains") false
    (VArray []) []
  = Ok ("1<>1", [])
  /\ _buildWhere Sample.registry Sample.product (Some "name") (Some "like") false
       (VString EmptyString) []
     = Ok (quoted "name" +:+ " = ''", []).
Proof.
  destruct (empty_patterns_bind_nothing Sample.registry Sample.product false [])
    as [Harray Hstring].
  split.
  - apply Harray. now left.
  - refine (Hstring "name" (Sample.attribute (Some "name") (Some "string") None false)
              _ eq_refl).
    discriminate.
Defined.

(** X12 at [{name: {like: ['Foo', 'BAR']}}]. *)
Lemma like_of_several_strings_is_lowered_witness :
  _buildWhere Sample.registry Sample.product (Some "name") (Some "like") false
    (VArray [VString "Foo"; VString "BAR"]) []
  = Ok ("lower(" +:+ quoted "name" +:+ ")=ANY($1::TEXT[])",
        [VArray [VString "foo"; VString "bar"]]).
Proof.
  refine (like_of_several_strings_is_lowered Sample.registry Sample.product "name"
            (Sample.attribute (Some "name") (Some "string") None false) false
            ["Foo"; "BAR"] [] _ eq_refl eq_refl eq_refl _).
  - discriminate.
  - simpl. lia.
Defined.

(** ** The recursion ends *)

Section Settles.

Variable modelSchemasByGlobalId : gmap string ModelMetadata.
Variable schema : ModelMetadata.

(** What is at the bottom of the unrolling does not matter once it is
    deeper than the measure. *)
Lemma unrolled_is_buildWhere (bottom : WhereFn) (bound : nat) :
  forall fuel propertyName comparer isNegated value params,
    measure propertyName comparer value < bound ->
    bound <= fuel ->
    unrolled modelSchemasByGlobalId schema bottom fuel
      propertyName comparer isNegated value params
    = _buildWhere modelSchemasByGlobalId schema propertyName comparer isNegated value params.
Proof.
  induction bound as [|bound IH]; intros fuel pn cmp neg v ps Hm Hf; [lia|].
  destruct fuel as [|fuel]; [lia|].
  rewrite _buildWhere_unfold. simpl. apply _buildWhereBody_agree.
  intros pn' cmp' neg' v' ps' Hlt. apply IH; lia.
Qed.

(** Settles a statement that makes no recursive call. *)
Ltac settled_directly :=
  unfold bind, lift, ret, throw, push, _getColumnName;
  repeat match goal with
         | |- Settled ?e =>
             match e with
             | context [match ?x with _ => _ end] =>
                 lazymatch x with
                 | context [match _ with _ => _ end] => fail
                 | _ => destruct x
                 end
             end
         end;
  exact I.

Lemma Settled_mapResult {A B : Type} (f : A -> Result B) (items : list A) :
  (forall x, Settled (f x)) -> Settled (mapResult f items).
Proof.
  intros Hf. induction items as [|x items IH]; simpl; [exact I|].
  specialize (Hf x). destruct (f x); [|exact Hf].
  destruct (mapResult f items); [exact I | exact IH].
Qed.

Lemma Settled_getColumnName (propertyName : option string) :
  Settled (_getColumnName schema propertyName).
Proof. settled_directly. Qed.

Lemma Settled_comparison (propertyName comparer : option string) (isNegated : bool)
  (value : Value) (params : list Value) :
  Settled (_buildComparisonOperatorStatement schema propertyName comparer isNegated
             value params).
Proof. unfold _buildComparisonOperatorStatement. settled_directly. Qed.

Lemma Settled_likeString (propertyName : option string) (isNegated : bool)
  (value : Value) (params : list Value) :
  Settled (likeString schema propertyName isNegated value params).
Proof. unfold likeString. settled_directly. Qed.

Lemma Settled_like (propertyName : option string) (isNegated : bool)
  (value : Value) (params : list Value) :
  Settled (_buildLikeOperatorStatement schema propertyName isNegated value params).
Proof.
  unfold _buildLikeOperatorStatement.
  destruct value as [| | | | | |items|]; try apply Settled_likeString.
  destruct items as [|single [|second items]];
    [exact I | apply Settled_likeString |].
  unfold bind at 1, lift.
  pose proof (Settled_mapResult lowered (single :: second :: items)) as Hm.
  destruct (mapResult lowered _); [|apply Hm; intros []; exact I].
  settled_directly.
Qed.

Variable rec : WhereFn.
Hypothesis rec_settled :
  forall propertyName comparer isNegated value params,
    properName propertyName = true ->
    Settled (rec propertyName comparer isNegated value params).

Lemma Settled_orClausesOf (isNegated : bool) (constraints : list Value)
  (params : list Value) :
  Settled (orClausesOf rec isNegated constraints params).
Proof.
  revert params. induction constraints as [|c constraints IH]; intros params; simpl;
    [exact I|].
  unfold bind, ret.
  pose proof (rec_settled None None isNegated c params eq_refl) as Hc.
  destruct (rec None None isNegated c params) as [[orClause params1]|]; [|exact Hc].
  specialize (IH params1).
  destruct (orClausesOf rec isNegated constraints params1) as [[? ?]|];
    [exact I | exact IH].
Qed.

Lemma Settled_constraintsOf (propertyName : option string) (isNegated : bool)
  (values : list Value) (params : list Value) :
  properName propertyName = true ->
  Settled (constraintsOf rec propertyName isNegated values params).
Proof.
  intros Hpn. revert params.
  induction values as [|val values IH]; intros params; simpl; [exact I|].
  unfold bind, ret.
  pose proof (rec_settled propertyName None isNegated val params Hpn) as Hc.
  destruct (rec propertyName None isNegated val params) as [[constraint params1]|];
    [|exact Hc].
  specialize (IH params1).
  destruct (constraintsOf rec propertyName isNegated values params1) as [[? ?]|];
    [exact I | exact IH].
Qed.

Lemma Settled_andValuesOf (propertyName : option string) (isNegated : bool)
  (entries : list (string * Value)) (params : list Value) :
  properName propertyName = true ->
  Settled (andValuesOf rec propertyName isNegated entries params).
Proof.
  revert propertyName params.
  induction entries as [|[key sub] entries IH]; intros propertyName params Hpn; simpl;
    [exact I|].
  assert (Hnext : properName (if _isComparer key then propertyName else Some key) = true).
  { destruct (_isComparer key) eqn:Hkey; [exact Hpn|].
    unfold properName. now rewrite whereCase_property. }
  unfold bind, ret.
  match goal with
  | |- context [rec ?pn ?cmp isNegated sub params] =>
      pose proof (rec_settled pn cmp isNegated sub params Hnext) as Hc;
      destruct (rec pn cmp isNegated sub params) as [[andValue params1]|]; [|exact Hc]
  end.
  match goal with
  | |- context [andValuesOf rec ?pn isNegated entries ?ps] =>
      specialize (IH pn ps Hnext);
      destruct (andValuesOf rec pn isNegated entries ps) as [[? ?]|];
      [exact I | exact IH]
  end.
Qed.

Lemma Settled_whereArray (propertyName comparer : option string) (isNegated : bool)
  (items : list Value) (params : list Value) :
  properName propertyName = true ->
  Settled (whereArray schema rec propertyName comparer isNegated items params).
Proof.
  intros Hpn. destruct items as [|item items].
  - unfold whereArray. settled_directly.
  - unfold whereArray. set (all := item :: items). unfold bind at 1.
    pose proof (Settled_constraintsOf propertyName isNegated (List.filter isNull all)
                  params Hpn) as Hnull.
    destruct (constraintsOf rec propertyName isNegated (List.filter isNull all) params)
      as [[nullConstraints params1]|]; [|exact Hnull].
    unfold bind at 1.
    destruct (List.filter (fun item => negb (isNull item)) all) as [|a [|b rest]].
    + exact I.
    + unfold bind, ret.
      pose proof (rec_settled propertyName None isNegated a params1 Hpn) as Ha.
      destruct (rec propertyName None isNegated a params1) as [[? ?]|];
        [exact I | exact Ha].
    + unfold bind at 1, lift.
      pose proof (Settled_getColumnName propertyName) as Hc.
      destruct (_getColumnName schema propertyName); [|exact Hc].
      destruct (isArrayType _).
      * pose proof (Settled_constraintsOf propertyName isNegated (a :: b :: rest)
                      params1 Hpn) as Hv.
        destruct (constraintsOf rec propertyName isNegated (a :: b :: rest) params1)
          as [[? ?]|]; [exact I | exact Hv].
      * exact I.
Qed.

Lemma Settled_body (propertyName comparer : option string) (isNegated : bool)
  (value : Value) (params : list Value) :
  properName propertyName = true ->
  Settled (_buildWhereBody modelSchemasByGlobalId schema rec
             propertyName comparer isNegated value params).
Proof.
  intros Hpn.
  assert (Hpattern : forall constraint wrap,
             Settled (patternConstraint schema rec constraint wrap
                        propertyName isNegated value params)).
  { intros constraint wrap. unfold patternConstraint, bind, lift, throw.
    destruct value; try exact I; [now apply rec_settled|].
    match goal with
    | |- context [mapResult ?f items] =>
        pose proof (Settled_mapResult f items) as Hm; destruct (mapResult f items)
    end; [now apply rec_settled|]. apply Hm. intros []; exact I. }
  unfold _buildWhereBody. destruct (whereCase (orElse comparer propertyName)).
  - pose proof Hpn as Hproper. unfold properName in Hpn.
    destruct (whereCase propertyName); try discriminate; now apply rec_settled.
  - unfold _buildOrOperatorStatement, bind, lift, ret.
    destruct (iterate value) as [constraints|] eqn:Hit.
    + pose proof (Settled_orClausesOf isNegated constraints params) as Ho.
      destruct (orClausesOf rec isNegated constraints params) as [[? ?]|];
        [exact I | exact Ho].
    + destruct value; simpl in Hit; inversion Hit; exact I.
  - apply Hpattern.
  - apply Hpattern.
  - apply Hpattern.
  - apply Settled_like.
  - unfold whereDefault. destruct (isUndefined value); [exact I|].
    unfold bind at 1, lift.
    destruct (hydratedValue _ _ _ _) as [[primaryKeyValue|]|] eqn:Hh.
    + now apply rec_settled.
    + destruct value; try apply Settled_comparison; [now apply Settled_whereArray|].
      unfold bind, ret.
      pose proof (Settled_andValuesOf propertyName isNegated entries params Hpn) as Ha.
      destruct (andValuesOf rec propertyName isNegated entries params) as [[? ?]|];
        [exact I | exact Ha].
    + unfold hydratedValue in Hh.
      repeat match type of Hh with
             | context [if ?b then _ else _] => destruct b
             | context [match ?x with _ => _ end] => destruct x
             end; inversion Hh; exact I.
Qed.

End Settles.

Lemma Settled_buildWhere (modelSchemasByGlobalId : gmap string ModelMetadata)
  (schema : ModelMetadata) (propertyName comparer : option string) (isNegated : bool)
  (value : Value) (params : list Value) :
  properName propertyName = true ->
  Settled (_buildWhere modelSchemasByGlobalId schema propertyName comparer isNegated
             value params).
Proof.
  intros Hpn.
  rewrite <- (unrolled_is_buildWhere modelSchemasByGlobalId schema
                (fun _ _ _ _ => throw (TypeError EmptyString))
                (S (measure propertyName comparer value))
                (S (measure propertyName comparer value))) by lia.
  generalize (S (measure propertyName comparer value)) as fuel. intros fuel.
  revert propertyName comparer isNegated value params Hpn.
  induction fuel as [|fuel IH]; intros pn cmp neg v ps Hpn; [exact I|].
  simpl. apply Settled_body; [|exact Hpn]. intros. now apply IH.
Qed.

(** X13. The where compiler comes to an end, when the primary key
    property of every registered schema is [id]. Whatever where value the
    statement builder is given (a finite tree of values), the recursion
    of the compiler stops by itself: the result is a statement or one of
    the errors of the compiler, never [RangeError], which stands here for
    a recursion that goes on until the stack is exhausted. The
    same holds of any call under a property name that is not [!] or
    [not]. The condition on the primary keys keeps the hydrated-relation
    test to properties that a value owns: [id] is inherited by no object,
    array or date, whereas a primary key named [toString], say, is found
    on every object, and on what is found there again, without end. *)
Theorem where_statement_settles
  (modelSchemasByGlobalId : gmap string ModelMetadata) (schema : ModelMetadata)
  (where_ : Value) (params : list Value) :
  (forall name relationSchema,
     modelSchemasByGlobalId !! name = Some relationSchema ->
     getPrimaryKeyPropertyName relationSchema = "id") ->
  _buildWhereStatement modelSchemasByGlobalId schema where_ params <> Err RangeError
  /\ (forall propertyName comparer isNegated,
        properName propertyName = true ->
        _buildWhere modelSchemasByGlobalId schema propertyName comparer isNegated
          where_ params <> Err RangeError).
Proof.
  intros _. split.
  - unfold _buildWhereStatement. destruct (isObject where_); [|discriminate].
    pose proof (Settled_buildWhere modelSchemasByGlobalId schema None (Some "and") false
                  where_ params eq_refl) as H.
    destruct (_buildWhere _ _ _ _ _ _ _) as [[? ?]|]; [discriminate|].
    intros [= ->]. exact H.
  - intros pn cmp neg Hpn H.
    pose proof (Settled_buildWhere modelSchemasByGlobalId schema pn cmp neg
                  where_ params Hpn) as Hs.
    now rewrite H in Hs.
Qed.


(** X13 at [{'!': {store: {id: 5}}}], as a where object and as the value
    of the property [name]; the schemas of the registry have the primary
    key property [id]. *)
Lemma where_statement_settles_witness :
  _buildWhereStatement Sample.registry Sample.product
    (VObject [("!", VObject [("store", VObject [("id", VNumber 5)])])]) []
  <> Err RangeError
  /\ _buildWhere Sample.registry Sample.product (Some "name") None false
       (VObject [("!", VObject [("store", VObject [("id", VNumber 5)])])]) []
     <> Err RangeError.
Proof.
  destruct (where_statement_settles Sample.registry Sample.product
              (VObject [("!", VObject [("store", VObject [("id", VNumber 5)])])]) [])
    as [Hstatement Hcall].
  - intros name relationSchema Hregistered. unfold Sample.registry in Hregistered.
    apply lookup_insert_Some in Hregistered as [[_ <-]|[_ Hregistered]]; [reflexivity|].
    apply lookup_singleton_Some in Hregistered as [_ <-]. reflexivity.
  - split; [exact Hstatement | apply Hcall; reflexivity].
Defined.

(** * The statements *)

(** ** Placeholders of a whole statement *)

Lemma read_selectEntries (model : ModelMetadata) (selection : list string) :
  quotableSelection model selection = true ->
  forall index columns rest,
    selectEntries model index selection = Ok columns ->
    readFrom Outside (columns +:+ rest) = readFrom Outside rest.
Proof.
  induction selection as [|propertyName selection IH]; intros Hq index columns rest.
  - intros [= <-]. now rewrite append_empty_l.
  - cbn [quotableSelection forallb] in Hq.
    apply andb_prop in Hq as [[Hname Hcolumn]%andb_prop Hq].
    cbn [selectEntries].
    destruct (columnsByPropertyName model !! propertyName) as [column|]; [|discriminate].
    destruct (selectEntries model (S index) selection) as [more|] eqn:Hmore; [|discriminate].
    intros [= <-]. specialize (IH Hq _ _ rest Hmore).
    unfold selectEntry.
    destruct (0 <? index)%nat; destruct (negb (String.eqb (col_name column) propertyName));
      read_text; exact IH.
Qed.

(** The RETURNING clause holds no placeholder. *)
Lemma Fragment_returning (model : ModelMetadata) (select : option (list string))
  (columns : string) (n : nat) :
  quotableSelection model (columnsSelected model select) = true ->
  fst (_getColumnsToSelect model select) = Ok columns ->
  Fragment n 0 (" RETURNING " +:+ columns).
Proof.
  intros Hq H rest Hrest. unfold placeholders. cbn [_getColumnsToSelect fst] in H.
  rewrite append_assoc, read_plain by reflexivity.
  now rewrite (read_selectEntries _ _ Hq _ _ rest H).
Qed.

(** The where statement continues the placeholders of the text before
    it. *)
Lemma Fragment_whereStatement (modelSchemasByGlobalId : gmap string ModelMetadata)
  (schema : ModelMetadata) (where_ : Value) (params params' : list Value)
  (whereStatement : option string) (text : string) :
  quotableColumns schema = true ->
  _buildWhereStatement modelSchemasByGlobalId schema where_ params
  = Ok (whereStatement, params') ->
  Fragment 0 (length params) text ->
  Fragment 0 (length params')
    (if truthy whereStatement
     then text +:+ " " +:+ default EmptyString whereStatement else text)
  /\ exists added, params' = params ++ added.
Proof.
  intros Hq H Htext. unfold _buildWhereStatement in H.
  destruct (isObject where_).
  - pose proof (Emits_buildWhere modelSchemasByGlobalId schema Hq None (Some "and") false
                  where_ params) as He.
    destruct (_buildWhere _ _ _ _ _ _ _) as [[sql ps]|]; [|discriminate].
    injection H as <- <-. destruct He as (added & -> & Hf).
    split; [|now exists added].
    rewrite length_app.
    destruct (String.eqb_spec sql EmptyString) as [->|Hne]; cbn [negb truthy].
    + pose proof (Fragment_placeholders _ _ _ Hf) as Hk.
      change (placeholders EmptyString) with (@nil nat) in Hk.
      destruct (length added); [now rewrite Nat.add_0_r | discriminate].
    + change (default EmptyString (Some ("WHERE " +:+ sql))) with ("WHERE " +:+ sql).
      change (String.eqb ("WHERE " +:+ sql) EmptyString) with false. cbn [negb].
      apply Fragment_append; [assumption | | reflexivity].
      apply (Fragment_plain_l _ _ " WHERE "); [reflexivity | assumption].
  - injection H as <- <-. split; [exact Htext | exists []; now rewrite app_nil_r].
Qed.

(** X15. The placeholders of a delete statement. For a schema whose table
    and column names can be quoted, every statement that
    [getDeleteQueryAndParams] returns holds the placeholders [$1 .. $n],
    in this order and once each, where [n] is the number of params
    returned with it. A statement is returned only when records are not
    returned: it has no RETURNING clause. *)
Theorem delete_placeholders_follow_params
  (modelSchemasByGlobalId : gmap string ModelMetadata) (schema : ModelMetadata)
  (where_ : Value) (returnRecords : bool) (returnSelect : option (list string))
  (result : QueryAndParams) :
  noQuote (tableName schema) = true ->
  quotableColumns schema = true ->
  getDeleteQueryAndParams modelSchemasByGlobalId schema where_ returnRecords returnSelect
  = Ok result ->
  returnRecords = false
  /\ placeholders (query result) = seq 1 (length (params result)).
Proof.
  intros Htable Hq. unfold getDeleteQueryAndParams.
  destruct (_buildWhereStatement _ _ _ _) as [[whereStatement ps]|] eqn:Hw; [|discriminate].
  assert (Hf : Fragment 0 (length ps)
                 (if truthy whereStatement
                  then ("DELETE FROM " +:+ quoted (tableName schema))
                       +:+ " " +:+ default EmptyString whereStatement
                  else "DELETE FROM " +:+ quoted (tableName schema))).
  { refine (proj1 (Fragment_whereStatement _ _ _ _ _ _ _ Hq Hw _)).
    intros rest Hrest. unfold placeholders. read_text. reflexivity. }
  destruct returnRecords; [discriminate|].
  intros [= <-]. cbn [query params]. split; [reflexivity|].
  now apply Fragment_placeholders.
Qed.

(** X15 at the delete of the products [{id: [1, 2], store: 5}], no
    records returned. *)
Lemma delete_placeholders_follow_params_witness :
  exists result,
    getDeleteQueryAndParams Sample.registry Sample.product
      (VObject [("id", VArray [VNumber 1; VNumber 2]); ("store", VNumber 5)])
      false None
    = Ok result
    /\ length (params result) = 2
    /\ placeholders (query result) = seq 1 (length (params result)).
Proof.
  eexists. split; [vm_compute; reflexivity|]. split; [reflexivity|].
  apply (delete_placeholders_follow_params Sample.registry Sample.product
           (VObject [("id", VArray [VNumber 1; VNumber 2]); ("store", VNumber 5)])
           false None);
    vm_compute; reflexivity.
Defined.

(** ** The params only grow *)

Lemma Grows_ret {A : Type} (a : A) (params : list Value) : Grows params (ret a params).
Proof. exists []. now rewrite app_nil_r. Qed.

Lemma Grows_throw {A : Type} (e : Error) (params : list Value) :
  Grows params (@throw A e params).
Proof. exact I. Qed.

Lemma Grows_lift {A : Type} (r : Result A) (params : list Value) :
  Grows params (lift r params).
Proof. destruct r; [apply Grows_ret | exact I]. Qed.

Lemma Grows_push (value : Value) (params : list Value) : Grows params (push value params).
Proof. now exists [value]. Qed.

Lemma Grows_bind {A B : Type} (m : Builder A) (k : A -> Builder B) (params : list Value) :
  Grows params (m params) ->
  (forall a params', Grows params' (k a params')) ->
  Grows params (bind m k params).
Proof.
  intros Hm Hk. unfold bind. destruct (m params) as [[a params1]|]; [|exact I].
  destruct Hm as [added1 ->]. specialize (Hk a (params ++ added1)).
  destruct (k a (params ++ added1)) as [[b params2]|]; [|exact I].
  destruct Hk as [added2 ->]. exists (added1 ++ added2). now rewrite app_assoc.
Qed.

(** Follows a builder through its binds and its case distinctions. *)
Ltac grows :=
  cbv zeta;
  repeat first
    [ apply Grows_ret
    | apply Grows_throw
    | apply Grows_lift
    | apply Grows_push
    | match goal with H : context [Grows] |- _ => apply H end
    | apply Grows_bind; [|intros ? ?]
    | match goal with
      | |- Grows _ ((if ?b then _ else _) _) => destruct b
      | |- Grows _ (match ?x with _ => _ end _) => destruct x
      end ].

Section OnlyGrows.

Variable modelSchemasByGlobalId : gmap string ModelMetadata.
Variable schema : ModelMetadata.

Lemma Grows_comparison (propertyName comparer : option string) (isNegated : bool)
  (value : Value) (params : list Value) :
  Grows params
    (_buildComparisonOperatorStatement schema propertyName comparer isNegated value params).
Proof. unfold _buildComparisonOperatorStatement. grows. Qed.

Lemma Grows_likeString (propertyName : option string) (isNegated : bool)
  (value : Value) (params : list Value) :
  Grows params (likeString schema propertyName isNegated value params).
Proof. unfold likeString. grows. Qed.

Lemma Grows_like (propertyName : option string) (isNegated : bool)
  (value : Value) (params : list Value) :
  Grows params (_buildLikeOperatorStatement schema propertyName isNegated value params).
Proof.
  unfold _buildLikeOperatorStatement.
  destruct value as [| | | | | |items|]; try apply Grows_likeString.
  destruct items as [|single [|second items]];
    [apply Grows_ret | apply Grows_likeString | grows].
Qed.

Variable rec : WhereFn.
Hypothesis rec_grows :
  forall propertyName comparer isNegated value params,
    Grows params (rec propertyName comparer isNegated value params).

Lemma Grows_orClausesOf (isNegated : bool) (constraints : list Value) :
  forall params, Grows params (orClausesOf rec isNegated constraints params).
Proof.
  induction constraints as [|c constraints IH]; intros params; cbn [orClausesOf]; grows.
Qed.

Lemma Grows_constraintsOf (propertyName : option string) (isNegated : bool)
  (values : list Value) :
  forall params, Grows params (constraintsOf rec propertyName isNegated values params).
Proof.
  induction values as [|val values IH]; intros params; cbn [constraintsOf]; grows.
Qed.

Lemma Grows_andValuesOf (isNegated : bool) (entries : list (string * Value)) :
  forall propertyName params,
    Grows params (andValuesOf rec propertyName isNegated entries params).
Proof.
  induction entries as [|[key sub] entries IH]; intros propertyName params;
    cbn [andValuesOf]; grows.
Qed.

Lemma Grows_whereArray (propertyName comparer : option string) (isNegated : bool)
  (items : list Value) (params : list Value) :
  Grows params (whereArray schema rec propertyName comparer isNegated items params).
Proof.
  unfold whereArray. destruct items as [|item items]; [grows|].
  apply Grows_bind; [apply Grows_constraintsOf | intros nullConstraints params1].
  apply Grows_bind; [|intros; apply Grows_ret].
  destruct (List.filter _ (item :: items)) as [|a [|b others]]; grows.
  apply Grows_constraintsOf.
Qed.

Lemma Grows_body (propertyName comparer : option string) (isNegated : bool)
  (value : Value) (params : list Value) :
  Grows params
    (_buildWhereBody modelSchemasByGlobalId schema rec propertyName comparer isNegated
       value params).
Proof.
  assert (Hpattern : forall constraint wrap,
             Grows params
               (patternConstraint schema rec constraint wrap propertyName isNegated
                  value params)).
  { intros constraint wrap. unfold patternConstraint. destruct value; grows. }
  unfold _buildWhereBody.
  destruct (whereCase (orElse comparer propertyName)); try apply Hpattern.
  - destruct (whereCase propertyName); solve [grows | apply rec_grows].
  - unfold _buildOrOperatorStatement. grows. apply Grows_orClausesOf.
  - apply Grows_like.
  - unfold whereDefault. destruct (isUndefined value); [exact I|].
    apply Grows_bind; [apply Grows_lift | intros hydrated params1].
    destruct hydrated as [primaryKeyValue|]; [apply rec_grows|].
    destruct value; try apply Grows_comparison; [apply Grows_whereArray|].
    apply Grows_bind; [apply Grows_andValuesOf | intros; apply Grows_ret].
Qed.

End OnlyGrows.

(** Whatever the model, the where compiler only adds to [params]. *)
Lemma Grows_buildWhere (modelSchemasByGlobalId : gmap string ModelMetadata)
  (schema : ModelMetadata) (propertyName comparer : option string) (isNegated : bool)
  (value : Value) (params : list Value) :
  Grows params
    (_buildWhere modelSchemasByGlobalId schema propertyName comparer isNegated value params).
Proof.
  unfold _buildWhere. generalize (S (measure propertyName comparer value)) as fuel.
  intros fuel. revert propertyName comparer isNegated value params.
  induction fuel as [|fuel IH]; intros pn cmp neg v ps; [exact I|].
  cbn [_buildWhereWithin]. apply Grows_body. exact IH.
Qed.

Lemma Grows_buildWhereStatement (modelSchemasByGlobalId : gmap string ModelMetadata)
  (schema : ModelMetadata) (where_ : Value) (params : list Value) :
  Grows params (_buildWhereStatement modelSchemasByGlobalId schema where_ params).
Proof.
  unfold _buildWhereStatement. destruct (isObject where_); [|apply Grows_ret].
  pose proof (Grows_buildWhere modelSchemasByGlobalId schema None (Some "and") false
                where_ params) as H.
  destruct (_buildWhere _ _ _ _ _ _ _) as [[sql params']|]; [exact H | exact I].
Qed.

(** ** UPDATE *)

Section UpdateStatements.

Variable now : Z.
Variable JSON_stringify : Value -> string.
Variable modelSchemasByGlobalId : gmap string ModelMetadata.
Variable schema : ModelMetadata.
Variable autoUpdatedAt : bool.
Variable collections : list string.

Lemma EmitsApart_intro (params : list Value) (sql : string) (params' : list Value) :
  Emits params (Ok (sql, params')) -> noLeadingDigit sql = true ->
  EmitsApart params (Ok (sql, params')).
Proof. intros He Hd. now split. Qed.

(** The value of an assignment binds at most one parameter. *)
Lemma Emits_updateValue (propertyName : string) (property : Attribute) (value : Value)
  (params : list Value) :
  EmitsApart params
    (updateValue JSON_stringify modelSchemasByGlobalId schema propertyName property value
       params).
Proof.
  unfold updateValue. destruct (isNil value).
  - apply EmitsApart_intro; [unfold ret; emits_leaf | reflexivity].
  - unfold bind.
    destruct (truthy (attr_model property) && isObject value).
    + destruct (modelSchemasByGlobalId !! _) as [relationSchema|]; [|exact I].
      destruct (isUndefined _); [exact I|].
      rewrite push_length. unfold ret.
      destruct (bool_decide (attr_type property = Some "json") && isArray value);
        (apply EmitsApart_intro; [emits_leaf | reflexivity]).
    + destruct (bool_decide (attr_type property = Some "json") && isArray value);
        rewrite push_length; unfold ret;
        (apply EmitsApart_intro; [emits_leaf | reflexivity]).
Qed.

(** The SET list holds one placeholder for each value it binds, in
    order. *)
Lemma Emits_updateAssignments (entries : list (string * Value)) :
  quotableColumns schema = true ->
  forall isFirstProperty params,
    EmitsApart params
      (updateAssignments JSON_stringify modelSchemasByGlobalId schema collections
         isFirstProperty entries params).
Proof.
  intros Hq. induction entries as [|[propertyName value] entries IH];
    intros isFirstProperty params.
  - apply EmitsApart_intro; [unfold updateAssignments, ret; emits_leaf | reflexivity].
  - cbn [updateAssignments].
    destruct (lookupAttribute propertyName (attributes schema)) as [property|]; [|apply IH].
    destruct (negb (bool_decide (propertyName ∈ collections))); [|apply IH].
    unfold bind at 1. unfold lift.
    destruct (_getColumnName schema (Some propertyName)) as [columnName|] eqn:Hcolumn;
      [|exact I].
    apply (_getColumnName_noQuote schema Hq) in Hcolumn.
    unfold bind at 1.
    pose proof (Emits_updateValue propertyName property value params) as Hvalue.
    destruct (updateValue _ _ _ _ _ _ _) as [[assigned params1]|]; [|exact I].
    destruct Hvalue as [(added1 & -> & Hassigned) Hdigit].
    unfold bind at 1.
    pose proof (IH false (params ++ added1)) as Hmore.
    destruct (updateAssignments _ _ _ _ _ _ _) as [[more params2]|]; [|exact I].
    destruct Hmore as [(added2 & -> & Hmore) Hdigit']. unfold ret. split.
    + exists (added1 ++ added2). split; [now rewrite app_assoc|].
      rewrite length_app in Hmore.
      intros rest Hrest. unfold placeholders.
      destruct isFirstProperty; read_text;
        (rewrite <- append_assoc;
         change (readFrom Outside ((assigned +:+ more) +:+ rest))
           with (placeholders ((assigned +:+ more) +:+ rest));
         rewrite append_assoc;
         rewrite Hassigned by now apply noLeadingDigit_append);
        rewrite Hmore by assumption;
        now rewrite length_app, seq_app, <- app_assoc.
    + now destruct isFirstProperty.
Qed.


(** X16. The placeholders of an update statement. For a schema whose table
    and column names can be quoted, every statement that
    [getUpdateQueryAndParams] returns holds the placeholders [$1 .. $n],
    in this order and once each, where [n] is the number of params
    returned with it: the where statement goes on counting where the SET
    list stopped. A statement is returned only when records are not
    returned: it has no RETURNING clause. *)
Theorem update_placeholders_follow_params
  (where_ : Value) (values : Entity) (returnRecords : bool)
  (returnSelect : option (list string)) (result : QueryAndParams) :
  noQuote (tableName schema) = true ->
  quotableColumns schema = true ->
  getUpdateQueryAndParams now JSON_stringify modelSchemasByGlobalId schema autoUpdatedAt
    collections where_ values returnRecords returnSelect = Ok result ->
  returnRecords = false
  /\ placeholders (query result) = seq 1 (length (params result)).
Proof.
  intros Htable Hq. unfold getUpdateQueryAndParams.
  pose proof (Emits_updateAssignments (stamped now autoUpdatedAt values) Hq true [])
    as Hset.
  destruct (updateAssignments _ _ _ _ _ _ _) as [[assignments ps]|]; [|discriminate].
  destruct Hset as [(added & -> & Hset) _]. rewrite app_nil_l in *.
  destruct (_buildWhereStatement _ _ _ _) as [[whereStatement ps]|] eqn:Hw; [|discriminate].
  assert (Hf : Fragment 0 (length ps)
                 (if truthy whereStatement
                  then ("UPDATE " +:+ quoted (tableName schema) +:+ " SET " +:+ assignments)
                       +:+ " " +:+ default EmptyString whereStatement
                  else "UPDATE " +:+ quoted (tableName schema) +:+ " SET " +:+ assignments)).
  { refine (proj1 (Fragment_whereStatement _ _ _ _ _ _ _ Hq Hw _)).
    intros rest Hrest. unfold placeholders. read_text.
    now apply Hset. }
  destruct returnRecords; [discriminate|].
  intros [= <-]. cbn [query params]. split; [reflexivity|].
  now apply Fragment_placeholders.
Qed.

(** *** What an update does not assign *)

Lemma updateAssignments_assignable (entries : list (string * Value)) :
  forall isFirstProperty params,
    updateAssignments JSON_stringify modelSchemasByGlobalId schema collections
      isFirstProperty entries params
    = updateAssignments JSON_stringify modelSchemasByGlobalId schema collections
        isFirstProperty
        (List.filter (fun entry => assignable schema collections (fst entry)) entries)
        params.
Proof.
  induction entries as [|[propertyName value] entries IH]; intros isFirstProperty params;
    [reflexivity|].
  cbn [updateAssignments List.filter fst]. unfold assignable at 1.
  destruct (lookupAttribute propertyName (attributes schema)) as [property|] eqn:Hattr;
    [|apply IH].
  destruct (negb (bool_decide (propertyName ∈ collections))) eqn:Hcollection; [|apply IH].
  cbn [updateAssignments]. rewrite Hattr, Hcollection.
  unfold bind.
  destruct (lift _ params) as [[columnName params1]|]; [|reflexivity].
  destruct (updateValue _ _ _ _ _ _ params1) as [[assigned params2]|]; [|reflexivity].
  now rewrite IH.
Qed.

Lemma filter_assignable_twice (entries : list (string * Value)) :
  List.filter (fun entry => assignable schema collections (fst entry))
    (List.filter (fun entry => assignable schema collections (fst entry)) entries)
  = List.filter (fun entry => assignable schema collections (fst entry)) entries.
Proof.
  induction entries as [|[k v] entries IH]; [reflexivity|]. cbn [List.filter fst].
  destruct (assignable schema collections k) eqn:Hk; [|exact IH].
  cbn [List.filter fst]. now rewrite Hk, IH.
Qed.

Lemma lookupEntry_assignable (key : string) (entries : list (string * Value)) :
  lookupEntry key
    (List.filter (fun entry => assignable schema collections (fst entry)) entries)
  = if assignable schema collections key then lookupEntry key entries else None.
Proof.
  induction entries as [|[k v] entries IH];
    [now destruct (assignable schema collections key)|].
  cbn [List.filter fst lookupEntry].
  destruct (String.eqb_spec k key) as [->|Hne].
  - destruct (assignable schema collections key) eqn:Hkey; [|exact IH].
    cbn [lookupEntry]. now rewrite String.eqb_refl.
  - destruct (assignable schema collections k); [|exact IH].
    cbn [lookupEntry]. apply String.eqb_neq in Hne. rewrite Hne. exact IH.
Qed.

Lemma setProperty_assignable (key : string) (value : Value) (entries : Entity) :
  List.filter (fun entry => assignable schema collections (fst entry))
    (setProperty key value entries)
  = if assignable schema collections key
    then setProperty key value
           (List.filter (fun entry => assignable schema collections (fst entry)) entries)
    else List.filter (fun entry => assignable schema collections (fst entry)) entries.
Proof.
  induction entries as [|[k v] entries IH].
  - cbn [setProperty List.filter fst]. now destruct (assignable schema collections key).
  - cbn [setProperty]. destruct (String.eqb_spec k key) as [->|Hne].
    + cbn [List.filter fst]. destruct (assignable schema collections key); [|reflexivity].
      cbn [setProperty]. now rewrite String.eqb_refl.
    + cbn [List.filter fst]. rewrite IH.
      destruct (assignable schema collections k), (assignable schema collections key);
        try reflexivity.
      cbn [setProperty]. apply String.eqb_neq in Hne. now rewrite Hne.
Qed.

Lemma stamped_assignable (values : Entity) :
  List.filter (fun entry => assignable schema collections (fst entry))
    (stamped now autoUpdatedAt values)
  = List.filter (fun entry => assignable schema collections (fst entry))
      (stamped now autoUpdatedAt
         (List.filter (fun entry => assignable schema collections (fst entry)) values)).
Proof.
  unfold stamped, propertyOf. rewrite lookupEntry_assignable.
  destruct autoUpdatedAt; cbn [andb]; [|now rewrite filter_assignable_twice].
  destruct (assignable schema collections "updatedAt") eqn:Hkey.
  - destruct (isUndefined (default VUndefined (lookupEntry "updatedAt" values))).
    + now rewrite !setProperty_assignable, Hkey, filter_assignable_twice.
    + now rewrite filter_assignable_twice.
  - cbn [default isUndefined]. rewrite setProperty_assignable, Hkey.
    rewrite filter_assignable_twice.
    destruct (isUndefined (default VUndefined (lookupEntry "updatedAt" values)));
      [|reflexivity].
    now rewrite setProperty_assignable, Hkey.
Qed.

(** X17. What an update does not assign, it ignores. The entries of
    [values] whose key is no attribute of the schema, or the attribute of
    a collection, leave no trace: the statement and the params are those
    of the update of the other entries alone. *)
Theorem update_ignores_what_it_does_not_assign
  (where_ : Value) (values : Entity) (returnRecords : bool)
  (returnSelect : option (list string)) :
  getUpdateQueryAndParams now JSON_stringify modelSchemasByGlobalId schema autoUpdatedAt
    collections where_ values returnRecords returnSelect
  = getUpdateQueryAndParams now JSON_stringify modelSchemasByGlobalId schema autoUpdatedAt
      collections where_
      (List.filter (fun entry => assignable schema collections (fst entry)) values)
      returnRecords returnSelect.
Proof.
  unfold getUpdateQueryAndParams.
  rewrite (updateAssignments_assignable (stamped now autoUpdatedAt values)).
  rewrite (updateAssignments_assignable (stamped now autoUpdatedAt (List.filter _ values))).
  now rewrite stamped_assignable.
Qed.

(** *** Values of an update *)

Lemma setProperty_keeps (key : string) (value : Value) (entity : Entity)
  (propertyName : string) (v : Value) :
  In (propertyName, v) entity ->
  isUndefined v = false ->
  isUndefined (propertyOf entity key) = true ->
  In (propertyName, v) (setProperty key value entity).
Proof.
  unfold propertyOf. induction entity as [|[k x] entity IH]; [intros []|].
  cbn [setProperty lookupEntry]. intros Hin Hv.
  destruct (String.eqb k key).
  - change (default VUndefined (Some x)) with x. intros Hx.
    destruct Hin as [[= -> ->]|Hin]; [congruence | now right].
  - intros Hkey. destruct Hin as [Hin|Hin]; [now left | right; now apply IH].
Qed.

Lemma stamped_keeps (values : Entity) (propertyName : string) (v : Value) :
  In (propertyName, v) values ->
  isUndefined v = false ->
  In (propertyName, v) (stamped now autoUpdatedAt values).
Proof.
  intros Hin Hv. unfold stamped.
  destruct (autoUpdatedAt && isUndefined (propertyOf values "updatedAt")) eqn:Hstamp;
    [|exact Hin].
  apply andb_prop in Hstamp as [_ Hundefined]. now apply setProperty_keeps.
Qed.

Lemma updateAssignments_grows (entries : list (string * Value)) :
  forall isFirstProperty params text params',
    updateAssignments JSON_stringify modelSchemasByGlobalId schema collections
      isFirstProperty entries params = Ok (text, params') ->
    exists added, params' = params ++ added.
Proof.
  induction entries as [|[propertyName value] entries IH];
    intros isFirstProperty params text params'.
  - intros [= <- <-]. exists []. now rewrite app_nil_r.
  - cbn [updateAssignments].
    destruct (lookupAttribute propertyName (attributes schema)) as [property|]; [|apply IH].
    destruct (negb (bool_decide (propertyName ∈ collections))); [|apply IH].
    unfold bind at 1. unfold lift.
    destruct (_getColumnName schema (Some propertyName)) as [columnName|]; [|discriminate].
    unfold bind at 1.
    pose proof (Emits_updateValue propertyName property value params) as Hvalue.
    destruct (updateValue _ _ _ _ _ _ _) as [[assigned params1]|]; [|discriminate].
    destruct Hvalue as [(added1 & -> & _) _].
    unfold bind at 1.
    destruct (updateAssignments _ _ _ _ _ _ _) as [[more params2]|] eqn:Hmore;
      [|discriminate].
    intros [= <- <-]. destruct (IH _ _ _ _ Hmore) as (added2 & ->).
    exists (added1 ++ added2). now rewrite app_assoc.
Qed.

(** X18. A hydrated relation value without its primary key. If some entry
    of [values] assigns a relation property, whose related model is
    registered, an object in which the primary key property of the
    related model is undefined, the update is refused: no statement is
    returned, whatever the where value and the other entries. *)
Theorem update_refuses_hydrated_object_without_primary_key
  (where_ : Value) (values : Entity) (returnRecords : bool)
  (returnSelect : option (list string))
  (propertyName : string) (property : Attribute) (relationSchema : ModelMetadata)
  (value : Value) :
  In (propertyName, value) values ->
  lookupAttribute propertyName (attributes schema) = Some property ->
  propertyName ∉ collections ->
  truthy (attr_model property) = true ->
  modelSchemasByGlobalId !! toLowerCase (default EmptyString (attr_model property))
  = Some relationSchema ->
  isObject value = true ->
  isUndefined (getProperty value (getPrimaryKeyPropertyName relationSchema)) = true ->
  exists e,
    getUpdateQueryAndParams now JSON_stringify modelSchemasByGlobalId schema autoUpdatedAt
      collections where_ values returnRecords returnSelect = Err e.
Proof.
  intros Hin Hattr Hcollection Hmodel Hregistered Hobject Hkey.
  assert (Hvalue : isUndefined value = false) by (destruct value; easy).
  assert (Hnil : isNil value = false) by (destruct value; easy).
  apply (stamped_keeps values) in Hin; [|exact Hvalue].
  assert (Hloop : forall entries, In (propertyName, value) entries ->
            forall isFirstProperty params, exists e,
              updateAssignments JSON_stringify modelSchemasByGlobalId schema collections
                isFirstProperty entries params = Err e).
  { induction entries as [|[k x] entries IH]; [intros []|].
    intros [[= -> ->]|Hrest] isFirstProperty params.
    - cbn [updateAssignments]. rewrite Hattr. rewrite bool_decide_eq_false_2 by assumption.
      cbn [negb]. unfold bind at 1. unfold lift.
      destruct (_getColumnName schema (Some propertyName)); [|eauto].
      unfold bind at 1. unfold updateValue. rewrite Hnil, Hmodel, Hobject. cbn [andb].
      unfold bind at 1. rewrite Hregistered, Hkey. unfold throw. eauto.
    - cbn [updateAssignments].
      destruct (lookupAttribute k (attributes schema)) as [attribute|]; [|now apply IH].
      destruct (negb (bool_decide (k ∈ collections))); [|now apply IH].
      unfold bind at 1.
      destruct (lift _ params) as [[columnName params1]|]; [|eauto].
      unfold bind at 1.
      destruct (updateValue _ _ _ _ _ _ params1) as [[assigned params2]|]; [|eauto].
      unfold bind at 1.
      destruct (IH Hrest false params2) as [e ->]. eauto. }
  unfold getUpdateQueryAndParams.
  destruct (Hloop _ Hin true []) as [e ->]. eauto.
Qed.

(** X19. The stamp of an update. When the schema sets [updatedAt] by
    itself, [values] leaves it undefined and [updatedAt] is a property
    that an update assigns, every statement that is returned binds the
    current date. *)
Theorem update_binds_the_current_date
  (where_ : Value) (values : Entity) (returnRecords : bool)
  (returnSelect : option (list string)) (result : QueryAndParams) :
  autoUpdatedAt = true ->
  isUndefined (propertyOf values "updatedAt") = true ->
  assignable schema collections "updatedAt" = true ->
  getUpdateQueryAndParams now JSON_stringify modelSchemasByGlobalId schema autoUpdatedAt
    collections where_ values returnRecords returnSelect = Ok result ->
  In (VDate now) (params result).
Proof.
  intros Hauto Hundefined Hassignable.
  assert (Hin : In ("updatedAt", VDate now) (stamped now autoUpdatedAt values)).
  { unfold stamped. rewrite Hauto, Hundefined. cbn [andb].
    clear. induction values as [|[k v] entity IH]; [now left|].
    cbn [setProperty]. destruct (String.eqb_spec k "updatedAt") as [->|_];
      [now left | now right]. }
  assert (Hloop : forall entries, In ("updatedAt", VDate now) entries ->
            forall isFirstProperty params text params',
              updateAssignments JSON_stringify modelSchemasByGlobalId schema collections
                isFirstProperty entries params = Ok (text, params') ->
              In (VDate now) params').
  { unfold assignable in Hassignable.
    destruct (lookupAttribute "updatedAt" (attributes schema)) as [property|] eqn:Hattr;
      [|discriminate].
    induction entries as [|[k x] entries IH]; [intros []|].
    intros [[= -> ->]|Hrest] isFirstProperty params text params'.
    - cbn [updateAssignments]. rewrite Hattr, Hassignable.
      unfold bind at 1.
      destruct (lift _ params) as [[columnName params1]|] eqn:Hcolumn; [|discriminate].
      assert (params1 = params) as ->.
      { unfold lift in Hcolumn. destruct (_getColumnName _ _); congruence. }
      unfold bind at 1. unfold updateValue. cbn [isNil isUndefined isNull orb isArray isObject].
      rewrite andb_false_r, andb_true_r. unfold bind at 1.
      destruct (truthy (attr_model property)).
      + destruct (modelSchemasByGlobalId !! _); discriminate.
      + rewrite push_length. unfold ret at 1. unfold bind at 1.
        destruct (updateAssignments _ _ _ _ _ _ _) as [[more params2]|] eqn:Hmore;
          [|discriminate].
        intros [= <- <-]. apply updateAssignments_grows in Hmore as [added ->].
        apply in_or_app. left. apply in_or_app. right. now left.
    - cbn [updateAssignments].
      destruct (lookupAttribute k (attributes schema)) as [attribute|]; [|now apply IH].
      destruct (negb (bool_decide (k ∈ collections))); [|now apply IH].
      unfold bind at 1.
      destruct (lift _ params) as [[columnName params1]|]; [|discriminate].
      unfold bind at 1.
      destruct (updateValue _ _ _ _ _ _ params1) as [[assigned params2]|]; [|discriminate].
      unfold bind at 1.
      destruct (updateAssignments _ _ _ _ _ _ _) as [[more params3]|] eqn:Hmore;
        [|discriminate].
      intros [= <- <-]. exact (IH Hrest _ _ _ _ Hmore). }
  unfold getUpdateQueryAndParams.
  destruct (updateAssignments _ _ _ _ _ _ _) as [[assignments ps]|] eqn:Hset;
    [|discriminate].
  apply (Hloop _ Hin) in Hset.
  destruct (_buildWhereStatement _ _ _ _) as [[whereStatement ps']|] eqn:Hw; [|discriminate].
  assert (Hps : In (VDate now) ps').
  { pose proof (Grows_buildWhereStatement modelSchemasByGlobalId schema where_ ps) as Hg.
    rewrite Hw in Hg. destruct Hg as [added ->]. apply in_or_app. now left. }
  destruct returnRecords; [discriminate|]. now intros [= <-].
Qed.

(** X20. A hydrated relation value whose primary key is null, in an
    update. If some entry of [values] assigns a relation property, whose
    related model is registered, an object in which the primary key
    property of the related model is null, the update is not refused on
    that account: every statement that is returned binds null for it. *)
Theorem update_binds_null_primary_key
  (where_ : Value) (values : Entity) (returnRecords : bool)
  (returnSelect : option (list string))
  (propertyName : string) (property : Attribute) (relationSchema : ModelMetadata)
  (value : Value) (result : QueryAndParams) :
  In (propertyName, value) values ->
  lookupAttribute propertyName (attributes schema) = Some property ->
  propertyName ∉ collections ->
  truthy (attr_model property) = true ->
  modelSchemasByGlobalId !! toLowerCase (default EmptyString (attr_model property))
  = Some relationSchema ->
  isObject value = true ->
  getProperty value (getPrimaryKeyPropertyName relationSchema) = VNull ->
  getUpdateQueryAndParams now JSON_stringify modelSchemasByGlobalId schema autoUpdatedAt
    collections where_ values returnRecords returnSelect = Ok result ->
  In VNull (params result).
Proof.
  intros Hin Hattr Hcollection Hmodel Hregistered Hobject Hkey.
  assert (Hvalue : isUndefined value = false) by (destruct value; easy).
  assert (Hnil : isNil value = false) by (destruct value; easy).
  apply (stamped_keeps values) in Hin; [|exact Hvalue].
  assert (Hloop : forall entries, In (propertyName, value) entries ->
            forall isFirstProperty params text params',
              updateAssignments JSON_stringify modelSchemasByGlobalId schema collections
                isFirstProperty entries params = Ok (text, params') ->
              In VNull params').
  { induction entries as [|[k x] entries IH]; [intros []|].
    intros [[= -> ->]|Hrest] isFirstProperty params text params'.
    - cbn [updateAssignments]. rewrite Hattr. rewrite bool_decide_eq_false_2 by assumption.
      cbn [negb]. unfold bind at 1.
      destruct (lift _ params) as [[columnName params1]|] eqn:Hcolumn; [|discriminate].
      assert (params1 = params) as ->.
      { unfold lift in Hcolumn. destruct (_getColumnName _ _); congruence. }
      unfold bind at 1. unfold updateValue. rewrite Hnil, Hmodel, Hobject. cbn [andb].
      unfold bind at 1. rewrite Hregistered, Hkey. cbn [isUndefined].
      rewrite push_length. unfold ret at 1. unfold bind at 1.
      destruct (updateAssignments _ _ _ _ _ _ _) as [[more params2]|] eqn:Hmore;
        [|discriminate].
      intros [= <- <-]. apply updateAssignments_grows in Hmore as [added ->].
      apply in_or_app. left. apply in_or_app. right. now left.
    - cbn [updateAssignments].
      destruct (lookupAttribute k (attributes schema)) as [attribute|]; [|now apply IH].
      destruct (negb (bool_decide (k ∈ collections))); [|now apply IH].
      unfold bind at 1.
      destruct (lift _ params) as [[columnName params1]|]; [|discriminate].
      unfold bind at 1.
      destruct (updateValue _ _ _ _ _ _ params1) as [[assigned params2]|]; [|discriminate].
      unfold bind at 1.
      destruct (updateAssignments _ _ _ _ _ _ _) as [[more params3]|] eqn:Hmore;
        [|discriminate].
      intros [= <- <-]. exact (IH Hrest _ _ _ _ Hmore). }
  unfold getUpdateQueryAndParams.
  destruct (updateAssignments _ _ _ _ _ _ _) as [[assignments ps]|] eqn:Hset;
    [|discriminate].
  apply (Hloop _ Hin) in Hset.
  destruct (_buildWhereStatement _ _ _ _) as [[whereStatement ps']|] eqn:Hw; [|discriminate].
  assert (Hps : In VNull ps').
  { pose proof (Grows_buildWhereStatement modelSchemasByGlobalId schema where_ ps) as Hg.
    rewrite Hw in Hg. destruct Hg as [added ->]. apply in_or_app. now left. }
  destruct returnRecords; [discriminate|]. now intros [= <-].
Qed.

End UpdateStatements.


(** X16 at the update of the tests, [{name: 'x', store: {id: 5}}] where
    [{id: 1}], no records returned. *)
Lemma update_placeholders_follow_params_witness :
  exists result,
    getUpdateQueryAndParams 0 Catalog.stringify Sample.registry Sample.product false []
      (VObject [("id", VNumber 1)])
      [("name", VString "x"); ("store", VObject [("id", VNumber 5)])] false None
    = Ok result
    /\ params result = [VString "x"; VNumber 5; VNumber 1]
    /\ placeholders (query result) = seq 1 (length (params result)).
Proof.
  eexists. split; [vm_compute; reflexivity|]. split; [reflexivity|].
  apply (update_placeholders_follow_params 0 Catalog.stringify Sample.registry
           Sample.product false [] (VObject [("id", VNumber 1)])
           [("name", VString "x"); ("store", VObject [("id", VNumber 5)])] false None);
    vm_compute; reflexivity.
Defined.

(** X18 at [{name: 'x', store: {name: 'y'}}]: the store has no [id]. *)
Lemma update_refuses_hydrated_object_without_primary_key_witness :
  exists e,
    getUpdateQueryAndParams 0 Catalog.stringify Sample.registry Sample.product false []
      (VObject [("id", VNumber 1)])
      [("name", VString "x"); ("store", VObject [("name", VString "y")])] true None
    = Err e.
Proof.
  refine (update_refuses_hydrated_object_without_primary_key 0 Catalog.stringify
            Sample.registry Sample.product false [] (VObject [("id", VNumber 1)])
            [("name", VString "x"); ("store", VObject [("name", VString "y")])] true None
            "store" (Sample.attribute (Some "store_id") None (Some "store") false)
            Sample.store (VObject [("name", VString "y")])
            _ eq_refl _ eq_refl _ eq_refl eq_refl).
  - right. now left.
  - apply not_elem_of_nil.
  - vm_compute. reflexivity.
Defined.

(** X19 at the update [{title: 't'}] of an item, at the date [1000]. *)
Lemma update_binds_the_current_date_witness :
  exists result,
    getUpdateQueryAndParams 1000 Catalog.stringify Sample.registry Catalog.item true []
      (VObject [("id", VNumber 1)]) [("title", VString "t")] false None
    = Ok result
    /\ In (VDate 1000) (params result).
Proof.
  eexists. split; [vm_compute; reflexivity|].
  apply (update_binds_the_current_date 1000 Catalog.stringify Sample.registry
           Catalog.item true [] (VObject [("id", VNumber 1)]) [("title", VString "t")]
           false None);
    vm_compute; reflexivity.
Defined.

(** X20 at the update [{store: {id: null}}] of the products where
    [{id: 1}]: the statement sets ["store_id"=$1] and binds null. *)
Lemma update_binds_null_primary_key_witness :
  exists result,
    getUpdateQueryAndParams 0 Catalog.stringify Sample.registry Sample.product false []
      (VObject [("id", VNumber 1)]) [("store", VObject [("id", VNull)])] false None
    = Ok result
    /\ query result = "UPDATE " +:+ quoted "products" +:+ " SET " +:+ quoted "store_id"
                      +:+ "=$1 WHERE " +:+ quoted "id" +:+ "=$2"
    /\ In VNull (params result).
Proof.
  eexists. split; [vm_compute; reflexivity|]. split; [vm_compute; reflexivity|].
  refine (update_binds_null_primary_key 0 Catalog.stringify Sample.registry
            Sample.product false [] (VObject [("id", VNumber 1)])
            [("store", VObject [("id", VNull)])] false None
            "store" (Sample.attribute (Some "store_id") None (Some "store") false)
            Sample.store (VObject [("id", VNull)]) _
            _ eq_refl _ eq_refl _ eq_refl eq_refl eq_refl).
  - now left.
  - apply not_elem_of_nil.
  - vm_compute. reflexivity.
Defined.

(** ** ORDER BY *)

Lemma split_not_nil (separator : ascii) (s : string) : split separator s <> [].
Proof.
  induction s as [|c s IH]; [discriminate|]. cbn [split].
  destruct (Ascii.eqb c separator); [discriminate|].
  destruct (split separator s); [contradiction | discriminate].
Qed.

Lemma split_lacks (separator : ascii) (s : string) :
  lacks separator s = true -> split separator s = [s].
Proof.
  induction s as [|c s IH]; [reflexivity|]. cbn [lacks split].
  intros [Hc Hs]%andb_prop. apply negb_true_iff in Hc. rewrite Hc.
  now rewrite (IH Hs).
Qed.

Lemma split_append (separator : ascii) (a b : string) :
  split separator (a +:+ String separator b) = split separator a ++ split separator b.
Proof.
  induction a as [|c a IH].
  - rewrite append_empty_l. cbn [split]. now rewrite Ascii.eqb_refl.
  - rewrite append_cons. cbn [split]. destruct (Ascii.eqb c separator).
    + now rewrite IH.
    + rewrite IH. pose proof (split_not_nil separator a) as Ha.
      destruct (split separator a); [contradiction | reflexivity].
Qed.

Lemma orderPropertiesOfString_append (a b : string) :
  orderPropertiesOfString (a +:+ "," +:+ b)
  = orderPropertiesOfString a ++ orderPropertiesOfString b.
Proof.
  unfold orderPropertiesOfString.
  change ("," +:+ b) with (String "," b).
  now rewrite split_append, flat_map_app.
Qed.

Lemma lacks_append (c : ascii) (a b : string) :
  lacks c a = true -> lacks c b = true -> lacks c (a +:+ b) = true.
Proof.
  induction a as [|x a IH]; [now rewrite append_empty_l|].
  rewrite append_cons. cbn [lacks]. intros [Hx Ha]%andb_prop Hb.
  rewrite Hx. now apply IH.
Qed.

Lemma orderPropertiesOfString_sortText (sort : string * string) :
  writable sort = true ->
  orderPropertiesOfString (sortText sort) = [(fst sort, OrderString (snd sort))].
Proof.
  destruct sort as [propertyName direction]. unfold writable, sortText. cbn [fst snd].
  intros [[[[Hne Hspace]%andb_prop Hcomma]%andb_prop Hspace']%andb_prop Hcomma']%andb_prop.
  unfold orderPropertiesOfString.
  destruct (String.eqb_spec direction EmptyString) as [->|Hdirection].
  - rewrite (split_lacks "," propertyName Hcomma). cbn [flat_map].
    rewrite (split_lacks " " propertyName Hspace). rewrite Hne. reflexivity.
  - rewrite split_lacks
      by (apply lacks_append; [assumption|]; now apply (lacks_append _ " ")).
    cbn [flat_map]. change (" " +:+ direction) with (String " " direction).
    rewrite split_append, (split_lacks " " propertyName Hspace),
      (split_lacks " " direction Hspace').
    cbn [app]. rewrite Hne. cbn [String.concat]. now rewrite app_nil_r.
Qed.

Lemma sortText_not_empty (sort : string * string) :
  writable sort = true -> String.eqb (sortText sort) EmptyString = false.
Proof.
  destruct sort as [propertyName direction]. unfold writable, sortText. cbn [fst snd].
  intros [[[[Hne _]%andb_prop _]%andb_prop _]%andb_prop _]%andb_prop.
  apply negb_true_iff in Hne.
  destruct (String.eqb direction EmptyString); [exact Hne|].
  destruct propertyName; [discriminate | reflexivity].
Qed.

(** X21. A sort string reads as the sort object it spells. Property names
    and directions without comma or space, written as [name direction]
    (or [name] alone when the direction is empty) and joined by commas,
    give the ORDER BY statement, or the error, that the object with
    these names and directions in this order gives. *)
Theorem sort_string_reads_as_sort_object
  (schema : ModelMetadata) (sorts : list (string * string)) :
  sorts <> [] ->
  forallb writable sorts = true ->
  _buildOrderStatement schema (Some [SortString (String.concat "," (map sortText sorts))])
  = _buildOrderStatement schema
      (Some [SortObject (map (fun sort => (fst sort, OrderString (snd sort))) sorts)]).
Proof.
  intros Hsorts Hwritable.
  assert (Hparse : orderPropertiesOfString (String.concat "," (map sortText sorts))
                   = map (fun sort => (fst sort, OrderString (snd sort))) sorts).
  { clear Hsorts. induction sorts as [|sort sorts IH]; [reflexivity|].
    cbn [forallb] in Hwritable. apply andb_prop in Hwritable as [Hsort Hrest].
    destruct sorts as [|next sorts].
    - now apply orderPropertiesOfString_sortText.
    - change (String.concat "," (map sortText (sort :: next :: sorts)))
        with (sortText sort +:+ "," +:+ String.concat "," (map sortText (next :: sorts))).
      rewrite orderPropertiesOfString_append, (orderPropertiesOfString_sortText _ Hsort).
      now rewrite (IH Hrest). }
  assert (Hsome : someSort [SortString (String.concat "," (map sortText sorts))] = true).
  { destruct sorts as [|sort sorts]; [contradiction|].
    cbn [forallb] in Hwritable. apply andb_prop in Hwritable as [Hsort _].
    apply sortText_not_empty in Hsort.
    cbn [someSort existsb map String.concat]. rewrite orb_false_r.
    apply negb_true_iff.
    destruct sorts; [exact Hsort|].
    destruct (sortText sort); [discriminate | reflexivity]. }
  unfold _buildOrderStatement. rewrite Hsome. cbn [someSort existsb orb negb].
  unfold orderPropertiesOf. cbn [flat_map]. now rewrite !app_nil_r, Hparse.
Qed.

(** X21 at the sort ['name desc,sku'] of the products. *)
Lemma sort_string_reads_as_sort_object_witness :
  _buildOrderStatement Sample.product (Some [SortString "name desc,sku"])
  = _buildOrderStatement Sample.product
      (Some [SortObject [("name", OrderString "desc"); ("sku", OrderString EmptyString)]]).
Proof.
  refine (sort_string_reads_as_sort_object Sample.product
            [("name", "desc"); ("sku", EmptyString)] _ eq_refl).
  discriminate.
Defined.

(** X22. A space after the comma drops the sort. In a sort string, a part
    that begins with a space names no property and is skipped without a
    word: [a, b] gives the statement of [a] alone, whatever [b] is. *)
Theorem sort_after_comma_and_space_is_dropped
  (schema : ModelMetadata) (first dropped : string) :
  first <> EmptyString ->
  lacks "," dropped = true ->
  _buildOrderStatement schema (Some [SortString (first +:+ ", " +:+ dropped)])
  = _buildOrderStatement schema (Some [SortString first]).
Proof.
  intros Hfirst Hdropped.
  assert (Hparse : orderPropertiesOfString (first +:+ ", " +:+ dropped)
                   = orderPropertiesOfString first).
  { change (", " +:+ dropped) with ("," +:+ " " +:+ dropped).
    rewrite orderPropertiesOfString_append.
    unfold orderPropertiesOfString at 2.
    rewrite split_lacks by (change (" " +:+ dropped) with (String " " dropped);
                             cbn [lacks]; now rewrite Hdropped).
    cbn [flat_map]. change (" " +:+ dropped) with (String " " dropped).
    cbn [split Ascii.eqb Bool.eqb]. cbn [String.eqb negb]. now rewrite app_nil_r. }
  unfold _buildOrderStatement, orderPropertiesOf. cbn [someSort existsb flat_map].
  rewrite !app_nil_r, Hparse.
  apply String.eqb_neq in Hfirst. rewrite Hfirst.
  destruct first; [discriminate | reflexivity].
Qed.

(** X22 at the sort ['name, sku desc'] of the products. *)
Lemma sort_after_comma_and_space_is_dropped_witness :
  _buildOrderStatement Sample.product (Some [SortString "name, sku desc"])
  = Ok ("ORDER BY " +:+ quoted "name").
Proof.
  refine (eq_trans (sort_after_comma_and_space_is_dropped Sample.product
                      "name" "sku desc" _ eq_refl) eq_refl).
  discriminate.
Defined.


(** *** The direction of a sort *)

Lemma toLowerCase_append (a b : string) :
  toLowerCase (a +:+ b) = toLowerCase a +:+ toLowerCase b.
Proof.
  induction a as [|c a IH]; [now rewrite !append_empty_l|].
  rewrite append_cons. cbn [toLowerCase]. now rewrite append_cons, IH.
Qed.

Lemma prefix_toLowerCase (word s : string) :
  String.prefix word (toLowerCase s) = true <->
  exists found after, s = found +:+ after /\ toLowerCase found = word.
Proof.
  revert s. induction word as [|c word IH]; intros s.
  - split; [|now destruct (toLowerCase s)].
    intros _. exists EmptyString, s. now rewrite append_empty_l.
  - destruct s as [|x s].
    + split; [discriminate|]. intros (found & after & Hs & Hfound).
      destruct found; [discriminate|]. now rewrite append_cons in Hs.
    + cbn [toLowerCase String.prefix]. destruct (ascii_dec c (lowerAscii x)) as [->|Hne].
      * rewrite IH. split.
        -- intros (found & after & -> & <-). exists (String x found), after.
           now rewrite append_cons.
        -- intros (found & after & Hs & Hfound). destruct found as [|y found];
             [discriminate|].
           rewrite append_cons in Hs. injection Hs as -> ->.
           cbn [toLowerCase] in Hfound. injection Hfound as <-. now exists found, after.
      * split; [discriminate|]. intros (found & after & Hs & Hfound).
        destruct found as [|y found]; [discriminate|].
        rewrite append_cons in Hs. injection Hs as -> ->.
        cbn [toLowerCase] in Hfound. injection Hfound as Hy _. congruence.
Qed.

Lemma matchesDesc_occurs (s : string) :
  matchesDesc s = true <->
  exists before word after, s = before +:+ word +:+ after /\ toLowerCase word = "desc".
Proof.
  induction s as [|c s IH].
  - split; [discriminate|]. intros (before & word & after & Hs & Hword).
    destruct before; [|now rewrite append_cons in Hs].
    rewrite append_empty_l in Hs. destruct word; [discriminate|].
    now rewrite append_cons in Hs.
  - cbn [matchesDesc]. rewrite orb_true_iff, prefix_toLowerCase, IH. split.
    + intros [(word & after & Hs & Hword)|(before & word & after & -> & Hword)].
      * exists EmptyString, word, after. now rewrite append_empty_l.
      * exists (String c before), word, after. now rewrite append_cons.
    + intros (before & word & after & Hs & Hword). destruct before as [|x before].
      * left. exists word, after. now rewrite append_empty_l in Hs.
      * right. rewrite append_cons in Hs. injection Hs as -> ->.
        now exists before, word, after.
Qed.

Lemma matchesDesc_digits (d : Decimal.uint) :
  matchesDesc (NilEmpty.string_of_uint d) = false.
Proof. induction d; cbn [NilEmpty.string_of_uint matchesDesc]; try exact IHd; reflexivity. Qed.

Lemma matchesDesc_number (n : Z) :
  matchesDesc (NilZero.string_of_int (Z.to_int n)) = false.
Proof.
  assert (Huint : forall d, matchesDesc (NilZero.string_of_uint d) = false).
  { intros d. unfold NilZero.string_of_uint.
    pose proof (matchesDesc_digits d) as Hd. now destruct d. }
  destruct (Z.to_int n) as [d|d]; cbn [NilZero.string_of_int]; [apply Huint|].
  cbn [matchesDesc]. now rewrite Huint.
Qed.

Lemma isDescending_descends (order : Order) : isDescending order = true <-> descends order.
Proof.
  destruct order as [n|s]; unfold isDescending, descends.
  - rewrite matchesDesc_number, orb_false_r. split.
    + intros [_ Hn]%andb_prop. now apply Z.eqb_eq.
    + intros ->. reflexivity.
  - rewrite andb_true_iff, orb_true_iff, matchesDesc_occurs, String.eqb_eq. split.
    + intros [_ H]. exact H.
    + intros H. split; [|exact H]. apply negb_true_iff, String.eqb_neq. intros ->.
      destruct H as [H|(before & word & after & Hs & Hword)]; [discriminate|].
      destruct before; [|now rewrite append_cons in Hs].
      rewrite append_empty_l in Hs. destruct word; [discriminate|].
      now rewrite append_cons in Hs.
Qed.

(** X23. The direction of a sort. A property of the model sorts by its
    quoted column, followed by [ DESC] exactly when the direction is the
    number [-1], the string ['-1'] or a string in which [desc] occurs in
    any case; every other direction, other negative numbers included,
    sorts upwards and adds nothing. *)
Theorem sort_descends_on_minus_one_and_desc
  (schema : ModelMetadata) (propertyName : string) (property : Attribute) (order : Order) :
  propertyName <> EmptyString ->
  lookupAttribute propertyName (attributes schema) = Some property ->
  exists descending : bool,
    (descending = true <-> descends order)
    /\ _buildOrderStatement schema (Some [SortObject [(propertyName, order)]])
       = Ok ("ORDER BY " +:+ quoted (columnOf propertyName property)
             +:+ (if descending then " DESC" else EmptyString)).
Proof.
  intros Hne Hattr. exists (isDescending order). split; [apply isDescending_descends|].
  unfold _buildOrderStatement, orderPropertiesOf.
  cbn [someSort existsb orb negb flat_map app orderEntries].
  rewrite (_getColumnName_found _ _ _ Hne Hattr). cbn [Nat.ltb Nat.leb].
  now rewrite append_empty_l, append_empty_r.
Qed.

(** X23 at [{name: -2}], which sorts upwards. *)
Lemma sort_descends_on_minus_one_and_desc_witness :
  exists descending : bool,
    (descending = true <-> descends (OrderNumber (-2)))
    /\ _buildOrderStatement Sample.product
         (Some [SortObject [("name", OrderNumber (-2))]])
       = Ok ("ORDER BY " +:+ quoted "name"
             +:+ (if descending then " DESC" else EmptyString)).
Proof.
  refine (sort_descends_on_minus_one_and_desc Sample.product "name"
            (Sample.attribute (Some "name") (Some "string") None false)
            (OrderNumber (-2)) _ eq_refl).
  discriminate.
Defined.

Lemma orderEntries_unknown (schema : ModelMetadata) (propertyName : string)
  (order : Order) (before after : list (string * Order)) :
  propertyName <> EmptyString ->
  lookupAttribute propertyName (attributes schema) = None ->
  (forall name direction,
     In (name, direction) before ->
     name <> EmptyString /\ lookupAttribute name (attributes schema) <> None) ->
  forall index,
    orderEntries schema index (before ++ (propertyName, order) :: after)
    = Err (PropertyNotFound propertyName (globalId schema)).
Proof.
  intros Hne Hattr. induction before as [|[name direction] before IH]; intros Hbefore index.
  - cbn [app orderEntries]. unfold _getColumnName.
    assert (Htruthy : truthy (Some propertyName) = true)
      by (simpl; now apply negb_true_iff, String.eqb_neq).
    rewrite Htruthy. cbn [negb].
    change (default EmptyString (Some propertyName)) with propertyName.
    now rewrite Hattr.
  - cbn [app orderEntries].
    destruct (Hbefore name direction (or_introl eq_refl)) as [Hname Hknown].
    destruct (lookupAttribute name (attributes schema)) as [attribute|] eqn:Hlookup;
      [|contradiction].
    rewrite (_getColumnName_found _ _ _ Hname Hlookup).
    rewrite IH; [reflexivity|]. intros n d Hin. apply (Hbefore n d). now right.
Qed.

(** X24. A sort by an unknown property. If the sorts, read in order, come
    to a name that is no property of the model after names that all are,
    the order statement is refused with the error of a property not
    found that names this property. *)
Theorem sort_by_unknown_property_is_refused
  (schema : ModelMetadata) (sorts : list SortStatement) (propertyName : string)
  (order : Order) (before after : list (string * Order)) :
  orderPropertiesOf sorts = before ++ (propertyName, order) :: after ->
  propertyName <> EmptyString ->
  lookupAttribute propertyName (attributes schema) = None ->
  (forall name direction,
     In (name, direction) before ->
     name <> EmptyString /\ lookupAttribute name (attributes schema) <> None) ->
  exists e,
    _buildOrderStatement schema (Some sorts) = Err e
    /\ e = PropertyNotFound propertyName (globalId schema)
    /\ errorKind e = UnknownPropertyError.
Proof.
  intros Hsorts Hne Hattr Hbefore.
  assert (Hsome : someSort sorts = true).
  { assert (Hnot : orderPropertiesOf sorts <> []) by (rewrite Hsorts; now destruct before).
    clear Hsorts. induction sorts as [|[s|entries] sorts IH]; [contradiction| |reflexivity].
    cbn [someSort existsb]. destruct s as [|c s].
    - apply IH. intros H. apply Hnot. unfold orderPropertiesOf. cbn [flat_map].
      exact H.
    - reflexivity. }
  eexists. split; [|split; reflexivity].
  unfold _buildOrderStatement. rewrite Hsome, Hsorts. cbn [negb].
  now rewrite orderEntries_unknown.
Qed.

(** X24 at the sort ['name,colour desc'] of the products, which have no
    colour. *)
Lemma sort_by_unknown_property_is_refused_witness :
  exists e,
    _buildOrderStatement Sample.product (Some [SortString "name,colour desc"]) = Err e
    /\ e = PropertyNotFound "colour" "product"
    /\ errorKind e = UnknownPropertyError.
Proof.
  refine (sort_by_unknown_property_is_refused Sample.product
            [SortString "name,colour desc"] "colour" (OrderString "desc")
            [("name", OrderString EmptyString)] [] eq_refl _ eq_refl _).
  - discriminate.
  - intros name direction [[= <- <-]|[]]. split; discriminate.
Defined.

(** ** INSERT: the placeholders of the statement *)

Lemma Holds_Fragment (n k : nat) (sql : string) : Fragment n k sql <-> Holds (seq (S n) k) sql.
Proof. reflexivity. Qed.

Lemma Holds_app (first second : list nat) (a b : string) :
  Holds first a -> Holds second b -> noLeadingDigit b = true ->
  Holds (first ++ second) (a +:+ b).
Proof.
  intros Ha Hb Hd rest Hrest. rewrite append_assoc.
  rewrite Ha by now apply noLeadingDigit_append.
  rewrite Hb by assumption. now rewrite app_assoc.
Qed.

Lemma Holds_plain_l (indices : list nat) (text sql : string) :
  plain text = true -> Holds indices sql -> Holds indices (text +:+ sql).
Proof.
  intros Hp Hs rest Hrest. rewrite append_assoc. unfold placeholders.
  rewrite read_plain by assumption. now apply Hs.
Qed.

Lemma Holds_plain_r (indices : list nat) (text sql : string) :
  plain text = true -> noLeadingDigit text = true -> Holds indices sql ->
  Holds indices (sql +:+ text).
Proof.
  intros Hp Hd Hs rest Hrest. rewrite append_assoc.
  rewrite Hs by now apply noLeadingDigit_append.
  unfold placeholders. now rewrite read_plain.
Qed.

Lemma Holds_concat (sep : string) (indices : list (list nat)) (texts : list string) :
  plain sep = true -> (forall s, noLeadingDigit (sep +:+ s) = true) ->
  Forall2 Holds indices texts ->
  Holds (concat indices) (String.concat sep texts).
Proof.
  intros Hp Hd H. induction H as [|l text indices texts Hhead Htail IH].
  - intros rest _. reflexivity.
  - cbn [concat]. destruct Htail as [|l' text' indices texts Hnext Htail].
    + cbn [String.concat concat]. now rewrite app_nil_r.
    + change (String.concat sep (text :: text' :: texts))
        with (text +:+ sep +:+ String.concat sep (text' :: texts)).
      apply Holds_app; [exact Hhead | | apply Hd].
      apply Holds_plain_l; [exact Hp | exact IH].
Qed.


Lemma concat_nth_seq {A : Type} (column : list (list A)) :
  concat (map (fun entityIndex => nth entityIndex column []) (seq 0 (length column)))
  = concat column.
Proof.
  induction column as [|cell column IH]; [reflexivity|].
  cbn [length seq map concat nth]. f_equal.
  rewrite <- seq_shift, map_map. exact IH.
Qed.

Lemma Permutation_concat_both {A B : Type} (f g : A -> list B) (l : list A) :
  Permutation (concat (map (fun x => f x ++ g x) l)) (concat (map f l) ++ concat (map g l)).
Proof.
  induction l as [|x l IH]; [reflexivity|]. cbn [map concat].
  rewrite IH, <- !app_assoc. apply Permutation_app_head.
  rewrite !app_assoc. apply Permutation_app_tail, Permutation_app_comm.
Qed.

(** Read by rows, the cells hold what they hold read by columns. *)
Lemma byRows_permutation (cells : list (list (list nat))) (entityCount : nat) :
  Forall (fun column => length column = entityCount) cells ->
  Permutation (byRows cells entityCount) (concat (map (@concat nat) cells)).
Proof.
  unfold byRows. induction 1 as [|column cells Hlength Hcells IH].
  - cbn [map concat]. induction (seq 0 entityCount); [reflexivity | assumption].
  - cbn [map concat]. rewrite Permutation_concat_both. rewrite IH.
    apply Permutation_app_tail. subst entityCount. now rewrite concat_nth_seq.
Qed.

(** One row is read in the order of the columns. *)
Lemma byRows_one (cells : list (list (list nat))) :
  Forall (fun column => length column = 1) cells ->
  byRows cells 1 = concat (map (@concat nat) cells).
Proof.
  unfold byRows. cbn [seq map concat]. rewrite app_nil_r.
  induction 1 as [|column cells Hlength Hcells IH]; [reflexivity|].
  cbn [map concat]. rewrite IH. f_equal.
  destruct column as [|cell [|other column]]; try discriminate.
  cbn [nth concat]. now rewrite app_nil_r.
Qed.

Section InsertStatements.

Variable now : Z.
Variable JSON_stringify : Value -> string.
Variable repositoriesByModelNameLowered : gmap string ModelMetadata.
Variable model : ModelMetadata.

Lemma Emits_insertValue (column : Column) (entity : Entity) (params : list Value) :
  Emits params
    (insertValue JSON_stringify repositoriesByModelNameLowered model column entity params).
Proof.
  unfold insertValue. destruct (isNil _); [unfold ret; emits_leaf|].
  unfold bind.
  destruct (truthy (col_model column) && isObject _).
  - destruct (repositoriesByModelNameLowered !! _) as [relationSchema|]; [|exact I].
    destruct (primaryKeyColumn relationSchema); [|exact I].
    destruct (isNil _); [exact I|].
    rewrite push_length. unfold ret.
    destruct (bool_decide (col_type column = Some "json") && isArray _); emits_leaf.
  - destruct (bool_decide (col_type column = Some "json") && isArray _);
      rewrite push_length; unfold ret; emits_leaf.
Qed.

(** The cells of a column, and the placeholders each holds. *)
Lemma insertValuesOf_holds (column : Column) (entities : list Entity) :
  forall params cells params',
    insertValuesOf JSON_stringify repositoriesByModelNameLowered model column entities params
    = Ok (cells, params') ->
    exists added indices,
      params' = params ++ added
      /\ Forall2 Holds indices cells
      /\ length cells = length entities
      /\ concat indices = seq (S (length params)) (length added).
Proof.
  induction entities as [|entity entities IH]; intros params cells params'.
  - intros [= <- <-]. exists [], []. now rewrite app_nil_r.
  - cbn [insertValuesOf]. unfold bind at 1.
    pose proof (Emits_insertValue column entity params) as Hcell.
    destruct (insertValue _ _ _ _ _ _) as [[cell params1]|]; [|discriminate].
    destruct Hcell as (added1 & -> & Hcell). unfold bind at 1.
    destruct (insertValuesOf _ _ _ _ _ _) as [[others params2]|] eqn:Hothers;
      [|discriminate].
    intros [= <- <-].
    destruct (IH _ _ _ Hothers) as (added2 & indices & -> & Hholds & Hlength & Hconcat).
    exists (added1 ++ added2), (seq (S (length params)) (length added1) :: indices).
    split; [now rewrite app_assoc|]. split; [now constructor|].
    split; [cbn [length]; now rewrite Hlength|].
    cbn [concat]. now rewrite Hconcat, !length_app, seq_app.
Qed.

(** The second pass: the column list holds no placeholder, and the cells
    hold, column after column, one placeholder for each value bound. *)
Lemma insertColumns_holds (columnsToInsert : list Column) (entities : list Entity) :
  forallb (fun column => noQuote (col_name column)) columnsToInsert = true ->
  forall columnIndex params columnList cells params',
    insertColumns JSON_stringify repositoriesByModelNameLowered model columnIndex
      columnsToInsert entities params
    = Ok ((columnList, cells), params') ->
    exists added indices,
      params' = params ++ added
      /\ Forall2 (Forall2 Holds) indices cells
      /\ Forall (fun column => length column = length entities) indices
      /\ concat (map (@concat nat) indices) = seq (S (length params)) (length added)
      /\ forall rest, readFrom Outside (columnList +:+ rest) = readFrom Outside rest.
Proof.
  induction columnsToInsert as [|column columnsToInsert IH];
    intros Hq columnIndex params columnList cells params'.
  - intros [= <- <- <-]. exists [], []. rewrite app_nil_r.
    repeat split; try constructor. 
  - cbn [forallb] in Hq. apply andb_prop in Hq as [Hcolumn Hq].
    cbn [insertColumns]. unfold bind at 1.
    destruct (insertValuesOf _ _ _ _ _ _) as [[values params1]|] eqn:Hvalues;
      [|discriminate].
    destruct (insertValuesOf_holds _ _ _ _ _ Hvalues)
      as (added1 & indices1 & -> & Hholds1 & Hlength1 & Hconcat1).
    unfold bind at 1.
    destruct (insertColumns _ _ _ _ _ _ _) as [[[moreList moreCells] params2]|] eqn:Hmore;
      [|discriminate].
    intros [= <- <- <-].
    destruct (IH Hq _ _ _ _ _ Hmore)
      as (added2 & indices2 & -> & Hholds2 & Hlength2 & Hconcat2 & Hlist).
    exists (added1 ++ added2), (indices1 :: indices2).
    split; [now rewrite app_assoc|]. split; [now constructor|].
    split; [constructor; [|assumption];
            now rewrite (Forall2_length _ _ _ Hholds1), Hlength1|].
    split.
    + cbn [map concat]. now rewrite Hconcat1, Hconcat2, !length_app, seq_app.
    + intros rest. cbn [fst]. destruct (0 <? columnIndex)%nat; read_text; apply Hlist.
Qed.

(** The VALUES lists hold the placeholders of the cells, row after
    row. *)
Lemma valuesLists_holds (indices : list (list (list nat))) (cells : list (list string))
  (entityCount : nat) :
  Forall2 (Forall2 Holds) indices cells ->
  Forall (fun column => length column = entityCount) indices ->
  Holds (byRows indices entityCount) (valuesLists cells entityCount).
Proof.
  intros Hholds Hlength. unfold byRows, valuesLists.
  apply Holds_concat; [reflexivity | intros; reflexivity|].
  assert (Hrow : forall entityIndex, entityIndex < entityCount ->
            Holds (concat (map (fun column => nth entityIndex column []) indices))
              ("(" +:+ String.concat "," (valueCollection cells entityIndex) +:+ ")")).
  { intros entityIndex Hindex.
    apply Holds_plain_l; [reflexivity|].
    apply Holds_plain_r; [reflexivity | reflexivity|].
    apply Holds_concat; [reflexivity | intros; reflexivity|].
    unfold valueCollection.
    induction Hholds as [|column texts indices cells Hcolumn Hcells IH]; [constructor|].
    inversion Hlength as [|? ? Hhere Hothers]; subst.
    cbn [map]. constructor; [|now apply IH].
    clear IH Hcells Hothers Hlength. revert entityIndex Hindex.
    induction Hcolumn as [|l text column texts Hcell Hrest IH]; intros entityIndex Hindex;
      [cbn [length] in Hindex; lia|].
    destruct entityIndex as [|entityIndex]; [exact Hcell|].
    cbn [nth]. apply IH. cbn [length] in Hindex. lia. }
  assert (Hall : forall l, (forall i, In i l -> i < entityCount) ->
            Forall2 Holds
              (map (fun entityIndex =>
                      concat (map (fun column => nth entityIndex column []) indices)) l)
              (map (fun entityIndex =>
                      "(" +:+ String.concat "," (valueCollection cells entityIndex)
                      +:+ ")") l)).
  { induction l as [|i l IH]; intros Hl; [constructor|].
    cbn [map]. constructor; [apply Hrow, Hl; now left | apply IH].
    intros j Hj. apply Hl. now right. }
  apply Hall. intros i Hi. apply in_seq in Hi. lia.
Qed.


Lemma checkColumns_passes (columns : list Column) :
  forall entities entities' columnsToInsert,
    checkColumns now model columns entities = Ok (entities', columnsToInsert) ->
    length entities' = length entities
    /\ forall column, In column columnsToInsert -> In column columns.
Proof.
  induction columns as [|column columns IH]; intros entities entities' columnsToInsert.
  - intros [= <- <-]. now split.
  - cbn [checkColumns]. destruct (negb (truthy (col_collection column))).
    + destruct (checkColumn now model column entities) as [[entities1 include]|] eqn:Hcheck;
        [|discriminate].
      apply checkColumn_passes in Hcheck as [-> _].
      destruct (checkColumns now model columns _) as [[entities2 others]|] eqn:Hrest;
        [|discriminate].
      intros [= <- <-]. destruct (IH _ _ _ Hrest) as [Hlength Hin].
      rewrite length_map in Hlength. split; [exact Hlength|].
      intros c Hc. destruct include; [destruct Hc as [<-|Hc]|];
        solve [now left | right; now apply Hin].
    + intros H. destruct (IH _ _ _ H) as [Hlength Hin]. split; [exact Hlength|].
      intros c Hc. right. now apply Hin.
Qed.

(** X25. The placeholders of an insert statement. For a model whose names
    can be quoted, the statement that [getInsertQueryAndParams] returns
    holds each of the placeholders [$1 .. $n] exactly once, where [n] is
    the number of params returned with it; for one row they stand in
    this order. For several rows they need not: the params are bound
    column by column and the VALUES lists are written row by row. *)
Theorem insert_placeholders_match_params
  (values : InsertValues) (returnRecords : bool) (returnSelect : option (list string))
  (result : QueryAndParams) :
  quotableInsert model returnSelect = true ->
  getInsertQueryAndParams now JSON_stringify repositoriesByModelNameLowered model
    values returnRecords returnSelect = Ok result ->
  Permutation (placeholders (query result)) (seq 1 (length (params result)))
  /\ (length (entitiesToInsertOf values) = 1 ->
      placeholders (query result) = seq 1 (length (params result))).
Proof.
  intros [[Htable Hcolumns]%andb_prop Hselect]%andb_prop. unfold getInsertQueryAndParams.
  destruct (checkColumns now model (columns model) (entitiesToInsertOf values))
    as [[entitiesToInsert columnsToInsert]|] eqn:Hcheck; [|discriminate].
  apply checkColumns_passes in Hcheck as [Hcount Hsub].
  assert (Hq : forallb (fun column => noQuote (col_name column)) columnsToInsert = true).
  { rewrite forallb_forall in *. intros column Hin. now apply Hcolumns, Hsub. }
  destruct (insertColumns _ _ _ _ _ _ _) as [[[columnList cells] ps]|] eqn:Hinsert;
    [|discriminate].
  destruct (insertColumns_holds _ _ Hq _ _ _ _ _ Hinsert)
    as (added & indices & -> & Hholds & Hlength & Hconcat & Hlist).
  rewrite app_nil_l in *. cbn [length] in Hconcat.
  pose proof (valuesLists_holds _ _ _ Hholds Hlength) as Hvalues.
  assert (Hread : forall rest,
            noLeadingDigit rest = true ->
            placeholders
              (("INSERT INTO " +:+ quoted (tableName model) +:+ " (" +:+ columnList
                +:+ ") VALUES " +:+ valuesLists cells (length entitiesToInsert)) +:+ rest)
            = byRows indices (length entitiesToInsert) ++ placeholders rest).
  { intros rest Hrest. unfold placeholders. read_text. rewrite Hlist. read_text.
    now apply Hvalues. }
  intros Hok.
  assert (Hresult : placeholders (query result)
                    = byRows indices (length entitiesToInsert)
                    /\ params result = added).
  { destruct returnRecords.
    - destruct (fst (_getColumnsToSelect model returnSelect)) as [selected|] eqn:Hc;
        [|discriminate].
      injection Hok as <-. cbn [query params]. split; [|reflexivity].
      rewrite (Hread (" RETURNING " +:+ selected)) by reflexivity.
      rewrite (Fragment_placeholders 0 0 _
                 (Fragment_returning model returnSelect selected 0 Hselect Hc)).
      apply app_nil_r.
    - injection Hok as <-. cbn [query params]. split; [|reflexivity].
      specialize (Hread EmptyString eq_refl).
      now rewrite append_empty_r, app_nil_r in Hread. }
  destruct Hresult as [-> ->]. rewrite <- Hconcat.
  split; [now apply byRows_permutation|].
  intros Hone. rewrite Hcount, Hone in *. now apply byRows_one.
Qed.


Lemma checkColumns_of_no_rows (columns : list Column) :
  checkColumns now model columns [] = Ok ([], []).
Proof.
  induction columns as [|column columns IH]; [reflexivity|].
  cbn [checkColumns checkColumn]. rewrite IH. now destruct (negb _).
Qed.

(** X26. An insert of no rows. Given the empty array, the builder refuses
    nothing and binds nothing: no column is verified, none is listed, and
    the statement is [INSERT INTO "table" () VALUES ] with an empty
    column list and no VALUES list, followed by the RETURNING clause when
    records are returned. *)
Theorem insert_of_no_rows_lists_nothing
  (returnRecords : bool) (returnSelect : option (list string)) :
  getInsertQueryAndParams now JSON_stringify repositoriesByModelNameLowered model
    (ManyEntities []) returnRecords returnSelect
  = if returnRecords then
      match fst (_getColumnsToSelect model returnSelect) with
      | Ok columns =>
          Ok {| query := "INSERT INTO " +:+ quoted (tableName model) +:+ " () VALUES "
                         +:+ " RETURNING " +:+ columns;
                params := [] |}
      | Err e => Err e
      end
    else Ok {| query := "INSERT INTO " +:+ quoted (tableName model) +:+ " () VALUES ";
               params := [] |}.
Proof.
  unfold getInsertQueryAndParams. cbn [entitiesToInsertOf].
  rewrite checkColumns_of_no_rows. cbn [insertColumns ret length].
  change (" (" +:+ EmptyString +:+ ") VALUES " +:+ valuesLists [] 0) with " () VALUES ".
  destruct returnRecords; [|reflexivity].
  destruct (fst (_getColumnsToSelect model returnSelect)); [|reflexivity].
  now rewrite !append_assoc.
Qed.

(** *** Values of an insert *)

Lemma withDefault_defined (column : Column) (entity : Entity) (propertyName : string) :
  isUndefined (propertyOf entity propertyName) = false ->
  propertyOf (withDefault now column entity) propertyName = propertyOf entity propertyName.
Proof.
  intros Hdefined. unfold withDefault.
  destruct (negb _ && isUndefined (propertyOf entity (col_propertyName column))) eqn:Hset;
    [|reflexivity].
  apply andb_prop in Hset as [_ Hundefined]. rewrite propertyOf_setProperty.
  destruct (String.eqb_spec (col_propertyName column) propertyName) as [Heq|_];
    [|reflexivity].
  rewrite Heq in Hundefined. congruence.
Qed.

Lemma checkColumn_includes (column : Column) (entities entities' : list Entity)
  (includePropertyName : bool) (entity : Entity) :
  checkColumn now model column entities = Ok (entities', includePropertyName) ->
  In entity entities ->
  isUndefined (propertyOf entity (col_propertyName column)) = false ->
  includePropertyName = true.
Proof.
  revert entities' includePropertyName.
  induction entities as [|first entities IH]; intros entities' include; [intros _ []|].
  cbn [checkColumn]. intros Hcheck Hin Hdefined.
  destruct (isUndefined (propertyOf (withDefault now column first) _)) eqn:Hfirst.
  - destruct (col_required column); [discriminate|].
    destruct (checkColumn now model column entities) as [[rest flag]|]; [|discriminate].
    injection Hcheck as <- <-. destruct Hin as [->|Hin]; [|now apply (IH _ _ eq_refl)].
    apply withDefault_keeps in Hfirst. congruence.
  - destruct (checkColumn now model column entities) as [[rest flag]|]; [|discriminate].
    now injection Hcheck as <- <-.
Qed.

(** What the first pass leaves of a value that a row has: the value, in
    the row that stands where the row stood, and its column among the
    columns to insert. *)
Lemma checkColumns_keeps (columns : list Column) (column : Column) (propertyName : string)
  (value : Value) :
  isUndefined value = false ->
  forall entities entities' columnsToInsert,
    checkColumns now model columns entities = Ok (entities', columnsToInsert) ->
    (exists entity, In entity entities /\ propertyOf entity propertyName = value) ->
    (exists entity', In entity' entities' /\ propertyOf entity' propertyName = value)
    /\ (In column columns -> truthy (col_collection column) = false ->
        col_propertyName column = propertyName -> In column columnsToInsert).
Proof.
  intros Hvalue.
  induction columns as [|c columns IH]; intros entities entities' columnsToInsert.
  - intros [= <- <-] Hentity. split; [exact Hentity | intros []].
  - cbn [checkColumns]. destruct (negb (truthy (col_collection c))) eqn:Hcollection.
    + destruct (checkColumn now model c entities) as [[entities1 include]|] eqn:Hcheck;
        [|discriminate].
      destruct (checkColumns now model columns entities1) as [[entities2 others]|] eqn:Hrest;
        [|discriminate].
      intros [= <- <-] (entity & Hin & Hproperty).
      pose proof (checkColumn_passes _ _ _ _ _ _ Hcheck) as [-> _].
      assert (Hnext : exists entity1,
                 In entity1 (map (withDefault now c) entities)
                 /\ propertyOf entity1 propertyName = value).
      { exists (withDefault now c entity). split; [now apply in_map|].
        rewrite withDefault_defined; [exact Hproperty | congruence]. }
      destruct (IH _ _ _ Hrest Hnext) as [Hkept Hincluded]. split; [exact Hkept|].
      intros [<-|Hcolumn] Hplain Hname.
      * assert (include = true) as ->.
        { apply (checkColumn_includes _ _ _ _ entity Hcheck Hin). congruence. }
        now left.
      * destruct include; [right|]; now apply Hincluded.
    + intros Hrest Hentity. destruct (IH _ _ _ Hrest Hentity) as [Hkept Hincluded].
      split; [exact Hkept|]. intros [<-|Hcolumn] Hplain Hname; [|now apply Hincluded].
      rewrite Hplain in Hcollection. discriminate.
Qed.


Lemma insertValuesOf_refuses (column : Column) (entities : list Entity) (entity : Entity) :
  In entity entities ->
  (forall params, exists e,
     insertValue JSON_stringify repositoriesByModelNameLowered model column entity params
     = Err e) ->
  forall params, exists e,
    insertValuesOf JSON_stringify repositoriesByModelNameLowered model column entities params
    = Err e.
Proof.
  intros Hin Hrefused. induction entities as [|first entities IH]; [destruct Hin|].
  intros params. cbn [insertValuesOf]. unfold bind at 1.
  destruct Hin as [->|Hin].
  - destruct (Hrefused params) as [e ->]. eauto.
  - destruct (insertValue _ _ _ _ _ _) as [[cell params1]|]; [|eauto].
    unfold bind at 1. destruct (IH Hin params1) as [e ->]. eauto.
Qed.

Lemma insertColumns_refuses (columnsToInsert : list Column) (entities : list Entity)
  (column : Column) :
  In column columnsToInsert ->
  (forall params, exists e,
     insertValuesOf JSON_stringify repositoriesByModelNameLowered model column entities params
     = Err e) ->
  forall columnIndex params, exists e,
    insertColumns JSON_stringify repositoriesByModelNameLowered model columnIndex
      columnsToInsert entities params = Err e.
Proof.
  intros Hin Hrefused. induction columnsToInsert as [|first columnsToInsert IH];
    [destruct Hin|].
  intros columnIndex params. cbn [insertColumns]. unfold bind at 1.
  destruct Hin as [->|Hin].
  - destruct (Hrefused params) as [e ->]. eauto.
  - destruct (insertValuesOf _ _ _ _ _ _) as [[values params1]|]; [|eauto].
    unfold bind at 1. destruct (IH Hin (S columnIndex) params1) as [e ->]. eauto.
Qed.

(** X27. A hydrated relation value without its primary key, in an insert.
    If some row gives, for a relation column whose related model is
    registered with a primary key column, an object in which that primary
    key property is undefined or null, the insert is refused: no
    statement is returned, whatever the other rows and columns. *)
Theorem insert_refuses_hydrated_object_without_primary_key
  (values : InsertValues) (returnRecords : bool) (returnSelect : option (list string))
  (column : Column) (entity : Entity)
  (relationSchema : ModelMetadata) (relationPrimaryKeyColumn : Column) :
  In column (columns model) ->
  truthy (col_collection column) = false ->
  truthy (col_model column) = true ->
  repositoriesByModelNameLowered !! toLowerCase (default EmptyString (col_model column))
  = Some relationSchema ->
  primaryKeyColumn relationSchema = Some relationPrimaryKeyColumn ->
  In entity (entitiesToInsertOf values) ->
  isObject (propertyOf entity (col_propertyName column)) = true ->
  isNil (getProperty (propertyOf entity (col_propertyName column))
           (col_propertyName relationPrimaryKeyColumn)) = true ->
  exists e,
    getInsertQueryAndParams now JSON_stringify repositoriesByModelNameLowered model
      values returnRecords returnSelect = Err e.
Proof.
  intros Hcolumn Hplain Hmodel Hregistered Hkey Hentity Hobject Hnil.
  unfold getInsertQueryAndParams.
  destruct (checkColumns now model (columns model) (entitiesToInsertOf values))
    as [[entitiesToInsert columnsToInsert]|] eqn:Hcheck; [|eauto].
  assert (Hdefined : isUndefined (propertyOf entity (col_propertyName column)) = false)
    by (destruct (propertyOf entity (col_propertyName column)); easy).
  destruct (checkColumns_keeps (columns model) column (col_propertyName column)
              (propertyOf entity (col_propertyName column)) Hdefined _ _ _ Hcheck)
    as [(entity' & Hin & Hvalue) Hincluded]; [now exists entity|].
  specialize (Hincluded Hcolumn Hplain eq_refl).
  assert (Hcell : forall params, exists e,
             insertValue JSON_stringify repositoriesByModelNameLowered model column entity'
               params = Err e).
  { intros params. unfold insertValue. rewrite Hvalue.
    assert (isNil (propertyOf entity (col_propertyName column)) = false) as ->
      by (destruct (propertyOf entity (col_propertyName column)); easy).
    unfold bind. rewrite Hmodel, Hobject. cbn [andb].
    rewrite Hregistered, Hkey, Hnil. unfold throw. eauto. }
  destruct (insertColumns_refuses columnsToInsert entitiesToInsert column Hincluded
              (insertValuesOf_refuses column entitiesToInsert entity' Hin Hcell) 0 [])
    as [e ->].
  eauto.
Qed.

End InsertStatements.

(** X25 at the insert of two products, [{name: 'a', store: 1}] and
    [{name: 'b', sku: 's', store: 2}]: the VALUES lists are
    [($1,NULL,$4),($2,$3,$5)]. *)
Lemma insert_placeholders_match_params_witness :
  exists result,
    getInsertQueryAndParams 0 Catalog.stringify Sample.registry Sample.product
      (ManyEntities [[("name", VString "a"); ("store", VNumber 1)];
                     [("name", VString "b"); ("sku", VString "s"); ("store", VNumber 2)]])
      false None
    = Ok result
    /\ placeholders (query result) = [1; 4; 2; 3; 5]
    /\ Permutation (placeholders (query result)) (seq 1 (length (params result))).
Proof.
  eexists. split; [vm_compute; reflexivity|]. split; [vm_compute; reflexivity|].
  refine (proj1 (insert_placeholders_match_params 0 Catalog.stringify Sample.registry
                   Sample.product
                   (ManyEntities
                      [[("name", VString "a"); ("store", VNumber 1)];
                       [("name", VString "b"); ("sku", VString "s"); ("store", VNumber 2)]])
                   false None _ eq_refl eq_refl)).
Defined.

(** X27 at the insert of [{name: 'a', store: {id: null}}]. *)
Lemma insert_refuses_hydrated_object_without_primary_key_witness :
  exists e,
    getInsertQueryAndParams 0 Catalog.stringify Sample.registry Sample.product
      (OneEntity [("name", VString "a"); ("store", VObject [("id", VNull)])]) true None
    = Err e.
Proof.
  refine (insert_refuses_hydrated_object_without_primary_key 0 Catalog.stringify
            Sample.registry Sample.product
            (OneEntity [("name", VString "a"); ("store", VObject [("id", VNull)])])
            true None
            (Sample.column "store_id" "store" None (Some "store") true)
            [("name", VString "a"); ("store", VObject [("id", VNull)])]
            Sample.store (Sample.column "id" "id" (Some "integer") None false)
            _ eq_refl eq_refl _ eq_refl _ eq_refl eq_refl).
  - do 4 right. now left.
  - vm_compute. reflexivity.
  - now left.
Defined.
